(** * Run lifecycle of the Federated-GNN-Lab frontend

    A shallow embedding of the two pieces of the frontend that drive one
    training run:

    - [FLVisualizer.handleStartTraining]
      (frontend/components/FLVisualizer.tsx): reads the streamed response of
      [/train] chunk by chunk, splits it into lines, parses each line and
      settles the run identifier when the stream ends;
    - [HomePage] (frontend/app/page.tsx): [handleTrainingComplete] with its
      inner [checkAndShow], [checkAnalysisReady], [handleRetryPolling],
      [handleForceShowAnalysis], the [beforeunload] handler and the two
      effect clean-ups.

    Around them: the loss axis of the visualizer's charts ([getMaxLoss]),
    the prediction request of the page, the playback of the divergence
    viewer, the model selector of the feature importance viewer and the
    loading and the traces of the embedding viewer.

    The handler is modelled on the texts [decoder.decode] returns for the
    chunks it reads, with [string] for text: a character stands for one code
    unit below 256.  [Wire] has the decoding itself, from the bytes of a
    chunk to code units of any size, and the line loop on them. *)

From Stdlib Require Import String Ascii List Arith Bool Lia QArith.
From Stdlib Require Import DecimalString.
From Stdlib Require DecimalFacts DecimalNat Qround Permutation.
Import ListNotations.
Local Open Scope string_scope.
Local Open Scope nat_scope.

(** ** JavaScript strings *)

Module JsString.

Definition newline : ascii := ascii_of_nat 10.
Definition dquote : ascii := ascii_of_nat 34.
Definition backslash : ascii := ascii_of_nat 92.

(** [String.prototype.split] with the one-character separator [sep]:
    the empty string is split into one empty piece. *)
Fixpoint split (sep : ascii) (s : string) : list string :=
  match s with
  | EmptyString => [EmptyString]
  | String c rest =>
      if Ascii.eqb c sep then EmptyString :: split sep rest
      else match split sep rest with
           | piece :: pieces => String c piece :: pieces
           | [] => [String c EmptyString]
           end
  end.

(** [Array.prototype.pop]: the last element ([None] stands for
    [undefined], on the empty array) and the array that is left. *)
Definition pop {A : Type} (l : list A) : option A * list A :=
  match rev l with
  | [] => (None, [])
  | x :: before => (Some x, rev before)
  end.

(** White space in the sense of [String.prototype.trim], among the code
    units below 256: TAB, LF, VT, FF, CR, SPACE and NBSP. *)
Definition is_white_space (c : ascii) : bool :=
  let n := nat_of_ascii c in
  ((9 <=? n) && (n <=? 13)) || (n =? 32) || (n =? 160).

Fixpoint trim_start (s : string) : string :=
  match s with
  | EmptyString => EmptyString
  | String c rest => if is_white_space c then trim_start rest else s
  end.

(** The characters of [s] up to its last non-blank one. *)
Fixpoint trim_end (s : string) : string :=
  match s with
  | EmptyString => EmptyString
  | String c rest =>
      match trim_end rest with
      | EmptyString => if is_white_space c then EmptyString else String c EmptyString
      | kept => String c kept
      end
  end.

Definition trim (s : string) : string := trim_end (trim_start s).

(** Truthiness of a string: every string but the empty one. *)
Definition truthy (s : string) : bool :=
  match s with EmptyString => false | String _ _ => true end.

(** [a || b] on strings that may be [null]. *)
Definition or_else (a b : option string) : option string :=
  match a with
  | Some s => if truthy s then a else b
  | None => b
  end.

(** [s.includes(needle)]. *)
Fixpoint includes (needle s : string) : bool :=
  if String.prefix needle s then true
  else match s with
       | EmptyString => false
       | String _ rest => includes needle rest
       end.

(** [String(n)] for a non-negative integer: its decimal digits. *)
Definition of_nat (n : nat) : string := NilEmpty.string_of_uint (Nat.to_uint n).

Fixpoint concat (pieces : list string) : string :=
  match pieces with
  | [] => EmptyString
  | p :: rest => p ++ concat rest
  end.

(** Whether [c] occurs in [s]. *)
Fixpoint contains_char (c : ascii) (s : string) : bool :=
  match s with
  | EmptyString => false
  | String x rest => Ascii.eqb x c || contains_char c rest
  end.

(** [s] followed by a line break. *)
Definition line (s : string) : string := s ++ String newline EmptyString.

(** [s] between double quotes. *)
Definition quoted (s : string) : string := String dquote (s ++ String dquote EmptyString).

(** The lines a text holds in full, and what follows its last line break. *)
Definition complete_lines (text : string) : list string := removelast (split newline text).
Definition residual (text : string) : string := last (split newline text) EmptyString.

End JsString.

(** ** JSON values *)

Module Json.

(** A number as [JSON.parse] returns it: a finite double, kept as the
    rational it is (the two zeros are one), or an infinity, which a literal
    out of range gives. *)
Inductive number : Type :=
| Finite (q : Q)
| Infinity (negative : bool).

Definition number_truthy (n : number) : bool :=
  match n with
  | Finite q => negb (Qeq_bool q 0)
  | Infinity _ => true
  end.

(** What [JSON.parse] returns.  The fields of an object are its own
    properties in the order [Object.keys] lists them, with distinct keys. *)
#[local] Set Warnings "-register-all".
Inductive json : Type :=
| JNull
| JBool (b : bool)
| JNum (n : number)
| JStr (s : string)
| JArr (items : list json)
| JObj (fields : list (string * json)).

(** A JavaScript value read from a parsed text: [None] is [undefined]. *)
Definition value := option json.

Definition truthy (j : json) : bool :=
  match j with
  | JNull => false
  | JBool b => b
  | JNum n => number_truthy n
  | JStr s => JsString.truthy s
  | JArr _ | JObj _ => true
  end.

Definition value_truthy (v : value) : bool :=
  match v with Some j => truthy j | None => false end.

Fixpoint assoc (key : string) (fields : list (string * json)) : value :=
  match fields with
  | [] => None
  | (k, v) :: rest => if String.eqb k key then Some v else assoc key rest
  end.

(** [data.name] for one of the names the decoder reads ([run_id], [round],
    [global_loss], [client_train], [client_val]): a [TypeError] ([None])
    on [null], the field of an object, [undefined] on anything else. *)
Definition get (data : json) (name : string) : option value :=
  match data with
  | JNull => None
  | JObj fields => Some (assoc name fields)
  | _ => Some None
  end.

Fixpoint indexed {A : Type} (from : nat) (l : list A) : list (string * A) :=
  match l with
  | [] => []
  | x :: rest => (JsString.of_nat from, x) :: indexed (S from) rest
  end.

Definition chars (s : string) : list json :=
  map (fun c => JStr (String c EmptyString)) (list_ascii_of_string s).

(** [Object.keys(v)] together with [v[key]] for each key: a [TypeError]
    ([None]) on [undefined] and [null]. *)
Definition entries (v : value) : option (list (string * json)) :=
  match v with
  | None | Some JNull => None
  | Some (JObj fields) => Some fields
  | Some (JArr items) => Some (indexed 0 items)
  | Some (JStr s) => Some (indexed 0 (chars s))
  | Some (JBool _) | Some (JNum _) => Some []
  end.

(** [v || 0]. *)
Definition or_zero (v : json) : json := if truthy v then v else JNum (Finite 0).

End Json.

(** ** The bytes of the stream: [TextDecoder] and the line loop on them *)

Module Wire.

Local Open Scope Z_scope.

(** A text as JavaScript has it: its UTF-16 code units. *)
Definition text := list Z.

Definition replacement : Z := 0xFFFD.
Definition byte_order_mark : Z := 0xFEFF.

(** The UTF-8 decoder of the Encoding standard, which [new TextDecoder()]
    uses: its state between two bytes. *)
Record Decoder : Type := mkDecoder {
  code_point : Z;
  bytes_seen : Z;
  bytes_needed : Z;
  lower_boundary : Z;
  upper_boundary : Z
}.

Definition fresh : Decoder := mkDecoder 0 0 0 0x80 0xBF.

(** A byte read while no sequence is open: what is emitted and the state
    that follows. *)
Definition lead (b : Z) : list Z * Decoder :=
  if b <=? 0x7F then ([b], fresh)
  else if (0xC2 <=? b) && (b <=? 0xDF) then ([], mkDecoder (Z.land b 0x1F) 0 1 0x80 0xBF)
  else if (0xE0 <=? b) && (b <=? 0xEF) then
    ([], mkDecoder (Z.land b 0xF) 0 2 (if b =? 0xE0 then 0xA0 else 0x80)
           (if b =? 0xED then 0x9F else 0xBF))
  else if (0xF0 <=? b) && (b <=? 0xF4) then
    ([], mkDecoder (Z.land b 0x7) 0 3 (if b =? 0xF0 then 0x90 else 0x80)
           (if b =? 0xF4 then 0x8F else 0xBF))
  else ([replacement], fresh).

(** The handler of the decoder on one byte, errors replaced by U+FFFD.
    A byte that cannot continue the open sequence ends it with an error
    and is read again as a first byte. *)
Definition handler (d : Decoder) (b : Z) : list Z * Decoder :=
  if bytes_needed d =? 0 then lead b
  else if negb ((lower_boundary d <=? b) && (b <=? upper_boundary d)) then
    let (emitted, d') := lead b in (replacement :: emitted, d')
  else
    let cp := Z.lor (Z.shiftl (code_point d) 6) (Z.land b 0x3F) in
    let seen := bytes_seen d + 1 in
    if seen =? bytes_needed d then ([cp], fresh)
    else ([], mkDecoder cp seen (bytes_needed d) 0x80 0xBF).

(** The code points of a whole input: at its end an open sequence is an
    error. *)
Fixpoint scalars (d : Decoder) (input : list Z) : list Z :=
  match input with
  | [] => if bytes_needed d =? 0 then [] else [replacement]
  | b :: rest => let (emitted, d') := handler d b in (emitted ++ scalars d' rest)%list
  end.

(** A byte order mark that comes first in the output is left out. *)
Definition strip_mark (output : list Z) : list Z :=
  match output with
  | first :: rest => if first =? byte_order_mark then rest else output
  | [] => []
  end.

(** The code units of a code point. *)
Definition units (cp : Z) : text :=
  if cp <? 0x10000 then [cp]
  else [0xD800 + Z.shiftr (cp - 0x10000) 10; 0xDC00 + Z.land (cp - 0x10000) 0x3FF].

(** [decoder.decode(value)], called without [{ stream: true }]: every call
    decodes its chunk as a whole input, from a fresh state, and flushes at
    the end of the chunk. *)
Definition TextDecoder_decode (value : list Byte.byte) : text :=
  flat_map units (strip_mark (scalars fresh (map (fun b => Z.of_N (Byte.to_N b)) value))).

Definition newline : Z := 10.

(** [String.prototype.split] with a one-unit separator. *)
Fixpoint split (sep : Z) (s : text) : list text :=
  match s with
  | [] => [[]]
  | u :: rest =>
      if u =? sep then [] :: split sep rest
      else match split sep rest with
           | piece :: pieces => (u :: piece) :: pieces
           | [] => [[u]]
           end
  end.

(** White space and line terminators, which [String.prototype.trim]
    removes. *)
Definition is_white_space (u : Z) : bool :=
  ((9 <=? u) && (u <=? 13)) || (u =? 32) || (u =? 0xA0) || (u =? 0x1680)
  || ((0x2000 <=? u) && (u <=? 0x200A)) || (u =? 0x2028) || (u =? 0x2029)
  || (u =? 0x202F) || (u =? 0x205F) || (u =? 0x3000) || (u =? 0xFEFF).

Fixpoint trim_start (s : text) : text :=
  match s with
  | [] => []
  | u :: rest => if is_white_space u then trim_start rest else s
  end.

Fixpoint trim_end (s : text) : text :=
  match s with
  | [] => []
  | u :: rest =>
      match trim_end rest with
      | [] => if is_white_space u then [] else [u]
      | kept => u :: kept
      end
  end.

Definition trim (s : text) : text := trim_end (trim_start s).

Definition truthy (s : text) : bool :=
  match s with [] => false | _ :: _ => true end.

(** The read loop up to [JSON.parse]: its residual buffer and the lines it
    has handed to [JSON.parse] so far. *)
Record Loop : Type := mkLoop {
  buffer : text;
  parsed : list text
}.

(** One turn of [while (true)] on the bytes of a chunk. *)
Definition chunk_step (l : Loop) (value : list Byte.byte) : Loop :=
  let buffer1 := (buffer l ++ TextDecoder_decode value)%list in
  let (popped, lines) := JsString.pop (split newline buffer1) in
  let buffer2 := match popped with
                 | Some b => if truthy b then b else []
                 | None => []
                 end in
  mkLoop buffer2 (parsed l ++ filter (fun line => truthy (trim line)) lines)%list.

(** The lines [JSON.parse] is called on while the chunks are read. *)
Definition lines_to_parse (values : list (list Byte.byte)) : list text :=
  parsed (fold_left chunk_step values (mkLoop [] [])).

(** The code units of a text of the handler, one for each character, and
    the texts whose characters are all below 128: in UTF-8 they are their
    own bytes. *)
Definition unit (c : ascii) : Z := Z.of_N (N_of_ascii c).

Definition of_string (s : string) : text := map unit (list_ascii_of_string s).

Definition is_ascii (s : string) : bool :=
  forallb (fun c => unit c <? 128) (list_ascii_of_string s).

End Wire.

(** ** The training stream: frontend/components/FLVisualizer.tsx *)

Module FLVisualizer.
Import Json.

(** [RoundData]: the keys of [formattedData] in the order they are set,
    each with its value. *)
Definition RoundData := list (string * value).

(** The state of the component ([useState]) and what its handler does to
    the outside: the calls of [onComplete] and the lines handed to
    [console.error] by the [catch] of the line loop. *)
Record State : Type := mkState {
  globalLosses : list RoundData;
  training : bool;
  error : option string;
  capturedRunId : option json;
  onComplete_calls : list json;
  console_errors : list string
}.

Definition setGlobalLosses (f : list RoundData -> list RoundData) (s : State) : State :=
  mkState (f (globalLosses s)) (training s) (error s) (capturedRunId s)
          (onComplete_calls s) (console_errors s).
Definition setTraining (b : bool) (s : State) : State :=
  mkState (globalLosses s) b (error s) (capturedRunId s)
          (onComplete_calls s) (console_errors s).
Definition setError (e : option string) (s : State) : State :=
  mkState (globalLosses s) (training s) e (capturedRunId s)
          (onComplete_calls s) (console_errors s).
Definition setCapturedRunId (r : option json) (s : State) : State :=
  mkState (globalLosses s) (training s) (error s) r
          (onComplete_calls s) (console_errors s).
Definition call_onComplete (runId : json) (s : State) : State :=
  mkState (globalLosses s) (training s) (error s) (capturedRunId s)
          (onComplete_calls s ++ [runId]) (console_errors s).
Definition console_error (line : string) (s : State) : State :=
  mkState (globalLosses s) (training s) (error s) (capturedRunId s)
          (onComplete_calls s) (console_errors s ++ [line]).

(** The state of a freshly mounted component. *)
Definition initial : State := mkState [] false None None [] [].

(** The local variables of the read loop. *)
Record Loop : Type := mkLoop {
  buffer : string;
  streamRunId : option json;
  component : State
}.

(** The response of [fetch].  Header names are stored in lower case and
    [Headers.get] looks a name up whatever its case. *)
Record Body : Type := mkBody {
  chunks : list string;            (* the text [decoder.decode] gives for each chunk
                                      that [reader.read()] yields *)
  read_failure : option string     (* [Some m]: the next read rejects with message [m];
                                      [None]: the next read reports [done] *)
}.

Record Response : Type := mkResponse {
  status : nat;
  text : option string;            (* [None]: [response.text()] rejects *)
  headers : list (string * string);
  body : option Body
}.

Inductive FetchResult : Type :=
| Rejected (message : string)
| Resolved (response : Response).

Definition ok (r : Response) : bool := (200 <=? status r) && (status r <=? 299).

Definition lower (c : ascii) : ascii :=
  let n := nat_of_ascii c in
  if (65 <=? n) && (n <=? 90) then ascii_of_nat (n + 32) else c.

Fixpoint lowercase (s : string) : string :=
  match s with
  | EmptyString => EmptyString
  | String c rest => String (lower c) (lowercase rest)
  end.

Fixpoint headers_get (hs : list (string * string)) (name : string) : option string :=
  match hs with
  | [] => None
  | (k, v) :: rest => if String.eqb k (lowercase name) then Some v else headers_get rest name
  end.

(** [response.headers.get("X-Run-Id") || response.headers.get("x-run-id") || null] *)
Definition runIdFromHeader (r : Response) : option string :=
  JsString.or_else
    (JsString.or_else (headers_get (headers r) "X-Run-Id") (headers_get (headers r) "x-run-id"))
    None.

(** [`fallback-${Date.now()}`], [now] being the clock when it is evaluated. *)
Definition fallback (now : nat) : string := "fallback-" ++ JsString.of_nat now.

(** [runIdFromHeader || streamRunId || `fallback-${Date.now()}`] *)
Definition finalRunId (fromHeader : option string) (fromStream : option json) (now : nat) : json :=
  match JsString.or_else fromHeader None with
  | Some h => JStr h
  | None =>
      match fromStream with
      | Some j => if truthy j then j else JStr (fallback now)
      | None => JStr (fallback now)
      end
  end.

(** The two [forEach] loops: the values of [client_train], then those of
    [client_val], under the keys [client_train_<i>] and [client_<i>]. *)
Definition numbered (prefix : string) (es : list (string * json)) : RoundData :=
  map (fun p => (prefix ++ JsString.of_nat (S (fst p)), Some (or_zero (snd (snd p)))))
      (combine (seq 0 (length es)) es).

(** [formattedData] as it stands when [setGlobalLosses] is reached;
    [None] when a [TypeError] is thrown before. *)
Definition formattedData (data : json) : option RoundData :=
  match get data "round", get data "global_loss" with
  | Some round, Some global_loss =>
      match get data "client_train" with
      | Some client_train =>
          match entries client_train with
          | Some train =>
              match get data "client_val" with
              | Some client_val =>
                  match entries client_val with
                  | Some val =>
                      Some ([("round", round); ("global_loss", global_loss)]
                              ++ numbered "client_train_" train
                              ++ numbered "client_" val)%list
                  | None => None
                  end
              | None => None
              end
          | None => None
          end
      | None => None
      end
  | _, _ => None
  end.

(** [!streamRunId] *)
Definition unset (r : option json) : bool :=
  match r with Some j => negb (truthy j) | None => true end.

Section Decoding.

(** [JSON.parse]: [None] when it throws a [SyntaxError]. *)
Variable JSON_parse : string -> option json.

(** The body of [for (const line of lines)]. *)
Definition line_step (l : Loop) (line : string) : Loop :=
  if negb (JsString.truthy (JsString.trim line)) then l
  else
    match JSON_parse line with
    | None => mkLoop (buffer l) (streamRunId l) (console_error line (component l))
    | Some data =>
        match get data "run_id" with
        | None => mkLoop (buffer l) (streamRunId l) (console_error line (component l))
        | Some run_id =>
            let streamRunId' :=
              if value_truthy run_id && unset (streamRunId l) then run_id
              else streamRunId l in
            match formattedData data with
            | None => mkLoop (buffer l) streamRunId' (console_error line (component l))
            | Some round =>
                mkLoop (buffer l) streamRunId'
                       (setGlobalLosses (fun prev => (prev ++ [round])%list) (component l))
            end
        end
    end.

(** One turn of [while (true)] on a chunk that was read; [decoded] is the
    text [decoder.decode(value)] gave for it. *)
Definition chunk_step (l : Loop) (decoded : string) : Loop :=
  let buffer1 := buffer l ++ decoded in
  let (popped, lines) := JsString.pop (JsString.split JsString.newline buffer1) in
  let buffer2 := match JsString.or_else popped (Some EmptyString) with
                 | Some b => b
                 | None => EmptyString
                 end in
  fold_left line_step lines (mkLoop buffer2 (streamRunId l) (component l)).

(** The turns of the loop on the chunks of a body, from the handler's
    [buffer = ""] and [streamRunId = null]. *)
Definition read_all (values : list string) (s : State) : Loop :=
  fold_left chunk_step values (mkLoop EmptyString None s).

(** The turn on which [reader.read()] reports [done]. *)
Definition done_step (onComplete : bool) (fromHeader : option string) (now : nat)
    (l : Loop) : State :=
  let final := finalRunId fromHeader (streamRunId l) now in
  let s := setCapturedRunId (Some final) (component l) in
  if onComplete then call_onComplete final s
  else setError (Some "Training completed but no callback to proceed") s.

(** The [catch (err)] of the handler, on [err.message]. *)
Definition on_error (message : string) (s : State) : State :=
  if JsString.includes "Failed to fetch" message then
    setError (Some "Failed to connect to backend (CORS or server error). Ensure FastAPI server is running locally and /train route is registered, and CORS middleware includes allow_origins=['http://localhost:3000', FRONTEND_URL], expose_headers=['X-Run-Id'].") s
  else if JsString.includes "Training endpoint not found" message then
    setError (Some message) s
  else setError (Some ("Training failed: " ++ message)) s.

(** [handleStartTraining].  [onComplete] tells whether the property was
    given, [now] is what [Date.now()] returns where the handler calls it. *)
Definition handleStartTraining (onComplete : bool) (result : FetchResult) (now : nat)
    (s : State) : State :=
  let s := setCapturedRunId None (setError None (setGlobalLosses (fun _ => []) (setTraining true s))) in
  let s :=
    match result with
    | Rejected message => on_error message s
    | Resolved response =>
        if negb (ok response) then
          let errorBody := match text response with
                           | Some t => t
                           | None => "No body available"
                           end in
          if status response =? 404 then
            on_error "Training endpoint not found (404). Ensure FastAPI server is running locally and /train route is correctly registered in main.py." s
          else
            on_error ("HTTP error! status: " ++ JsString.of_nat (status response)
                        ++ ", body: " ++ errorBody) s
        else
          match body response with
          | Some b =>
              let l := read_all (chunks b) s in
              match read_failure b with
              | None => done_step onComplete (runIdFromHeader response) now l
              | Some message => on_error message (component l)
              end
          | None =>
              let s := setError (Some "No response body received from training endpoint") s in
              let fallbackRunId := JStr (fallback now) in
              let s := setCapturedRunId (Some fallbackRunId) s in
              if onComplete then call_onComplete fallbackRunId s else s
          end
    end in
  setTraining false s.

(** The run identifier a line carries for the loop: the truthy [run_id]
    of what the line parses to, when it is not blank. *)
Definition embedded_run_id (line : string) : option json :=
  if negb (JsString.truthy (JsString.trim line)) then None
  else
    match JSON_parse line with
    | Some data =>
        match get data "run_id" with
        | Some (Some j) => if truthy j then Some j else None
        | _ => None
        end
    | None => None
    end.

(** The identifier of the first line that carries one. *)
Fixpoint first_embedded (lines : list string) : option json :=
  match lines with
  | [] => None
  | line :: rest =>
      match embedded_run_id line with
      | Some j => Some j
      | None => first_embedded rest
      end
  end.

(** The identifier by the precedence of the read loop, for a body whose
    chunks are [values]: the header identifier when it is not empty, else
    the first identifier of the stream, else the fallback stamped with the
    clock at the end of the stream. *)
Definition resolved_runId (fromHeader : option string) (values : list string) (now : nat) : json :=
  let from_stream :=
    match first_embedded (JsString.complete_lines (JsString.concat values)) with
    | Some e => e
    | None => JStr (fallback now)
    end in
  match fromHeader with
  | Some h => if JsString.truthy h then JStr h else from_stream
  | None => from_stream
  end.

(** The identifier by the stated precedence: the header identifier when
    the response has one, else the first identifier of the stream, else
    a fallback stamped with the time the session started. *)
Definition claimed_runId (r : Response) (started : nat) : json :=
  match headers_get (headers r) "x-run-id" with
  | Some h => JStr h
  | None =>
      let lines :=
        match body r with
        | Some b => JsString.complete_lines (JsString.concat (chunks b))
        | None => []
        end in
      match first_embedded lines with
      | Some e => e
      | None => JStr ("fallback-" ++ JsString.of_nat started)
      end
  end.

End Decoding.

End FLVisualizer.

(** ** A sample run *)

Module Sample.
Import Json.

(** The wire text of one round of three clients and the value
    [JSON.parse] gives for it. *)
Definition losses_text : string :=
  "{" ++ JsString.quoted "c1" ++ ":1," ++ JsString.quoted "c2" ++ ":1,"
      ++ JsString.quoted "c3" ++ ":1}".

Definition losses : json := JObj [("c1", JNum (Finite 1)); ("c2", JNum (Finite 1)); ("c3", JNum (Finite 1))].

Definition round_text (round loss run_id : string) : string :=
  "{" ++ JsString.quoted "round" ++ ":" ++ round ++ ","
      ++ JsString.quoted "global_loss" ++ ":" ++ loss ++ ","
      ++ JsString.quoted "client_train" ++ ":" ++ losses_text ++ ","
      ++ JsString.quoted "client_val" ++ ":" ++ losses_text ++ ","
      ++ JsString.quoted "run_id" ++ ":" ++ JsString.quoted run_id ++ "}".

Definition round_json (round loss : Q) (run_id : string) : json :=
  JObj [("round", JNum (Finite round)); ("global_loss", JNum (Finite loss));
        ("client_train", losses); ("client_val", losses); ("run_id", JStr run_id)].

Definition round1 : string := round_text "1" "0.9" "abc".
Definition round2 : string := round_text "2" "0.8" "abc".
Definition round1_E : string := round_text "1" "0.9" "E".
Definition round2_other : string := round_text "2" "0.8" "other".
Definition garbage : string := "{oops".

(** [JSON.parse] on the texts of the sample: it throws on any other text. *)
Definition parse (s : string) : option json :=
  if String.eqb s round1 then Some (round_json 1 (9 # 10) "abc")
  else if String.eqb s round2 then Some (round_json 2 (8 # 10) "abc")
  else if String.eqb s round1_E then Some (round_json 1 (9 # 10) "E")
  else if String.eqb s round2_other then Some (round_json 2 (8 # 10) "other")
  else None.

(** [formattedData] for a round of the sample. *)
Definition formatted_round (round loss : Q) : FLVisualizer.RoundData :=
  [("round", Some (JNum (Finite round))); ("global_loss", Some (JNum (Finite loss)));
   ("client_train_1", Some (JNum (Finite 1))); ("client_train_2", Some (JNum (Finite 1)));
   ("client_train_3", Some (JNum (Finite 1)));
   ("client_1", Some (JNum (Finite 1))); ("client_2", Some (JNum (Finite 1))); ("client_3", Some (JNum (Finite 1)))].

(** The wire text of a round up to the value of its [run_id] and after
    it, the round whose [run_id] is the one character U+00E9, and the
    bytes that carry that round and its line break in UTF-8, where U+00E9
    is the two bytes C3 A9. *)
Definition wire_head : string :=
  "{" ++ JsString.quoted "round" ++ ":1,"
      ++ JsString.quoted "global_loss" ++ ":0.9,"
      ++ JsString.quoted "client_train" ++ ":" ++ losses_text ++ ","
      ++ JsString.quoted "client_val" ++ ":" ++ losses_text ++ ","
      ++ JsString.quoted "run_id" ++ ":" ++ String JsString.dquote EmptyString.

Definition wire_tail : string := String JsString.dquote "}".

Definition round1_accent : string := round_text "1" "0.9" (String (ascii_of_nat 233) EmptyString).

Definition wire_round : list Byte.byte :=
  (list_byte_of_string wire_head ++ [Byte.xc3; Byte.xa9]
   ++ list_byte_of_string (JsString.line wire_tail))%list.

(** A 200 response that streams [values] and ends, with the given headers. *)
Definition streamed (hs : list (string * string)) (values : list string) : FLVisualizer.Response :=
  FLVisualizer.mkResponse 200 None hs (Some (FLVisualizer.mkBody values None)).

End Sample.

(** ** The session screen: frontend/app/page.tsx *)

Module HomePage.

Definition maxPollingAttempts : nat := 24.

(** What a closure created during one render sees of the state. *)
Record Render : Type := mkRender {
  seen_pollingAttempts : nat;
  seen_pollingInterval : option nat;
  seen_currentRunId : option string
}.

(** The callback handed to [setInterval] by one call of
    [handleTrainingComplete]: the [runId] of that call and the render its
    [checkAndShow] closes over. *)
Record Poll : Type := mkPoll {
  poll_runId : string;
  poll_seen : Render
}.

(** What the page does to the outside, in the order it happens. *)
Inductive Effect : Type :=
| FetchStatus (run_id : string)      (* fetch of /dissect/status?run_id=... *)
| SetInterval (handle : nat) (period : nat)
| ClearInterval (handle : nat)
| SendBeacon (body : string).        (* navigator.sendBeacon to /delete-run *)

(** The state of the component ([useState]), then the browser: the
    intervals that are armed with their callbacks, the next timer handle
    (handles are positive), the [beforeunload] listeners (each one the
    [currentRunId] its closure sees) and the effects so far. *)
Record World : Type := mkWorld {
  error : option string;
  trainingDone : bool;
  showAnalysis : bool;
  currentRunId : option string;
  pollingInterval : option nat;
  pollingAttempts : nat;
  intervals : list (nat * Poll);
  next_handle : nat;
  listeners : list (option string);
  effects : list Effect
}.

Definition render (w : World) : Render :=
  mkRender (pollingAttempts w) (pollingInterval w) (currentRunId w).

(** Handlers run in a state monad over [World]. *)
Definition M (A : Type) : Type := World -> A * World.
Definition ret {A : Type} (a : A) : M A := fun w => (a, w).
Definition bind {A B : Type} (c : M A) (k : A -> M B) : M B :=
  fun w => let (a, w') := c w in k a w'.
Definition exec {A : Type} (c : M A) (w : World) : World := snd (c w).

Declare Scope page_scope.
Delimit Scope page_scope with page.
Notation "x <- c ;; k" := (bind c (fun x => k))
  (at level 61, c at next level, right associativity) : page_scope.
Notation "c ;; k" := (bind c (fun _ => k))
  (at level 61, right associativity) : page_scope.
Local Open Scope page_scope.

Definition setError (e : option string) : M unit := fun w =>
  (tt, mkWorld e (trainingDone w) (showAnalysis w) (currentRunId w) (pollingInterval w)
               (pollingAttempts w) (intervals w) (next_handle w) (listeners w) (effects w)).
Definition setTrainingDone (b : bool) : M unit := fun w =>
  (tt, mkWorld (error w) b (showAnalysis w) (currentRunId w) (pollingInterval w)
               (pollingAttempts w) (intervals w) (next_handle w) (listeners w) (effects w)).
Definition setShowAnalysis (b : bool) : M unit := fun w =>
  (tt, mkWorld (error w) (trainingDone w) b (currentRunId w) (pollingInterval w)
               (pollingAttempts w) (intervals w) (next_handle w) (listeners w) (effects w)).
Definition setCurrentRunId (r : option string) : M unit := fun w =>
  (tt, mkWorld (error w) (trainingDone w) (showAnalysis w) r (pollingInterval w)
               (pollingAttempts w) (intervals w) (next_handle w) (listeners w) (effects w)).
Definition setPollingInterval (h : option nat) : M unit := fun w =>
  (tt, mkWorld (error w) (trainingDone w) (showAnalysis w) (currentRunId w) h
               (pollingAttempts w) (intervals w) (next_handle w) (listeners w) (effects w)).
Definition setPollingAttempts (f : nat -> nat) : M unit := fun w =>
  (tt, mkWorld (error w) (trainingDone w) (showAnalysis w) (currentRunId w) (pollingInterval w)
               (f (pollingAttempts w)) (intervals w) (next_handle w) (listeners w) (effects w)).
Definition setListeners (f : list (option string) -> list (option string)) : M unit := fun w =>
  (tt, mkWorld (error w) (trainingDone w) (showAnalysis w) (currentRunId w) (pollingInterval w)
               (pollingAttempts w) (intervals w) (next_handle w) (f (listeners w)) (effects w)).
Definition emit (e : Effect) : M unit := fun w =>
  (tt, mkWorld (error w) (trainingDone w) (showAnalysis w) (currentRunId w) (pollingInterval w)
               (pollingAttempts w) (intervals w) (next_handle w) (listeners w)
               (effects w ++ [e])).

(** [setInterval(callback, period)]: a fresh handle. *)
Definition setInterval (callback : Poll) (period : nat) : M nat := fun w =>
  let h := next_handle w in
  (h, mkWorld (error w) (trainingDone w) (showAnalysis w) (currentRunId w) (pollingInterval w)
              (pollingAttempts w) (intervals w ++ [(h, callback)]) (S h) (listeners w)
              (effects w ++ [SetInterval h period])).

(** [clearInterval(handle)]; nothing happens on [null]. *)
Definition clearInterval (handle : option nat) : M unit := fun w =>
  match handle with
  | None => (tt, w)
  | Some h =>
      (tt, mkWorld (error w) (trainingDone w) (showAnalysis w) (currentRunId w)
                   (pollingInterval w) (pollingAttempts w)
                   (filter (fun p => negb (fst p =? h)) (intervals w))
                   (next_handle w) (listeners w) (effects w ++ [ClearInterval h]))
  end.

(** What one readiness query comes back with. *)
Inductive Reply : Type :=
| Thrown                 (* [fetch] or [res.json()] rejects, or reading [data.ready] throws *)
| NotOk                  (* a response with [res.ok] false *)
| Data (ready : bool).   (* a response whose [data.ready] is truthy or not *)

Definition checkAnalysisReady (runId : string) (reply : Reply) : M bool :=
  if negb (JsString.truthy runId) then
    setError (Some "No runId provided for analysis") ;; ret false
  else
    emit (FetchStatus runId) ;;
    match reply with
    | NotOk => setError (Some "Failed to check analysis readiness") ;; ret false
    | Data ready => ret ready
    | Thrown => setError (Some "Network error while checking analysis readiness") ;; ret false
    end.

Definition failure_message (runId : string) : string :=
  "Failed to load analysis visualizations after " ++ JsString.of_nat maxPollingAttempts
  ++ " attempts. Ensure /dissect/embeddings, /dissect/feature-importance, and /dissect/divergence-history endpoints are available for runId="
  ++ runId ++ ".".

(** [checkAndShow], defined inside [handleTrainingComplete]: [pollingAttempts]
    and [pollingInterval] are the constants of the render that made the
    enclosing callback, not the state. *)
Definition checkAndShow (runId : string) (seen : Render) (reply : Reply) : M bool :=
  isReady <- checkAnalysisReady runId reply ;;
  setPollingAttempts (fun prev => prev + 1) ;;
  if isReady then
    setShowAnalysis true ;;
    match seen_pollingInterval seen with
    | Some h => clearInterval (Some h) ;; setPollingInterval None
    | None => ret tt
    end ;;
    ret true
  else if maxPollingAttempts <=? seen_pollingAttempts seen + 1 then
    setError (Some (failure_message runId)) ;;
    setTrainingDone false ;;
    clearInterval (seen_pollingInterval seen) ;;
    setPollingInterval None ;;
    ret true
  else ret false.

(** The function given to [setInterval], for the interval of handle [interval]. *)
Definition interval_callback (interval : nat) (p : Poll) (reply : Reply) : M unit :=
  stop <- checkAndShow (poll_runId p) (poll_seen p) reply ;;
  if stop then clearInterval (Some interval) ;; setPollingInterval None
  else ret tt.

(** [handleTrainingComplete], as made by the render [seen]; [reply] answers
    its immediate check. *)
Definition handleTrainingComplete (seen : Render) (runId : string) (reply : Reply) : M unit :=
  if negb (JsString.truthy runId) then
    setError (Some "Training completed but no runId received")
  else
    setCurrentRunId (Some runId) ;;
    setTrainingDone true ;;
    setPollingAttempts (fun _ => 0) ;;
    setShowAnalysis false ;;
    setError None ;;
    match seen_pollingInterval seen with
    | Some h => clearInterval (Some h)
    | None => ret tt
    end ;;
    stop <- checkAndShow runId seen reply ;;
    if stop then ret tt
    else
      interval <- setInterval (mkPoll runId seen) 5000 ;;
      setPollingInterval (Some interval).

(** [currentRunId || ""] *)
Definition or_empty (r : option string) : string :=
  match r with Some s => s | None => EmptyString end.

Definition handleRetryPolling (seen : Render) (reply : Reply) : M unit :=
  setError None ;;
  setPollingAttempts (fun _ => 0) ;;
  handleTrainingComplete seen (or_empty (seen_currentRunId seen)) reply.

Definition handleForceShowAnalysis (seen : Render) : M unit :=
  setShowAnalysis true ;;
  match seen_pollingInterval seen with
  | Some h => clearInterval (Some h) ;; setPollingInterval None
  | None => ret tt
  end.

(** [JSON.stringify] of a string. *)
Definition hex_digit (n : nat) : ascii :=
  if n <? 10 then ascii_of_nat (48 + n) else ascii_of_nat (87 + n).

Definition escape (c : ascii) : string :=
  let n := nat_of_ascii c in
  if n =? 34 then String JsString.backslash (String JsString.dquote EmptyString)
  else if n =? 92 then String JsString.backslash (String JsString.backslash EmptyString)
  else if n =? 8 then String JsString.backslash "b"
  else if n =? 9 then String JsString.backslash "t"
  else if n =? 10 then String JsString.backslash "n"
  else if n =? 12 then String JsString.backslash "f"
  else if n =? 13 then String JsString.backslash "r"
  else if n <? 32 then
    String JsString.backslash
      ("u00" ++ String (hex_digit (n / 16)) (String (hex_digit (n mod 16)) EmptyString))
  else String c EmptyString.

Fixpoint escaped (s : string) : string :=
  match s with
  | EmptyString => EmptyString
  | String c rest => escape c ++ escaped rest
  end.

Definition stringify (s : string) : string :=
  String JsString.dquote (escaped s ++ String JsString.dquote EmptyString).

(** [JSON.stringify({ run_id: currentRunId, runId: currentRunId })] *)
Definition delete_run_body (runId : string) : string :=
  "{" ++ stringify "run_id" ++ ":" ++ stringify runId ++ ","
      ++ stringify "runId" ++ ":" ++ stringify runId ++ "}".

(** [handleUnload], as made by a render that sees [currentRunId]. *)
Definition handleUnload (currentRunId : option string) : M unit :=
  match currentRunId with
  | Some r => if JsString.truthy r then emit (SendBeacon (delete_run_body r)) else ret tt
  | None => ret tt
  end.

(** Whether two renders see the same [currentRunId]. *)
Definition same_runId (a b : option string) : bool :=
  match a, b with
  | Some x, Some y => String.eqb x y
  | None, None => true
  | _, _ => false
  end.

(** [removeEventListener]: the listener made by the render that saw [h]
    goes. *)
Fixpoint remove_listener (h : option string) (ls : list (option string)) : list (option string) :=
  match ls with
  | [] => []
  | l :: rest => if same_runId h l then rest else l :: remove_listener h rest
  end.

(** The effect [useEffect(..., [currentRunId])] after a render: when
    [currentRunId] differs from [before], what the previous render saw,
    the clean-up removes the old listener and the effect adds a new one. *)
Definition unload_effect (before : option string) : M unit := fun w =>
  if same_runId before (currentRunId w) then (tt, w)
  else setListeners (fun ls => (remove_listener before ls ++ [currentRunId w])%list) w.

(** The page after its first render and effects (the request for the list
    of patients, whose state the run does not read, is left out). *)
Definition mounted : World :=
  mkWorld None false false None None 0 [] 1 [None] [].

(** What can happen to the mounted page. *)
Inductive Event : Type :=
| TrainingComplete (seen : Render) (runId : string) (reply : Reply)
    (* [onComplete(runId)], through the callback a past render [seen] gave to FLVisualizer *)
| Timer (handle : nat) (reply : Reply)     (* the interval [handle] fires *)
| RetryClick (reply : Reply)               (* Retry Loading Visualizations *)
| ForceShowClick                           (* Force Show Analysis (Debug) *)
| BeforeUnload.                            (* the window's [beforeunload] *)

Fixpoint lookup (h : nat) (l : list (nat * Poll)) : option Poll :=
  match l with
  | [] => None
  | (k, p) :: rest => if k =? h then Some p else lookup h rest
  end.

Fixpoint dispatch (ls : list (option string)) : M unit :=
  match ls with
  | [] => ret tt
  | l :: rest => handleUnload l ;; dispatch rest
  end.

(** The retry button is drawn when the error is the polling failure and a
    run is known; the debug button while the spinner shows. *)
Definition retry_shown (w : World) : bool :=
  match error w, currentRunId w with
  | Some e, Some r => JsString.includes "Failed to load analysis visualizations" e && JsString.truthy r
  | _, _ => false
  end.

Definition force_shown (w : World) : bool := trainingDone w && negb (showAnalysis w).

Definition handle (e : Event) : M unit := fun w =>
  match e with
  | TrainingComplete seen runId reply => handleTrainingComplete seen runId reply w
  | Timer h reply =>
      match lookup h (intervals w) with
      | Some p => interval_callback h p reply w
      | None => (tt, w)
      end
  | RetryClick reply =>
      if retry_shown w then handleRetryPolling (render w) reply w else (tt, w)
  | ForceShowClick =>
      if force_shown w then handleForceShowAnalysis (render w) w else (tt, w)
  | BeforeUnload => dispatch (listeners w) w
  end.

(** One event, then the render it causes and that render's effects. *)
Definition step (w : World) (e : Event) : World :=
  exec (handle e ;; unload_effect (currentRunId w)) w.

Definition run (w : World) (es : list Event) : World := fold_left step es w.

(** Unmounting runs the two clean-ups: the one of the first effect, made
    by the first render, sees [pollingInterval] as [null]; the other
    removes the [beforeunload] listener of the last render. *)
Definition unmount : M unit := fun w =>
  (match seen_pollingInterval (render mounted) with
   | Some h => clearInterval (Some h)
   | None => ret tt
   end ;;
   setListeners (remove_listener (currentRunId w))) w.

(** The deletion requests, the readiness queries and the intervals armed
    among some effects. *)
Definition sent (es : list Effect) : list string :=
  flat_map (fun e => match e with SendBeacon b => [b] | _ => [] end) es.

Definition fetched (es : list Effect) : list string :=
  flat_map (fun e => match e with FetchStatus r => [r] | _ => [] end) es.

Definition armed_by (es : list Effect) : list nat :=
  flat_map (fun e => match e with SetInterval h _ => [h] | _ => [] end) es.

(** The bodies the listeners [ls] send when [beforeunload] fires. *)
Definition deletions (ls : list (option string)) : list string :=
  flat_map (fun l => match l with
                     | Some r => if JsString.truthy r then [delete_run_body r] else []
                     | None => []
                     end) ls.

Definition beacons (w : World) : list string := sent (effects w).
Definition queries (w : World) : list string := fetched (effects w).
Definition armed (w : World) : list nat := armed_by (effects w).

(** What holds of the mounted page whatever happened to it: exactly one
    [beforeunload] listener is registered, made by the last render, and
    a runId that is set is not empty. *)
Definition settled (w : World) : Prop :=
  listeners w = [currentRunId w]
  /\ forall r, currentRunId w = Some r -> JsString.truthy r = true.

End HomePage.

(** ** Characters of a text *)

Module Text.

Definition is_digit (c : ascii) : bool :=
  let n := nat_of_ascii c in (48 <=? n) && (n <=? 57).

Fixpoint all_chars (p : ascii -> bool) (s : string) : bool :=
  match s with
  | EmptyString => true
  | String c rest => p c && all_chars p rest
  end.

End Text.

(** ** What a round needs *)

Module Round.
Import Json.

(** The key of the [i]-th client under [prefix]: [`${prefix}${i}`]. *)
Definition key (prefix : string) (i : nat) : string := prefix ++ JsString.of_nat i.

(** Whether an object has the field [name] with a value other than [null]. *)
Definition present (fields : list (string * json)) (name : string) : bool :=
  match assoc name fields with
  | Some JNull | None => false
  | Some _ => true
  end.

(** What the page shows of the state of the visualizer: the chart, the
    error, the run identifier and the progress flag. *)
Definition same_view (a b : FLVisualizer.State) : Prop :=
  FLVisualizer.globalLosses a = FLVisualizer.globalLosses b
  /\ FLVisualizer.training a = FLVisualizer.training b
  /\ FLVisualizer.error a = FLVisualizer.error b
  /\ FLVisualizer.capturedRunId a = FLVisualizer.capturedRunId b.

(** A line of the stream that tells the run and nothing else, and
    [JSON.parse] on it: it throws on any other text. *)
Definition status_text : string :=
  "{" ++ JsString.quoted "run_id" ++ ":" ++ JsString.quoted "abc" ++ "}".

Definition parse_status (s : string) : option json :=
  if String.eqb s status_text then Some (JObj [("run_id", JStr "abc")]) else None.

End Round.

(** ** The session screen, continued: the prediction panel *)

Module Prediction.
Import HomePage.

(** Every interval polls a run with a name, and so did every query. *)
Definition named (w : World) : Prop :=
  Forall (fun hp => JsString.truthy (poll_runId (snd hp)) = true) (intervals w)
  /\ Forall (fun r => JsString.truthy r = true) (queries w)
  /\ forall r, currentRunId w = Some r -> JsString.truthy r = true.

(** A character [JSON.stringify] leaves as it is. *)
Definition plain (c : ascii) : bool :=
  let n := nat_of_ascii c in
  (32 <=? n) && negb (n =? 34) && negb (n =? 92).

(** The value of a hexadecimal digit in lower case. *)
Definition hex_value (c : ascii) : nat :=
  let n := nat_of_ascii c in
  if n <? 58 then n - 48 else n - 87.

(** Reads one escaped character back from the front of a text. *)
Definition unescape_head (s : string) : option (ascii * string) :=
  match s with
  | EmptyString => None
  | String c rest =>
      if negb (nat_of_ascii c =? 92) then Some (c, rest)
      else
        match rest with
        | EmptyString => None
        | String k rest' =>
            let n := nat_of_ascii k in
            if n =? 34 then Some (ascii_of_nat 34, rest')
            else if n =? 92 then Some (ascii_of_nat 92, rest')
            else if n =? 98 then Some (ascii_of_nat 8, rest')
            else if n =? 116 then Some (ascii_of_nat 9, rest')
            else if n =? 110 then Some (ascii_of_nat 10, rest')
            else if n =? 102 then Some (ascii_of_nat 12, rest')
            else if n =? 114 then Some (ascii_of_nat 13, rest')
            else
              match rest' with
              | String _ (String _ (String h (String l rest''))) =>
                  Some (ascii_of_nat (16 * hex_value h + hex_value l), rest'')
              | _ => None
              end
        end
  end.

(** The part of the state of [HomePage] that the prediction panel adds to
    the world of the poll, and the requests it sent to [/predict] (each the
    [patient_id] of its body, [None] for [undefined]). *)
Record Screen : Type := mkScreen {
  world : World;
  patients : list string;
  selectedIndex : option nat;
  result : option Json.json;
  loading : bool;
  predict_requests : list (option string)
}.

Definition in_world (f : M unit) (s : Screen) : Screen :=
  mkScreen (exec f (world s)) (patients s) (selectedIndex s) (result s) (loading s)
           (predict_requests s).
Definition setPatients (p : list string) (s : Screen) : Screen :=
  mkScreen (world s) p (selectedIndex s) (result s) (loading s) (predict_requests s).
Definition setSelectedIndex (i : option nat) (s : Screen) : Screen :=
  mkScreen (world s) (patients s) i (result s) (loading s) (predict_requests s).
Definition setResult (r : option Json.json) (s : Screen) : Screen :=
  mkScreen (world s) (patients s) (selectedIndex s) r (loading s) (predict_requests s).
Definition setLoading (b : bool) (s : Screen) : Screen :=
  mkScreen (world s) (patients s) (selectedIndex s) (result s) b (predict_requests s).
Definition fetch_predict (patient_id : option string) (s : Screen) : Screen :=
  mkScreen (world s) (patients s) (selectedIndex s) (result s) (loading s)
           (predict_requests s ++ [patient_id]).

(** [JSON.stringify({ patient_id })]: a property that is [undefined] is
    left out. *)
Definition predict_body (patient_id : option string) : string :=
  match patient_id with
  | Some id => "{" ++ stringify "patient_id" ++ ":" ++ stringify id ++ "}"
  | None => "{}"
  end.

(** What the request to [/predict] comes back with. *)
Inductive Answer : Type :=
| Failed                      (* [fetch] or [res.json()] rejects *)
| Status (code : nat)         (* a response with [res.ok] false *)
| Predicted (data : Json.json).

(** [handlePredict] *)
Definition handlePredict (answer : Answer) (s : Screen) : Screen :=
  match selectedIndex s with
  | None => s
  | Some index =>
      let patient_id := nth_error (patients s) index in
      let s := setLoading true s in
      let s := in_world (setError None) s in
      let s := setResult None s in
      let s := fetch_predict patient_id s in
      let s :=
        match answer with
        | Predicted data => setResult (Some data) s
        | Failed | Status _ =>
            in_world (setError (Some "Failed to fetch prediction or explanation.")) s
        end in
      setLoading false s
  end.

(** [patientOptions]: the value and the label of each option. *)
Definition patientOptions (patients : list string) : list (nat * string) :=
  map (fun index => (index, "Patient #" ++ JsString.of_nat (index + 1)))
      (seq 0 (length patients)).

(** The screen once mounted, with the list of patients loaded. *)
Definition loaded (patients : list string) : Screen :=
  mkScreen mounted patients None None false [].

End Prediction.

(** ** The charts of the visualizer: frontend/components/FLVisualizer.tsx *)

Module Chart.
Import Json.

(** [RoundData] as the component declares it: every value is a number.
    A key that is missing reads as [undefined] ([None]). *)
Definition Losses := list (string * number).

(** A round of the state read at that type: the keys whose value is
    [undefined] read as missing ones do; a value that is no number has no
    place in it. *)
Fixpoint of_round (round : FLVisualizer.RoundData) : option Losses :=
  match round with
  | [] => Some []
  | (k, None) :: rest => of_round rest
  | (k, Some (JNum n)) :: rest =>
      match of_round rest with
      | Some losses => Some ((k, n) :: losses)
      | None => None
      end
  | (k, Some _) :: rest => None
  end.

Fixpoint read (key : string) (data : Losses) : option number :=
  match data with
  | [] => None
  | (k, v) :: rest => if String.eqb k key then Some v else read key rest
  end.

(** [a > b] on numbers. *)
Definition gt (a b : number) : bool :=
  match a, b with
  | Finite x, Finite y => negb (Qle_bool x y)
  | Finite _, Infinity negative => negative
  | Infinity negative, Finite _ => negb negative
  | Infinity na, Infinity nb => negb na && nb
  end.

(** [a <= b], as [!(a > b)]: there is no NaN among these numbers. *)
Definition le (a b : number) : Prop := gt a b = false.

(** [if (v > max) max = v], where [v] may be [undefined]. *)
Definition raise (v : option number) (max : number) : number :=
  match v with
  | Some n => if gt n max then n else max
  | None => max
  end.

(** [if (v && v > max) max = v] *)
Definition raise_truthy (v : option number) (max : number) : number :=
  match v with
  | Some n => if number_truthy n && gt n max then n else max
  | None => max
  end.

(** The body of [globalLosses.forEach] in [getMaxLoss]. *)
Definition round_max (numClients : nat) (max : number) (data : Losses) : number :=
  fold_left
    (fun max i =>
       raise_truthy (read (Round.key "client_" i) data)
         (raise_truthy (read (Round.key "client_train_" i) data) max))
    (seq 1 numClients)
    (raise (read "global_loss" data) max).

(** [Math.max(1, max)] *)
Definition at_least_one (max : number) : number :=
  if gt max (Finite 1) then max else Finite 1.

(** [Math.ceil] *)
Definition ceil (n : number) : number :=
  match n with
  | Finite q => Finite (inject_Z (Qround.Qceiling q))
  | Infinity negative => Infinity negative
  end.

(** [getMaxLoss]: the domain of the loss axis. *)
Definition getMaxLoss (numClients : nat) (globalLosses : list Losses) : number * number :=
  let max := fold_left (round_max numClients) globalLosses (Finite 0) in
  (Finite 0, ceil (at_least_one max)).

(** The losses the charts draw for the clients 1 to [numClients]: the
    global loss and the two losses of each client, where they are there. *)
Definition plotted (numClients : nat) (data : Losses) : list number :=
  let some v := match v with Some n => [n] | None => [] end in
  (some (read "global_loss" data)
   ++ flat_map (fun i => some (read (Round.key "client_train_" i) data)
                         ++ some (read (Round.key "client_" i) data))
               (seq 1 numClients))%list.

(** The keys of the lines of the client charts:
    [[...Array(numClients)].map((_, i) => `client_${i + 1}`)]. *)
Definition line_keys (prefix : string) (numClients : nat) : list string :=
  map (fun i => Round.key prefix (i + 1)) (seq 0 numClients).

(** The data keys of the lines the three charts draw. *)
Definition drawn_keys (numClients : nat) : list string :=
  ("global_loss" :: line_keys "client_" numClients ++ line_keys "client_train_" numClients)%list.

End Chart.

(** ** The divergence viewer: its round selector and its playback
    (the second document of frontend/app/page.tsx) *)

Module DivergenceViewer.

(** The state of the component that the playback touches, once
    [divergenceHistory] is loaded, with what it does to the timers. *)
Record State : Type := mkState {
  selectedRoundIndex : Z;
  isPlaying : bool;
  playIntervalRef : option nat;      (* playIntervalRef.current *)
  next_interval : nat;               (* the handle [setInterval] returns next *)
  cleared : list nat                 (* the handles given to [clearInterval] *)
}.

Definition initial : State := mkState (-1) false None 1 [].

Definition setSelectedRoundIndex (i : Z) (s : State) : State :=
  mkState i (isPlaying s) (playIntervalRef s) (next_interval s) (cleared s).

Definition setIsPlaying (b : bool) (s : State) : State :=
  mkState (selectedRoundIndex s) b (playIntervalRef s) (next_interval s) (cleared s).

(** [if (playIntervalRef.current) { clearInterval(...); playIntervalRef.current = null; }] *)
Definition clearPlayInterval (s : State) : State :=
  match playIntervalRef s with
  | Some h => mkState (selectedRoundIndex s) (isPlaying s) None (next_interval s)
                (cleared s ++ [h])
  | None => s
  end.

(** The effect on [[isPlaying, divergenceHistory]], with the history there. *)
Definition playEffect (s : State) : State :=
  let s := clearPlayInterval s in
  if isPlaying s
  then mkState (selectedRoundIndex s) true (Some (next_interval s)) (S (next_interval s))
         (cleared s)
  else s.

(** The render after an update: the effect runs when [isPlaying] is not
    what it was ([divergenceHistory] stays the same object). *)
Definition rerender (was_playing : bool) (s : State) : State :=
  if Bool.eqb was_playing (isPlaying s) then s else playEffect s.

(** The updater the interval hands to [setSelectedRoundIndex], with the
    [setIsPlaying(false)] it makes at the end of the history. *)
Definition advance (length : nat) (s : State) : State :=
  let next := (selectedRoundIndex s + 1)%Z in
  if (Z.of_nat length <=? next)%Z then setIsPlaying false s
  else setSelectedRoundIndex next s.

(** [onClick] of the Play / Pause button. *)
Definition onPlayClick (length : nat) (s : State) : State :=
  if isPlaying s then setIsPlaying false s
  else
    setIsPlaying true
      (if (Z.of_nat length - 1 <=? selectedRoundIndex s)%Z
       then setSelectedRoundIndex 0 s else s).

(** What happens to the component: a click on Play / Pause, the interval
    of handle [h] firing, the item of index [i] picked in the selector
    (its value is [String(i)], which [parseInt] reads back as [i]). *)
Inductive Event : Type :=
| PlayClick
| Tick (h : nat)
| Select (i : nat).

Definition step (length : nat) (s : State) (e : Event) : State :=
  match e with
  | PlayClick => rerender (isPlaying s) (onPlayClick length s)
  | Tick h =>
      match playIntervalRef s with
      | Some live => if h =? live then rerender (isPlaying s) (advance length s) else s
      | None => s
      end
  | Select i => setSelectedRoundIndex (Z.of_nat i) s
  end.

Definition run (length : nat) (s : State) (es : list Event) : State :=
  fold_left (step length) es s.

(** A second of playback: the interval fires, if there is one. *)
Definition second (length : nat) (s : State) : State :=
  match playIntervalRef s with
  | Some h => step length s (Tick h)
  | None => s
  end.

(** The round the component renders. *)
Definition latestIndex (length : nat) : Z := Z.of_nat length - 1.

Definition roundIndex (length : nat) (s : State) : Z :=
  if (0 <=? selectedRoundIndex s)%Z then selectedRoundIndex s else latestIndex length.

(** [divergenceHistory[roundIndex]]: [undefined] out of the array. *)
Definition roundData {A : Type} (divergenceHistory : list A) (s : State) : option A :=
  let i := roundIndex (length divergenceHistory) s in
  if (i <? 0)%Z then None else nth_error divergenceHistory (Z.to_nat i).

(** The items of the selector are the rounds of the history. *)
Definition offered (length : nat) (e : Event) : Prop :=
  match e with
  | Select i => i < length
  | _ => True
  end.

(** The index stays between -1 (the latest round) and the last round. *)
Definition in_range (length : nat) (s : State) : Prop :=
  (-1 <= selectedRoundIndex s < Z.of_nat length)%Z.

(** An interval is alive exactly while the component plays. *)
Definition synced (s : State) : Prop :=
  playIntervalRef s <> None <-> isPlaying s = true.

(** Where playback starts from: the first round when the last one is
    selected, the selected round otherwise. *)
Definition start (length : nat) (s : State) : Z :=
  if (Z.of_nat length - 1 <=? selectedRoundIndex s)%Z then 0%Z else selectedRoundIndex s.

End DivergenceViewer.

(** ** The feature importance viewer: the second document of
    frontend/components/PatientEDAPlot.tsx *)

Module FeatureImportanceViewer.

(** An item of the model selector. *)
Record Model : Type := mkModel {
  value : string;
  label : string
}.

(** [numClients] is [null] until the metadata of the run are there; 0 is
    falsy as [null] is. *)
Definition availableModels (numClients : option nat) : list Model :=
  mkModel "global" "Global Model"
  :: match numClients with
     | Some (S _ as n) =>
         map (fun i => mkModel (Round.key "client_" (i + 1)) (Round.key "Client " (i + 1)))
             (seq 0 n)
     | _ => []
     end.

(** [`${key.split('_')[1]}`]: the text [undefined] where the key has no
    underscore. *)
Definition client_number (modelKey : string) : string :=
  match nth_error (JsString.split "_" modelKey) 1 with
  | Some piece => piece
  | None => "undefined"
  end.

(** The model named in the title of the chart. *)
Definition model_title (selectedModel : string) : string :=
  if String.eqb selectedModel "global" then "Global Model"
  else "Client " ++ client_number selectedModel ++ " Model".

Definition formatFeatureNameTick (tickItem : string) : string :=
  if 15 <? String.length tickItem then substring 0 12 tickItem ++ "..." else tickItem.

End FeatureImportanceViewer.

(** ** The embedding viewer: frontend/components/UMAPViewer.tsx *)

Module UMAPViewer.
Import Json.

Record EmbeddingPoint : Type := mkPoint {
  x : number;
  y : number;
  label : string;
  patient_id : string
}.

(** [EmbeddingsDataMap], as declared: the keys in the order of
    [Object.keys], each with its points. *)
Definition EmbeddingsDataMap := list (string * list EmbeddingPoint).

Fixpoint lookup (key : string) (data : EmbeddingsDataMap) : option (list EmbeddingPoint) :=
  match data with
  | [] => None
  | (k, points) :: rest => if String.eqb k key then Some points else lookup key rest
  end.

Inductive ColorMode : Type := class | source.

(** *** Loading the embeddings *)

Record State : Type := mkState {
  allEmbeddingsData : json;
  selectedModel : string;
  loading : bool;
  error : option string
}.

Definition initial : State := mkState (JObj []) "global" false None.

Definition setAllEmbeddingsData (data : json) (s : State) : State :=
  mkState data (selectedModel s) (loading s) (error s).
Definition setSelectedModel (m : string) (s : State) : State :=
  mkState (allEmbeddingsData s) m (loading s) (error s).
Definition setLoading (b : bool) (s : State) : State :=
  mkState (allEmbeddingsData s) (selectedModel s) b (error s).
Definition setError (e : option string) (s : State) : State :=
  mkState (allEmbeddingsData s) (selectedModel s) (loading s) e.

(** What the request comes back with: [fetch] rejects, or it resolves
    with a status and [response.json()] rejects or gives a value. *)
Inductive Reply : Type :=
| Rejected (message : string)
| Resolved (status : nat) (parsed : string + json).

Definition ok (status : nat) : bool := (200 <=? status) && (status <=? 299).

(** [typeof v === "object"] *)
Definition is_object (v : json) : bool :=
  match v with
  | JNull | JArr _ | JObj _ => true
  | _ => false
  end.

(** [v.name] on a value that is not [null], for a name that is no
    property of strings and arrays. *)
Definition field (v : json) (name : string) : value :=
  match get v name with
  | Some found => found
  | None => None
  end.

(** [Object.keys(v)] on a value that is not [null]. *)
Definition keys (v : json) : list string :=
  match entries (Some v) with
  | Some fields => map fst fields
  | None => []
  end.

(** The [catch] of [fetchEmbeddings]. *)
Definition failed (message : string) (s : State) : State :=
  setError (Some ("Failed to load embeddings: " ++ message)) s.

(** What follows [await response.json()] in the [try]. *)
Definition accept (rawResponse : json) (s : State) : State :=
  if negb (truthy rawResponse) || negb (is_object rawResponse)
     || negb (value_truthy (field rawResponse "embeddings"))
  then failed "Invalid response: expected an object with 'embeddings' property" s
  else
    match field rawResponse "embeddings" with
    | None => s
    | Some data =>
        let s := setAllEmbeddingsData data s in
        if value_truthy (field data "global") then setSelectedModel "global" s
        else
          match keys data with
          | first :: _ => setSelectedModel first s
          | [] => setError (Some "No UMAP data available. Ensure models are trained and saved.") s
          end
    end.

Definition fetchEmbeddings (reply : Reply) (s : State) : State :=
  let s := setError None (setLoading true s) in
  let s :=
    match reply with
    | Rejected message => failed message s
    | Resolved status parsed =>
        if negb (ok status) then failed ("HTTP error! status: " ++ JsString.of_nat status) s
        else
          match parsed with
          | inl message => failed message s
          | inr rawResponse => accept rawResponse s
          end
    end in
  setLoading false s.

(** The effect on [[runId]]. *)
Definition onRunId (runId : option string) (reply : Reply) (s : State) : State :=
  match runId with
  | Some (String _ _) => fetchEmbeddings reply s
  | _ => s
  end.

(** *** The traces of the plot *)

Record Trace : Type := mkTrace {
  trace_x : list number;
  trace_y : list number;
  mode : string;
  type : string;
  name : string;
  text : list string;
  hoverinfo : string;
  marker_size : nat;
  marker_opacity : Q;
  marker_color : option string
}.

Definition colorPalette : list string :=
  ["#1f77b4"; "#ff7f0e"; "#2ca02c"; "#d62728"; "#9467bd"; "#8c564b"; "#e377c2";
   "#7f7f7f"; "#bcbd22"; "#17becf"; "#aec7e8"; "#ffbb78"; "#98df8a"; "#ff9896";
   "#c5b0d5"; "#c49c94"; "#f7b6d2"; "#c7c7c7"; "#dbdb8d"; "#9edae5"].

(** [`Patient: ${p.patient_id}<br>Status: ${p.label}`] *)
Definition hover (p : EmbeddingPoint) : string :=
  "Patient: " ++ patient_id p ++ "<br>Status: " ++ label p.

Definition trace (idx : nat) (name : string) (group : list EmbeddingPoint) : Trace :=
  mkTrace (map x group) (map y group) "markers" "scattergl" name (map hover group) "text"
    8 (8 # 10) (nth_error colorPalette (idx mod length colorPalette)).

(** [Set.prototype.add], and [Array.from(new Set(l))]: the members in
    the order they first come in [l]. *)
Definition Set_add (members : list string) (v : string) : list string :=
  if existsb (String.eqb v) members then members else (members ++ [v])%list.

Definition Set_of (l : list string) : list string := fold_left Set_add l [].

(** [l.forEach((a, idx) => traces.push(f idx a))] *)
Fixpoint pushed {A B : Type} (f : nat -> A -> B) (idx : nat) (l : list A) : list B :=
  match l with
  | [] => []
  | a :: rest => f idx a :: pushed f (S idx) rest
  end.

Definition has_label (l : string) (p : EmbeddingPoint) : bool := String.eqb (label p) l.

Definition displayName (modelKey : string) : string :=
  if String.eqb modelKey "global" then "Global Model"
  else "Client " ++ FeatureImportanceViewer.client_number modelKey.

Definition generatePlotlyTraces
    (colorMode : ColorMode) (allEmbeddingsData : EmbeddingsDataMap) (selectedModel : string)
    : list Trace :=
  match colorMode with
  | class =>
      let points := match lookup selectedModel allEmbeddingsData with
                    | Some points => points
                    | None => []
                    end in
      let uniqueLabels := Set_of (map label points) in
      pushed (fun idx l => trace idx l (filter (has_label l) points)) 0 uniqueLabels
  | source =>
      pushed (fun idx entry => trace idx (displayName (fst entry)) (snd entry)) 0
        allEmbeddingsData
  end.

(** A marker of the plot: where it is and what it says when hovered. *)
Definition marker (p : EmbeddingPoint) : number * number * string := (x p, y p, hover p).

Definition markers (t : Trace) : list (number * number * string) :=
  combine (combine (trace_x t) (trace_y t)) (text t).

End UMAPViewer.

(** * Properties *)

(** ** Splitting text into lines *)

Module JsStringFacts.
Import JsString.

Lemma append_nil_r (s : string) : s ++ EmptyString = s.
Proof. induction s as [|c s IH]; simpl; [reflexivity | now rewrite IH]. Qed.

Lemma append_assoc (a b c : string) : (a ++ b) ++ c = a ++ (b ++ c).
Proof. induction a as [|x a IH]; simpl; [reflexivity | now rewrite IH]. Qed.

Lemma split_not_nil (sep : ascii) (s : string) : split sep s <> [].
Proof.
  destruct s as [|c s]; simpl; [discriminate|].
  destruct (Ascii.eqb c sep); [discriminate|].
  destruct (split sep s); discriminate.
Qed.

(** Splitting a text that continues: the pieces before the last
    separator of [a] stay, the last piece of [a] grows by [b]. *)
Lemma split_app (sep : ascii) (a b : string) :
  split sep (a ++ b)
  = (removelast (split sep a) ++ split sep (last (split sep a) EmptyString ++ b))%list.
Proof.
  induction a as [|c a IH]; [reflexivity|].
  cbn [append split].
  destruct (Ascii.eqb c sep) eqn:Hc.
  - rewrite IH.
    pose proof (split_not_nil sep a) as Hne.
    destruct (split sep a) as [|p ps] eqn:Hs; [contradiction|].
    reflexivity.
  - rewrite IH.
    pose proof (split_not_nil sep a) as Hne.
    destruct (split sep a) as [|p ps] eqn:Hs; [contradiction|].
    destruct ps as [|q qs].
    + cbn [removelast last app append split]. rewrite Hc. reflexivity.
    + reflexivity.
Qed.

Lemma pop_last {A : Type} (l : list A) (d : A) :
  l <> [] -> pop l = (Some (last l d), removelast l).
Proof.
  intros Hne. unfold pop.
  rewrite (app_removelast_last d Hne) at 1.
  rewrite rev_unit, rev_involutive. reflexivity.
Qed.

Lemma complete_lines_app (a b : string) :
  complete_lines (a ++ b) = (complete_lines a ++ complete_lines (residual a ++ b))%list.
Proof.
  unfold complete_lines, residual. rewrite split_app.
  apply removelast_app, split_not_nil.
Qed.

Lemma residual_app (a b : string) : residual (a ++ b) = residual (residual a ++ b).
Proof.
  unfold residual. rewrite split_app.
  pose proof (split_not_nil newline (last (split newline a) EmptyString ++ b)) as Hne.
  rewrite (app_removelast_last EmptyString Hne) at 1.
  rewrite app_assoc. apply last_last.
Qed.

Lemma or_else_empty (s : string) :
  match or_else (Some s) (Some EmptyString) with Some b => b | None => EmptyString end = s.
Proof. destruct s; reflexivity. Qed.

End JsStringFacts.

(** ** Chunks of bytes *)

Module WireFacts.
Import Wire.

(** C2, on the code.  The handler calls [decoder.decode(value)] without
    [{ stream: true }], so a chunk boundary inside a character breaks the
    character.  The bytes of a round whose [run_id] is U+00E9, read as one
    chunk, hand [JSON.parse] the line of that round; the same bytes cut
    between the two bytes of U+00E9 hand it a line with two U+FFFD in its
    place: the round parsed is not the same. *)
Theorem chunk_cut_inside_character :
  let wire := Sample.wire_round in
  let cut := length (list_byte_of_string Sample.wire_head) + 1 in
  let values := [firstn cut wire; skipn cut wire] in
  (List.concat values = wire
   /\ last (firstn cut wire) Byte.x00 = Byte.xc3
   /\ hd Byte.x00 (skipn cut wire) = Byte.xa9)
  /\ lines_to_parse [wire] = [of_string Sample.round1_accent]
  /\ lines_to_parse values
     = [(of_string Sample.wire_head ++ [replacement; replacement]
         ++ of_string Sample.wire_tail)%list]
  /\ lines_to_parse values <> lines_to_parse [wire].
Proof. vm_compute. repeat split. discriminate. Qed.

(** *** Chunks of characters below 128 *)

Lemma byte_unit (c : ascii) : Z.of_N (Byte.to_N (byte_of_ascii c)) = unit c.
Proof.
  unfold unit. f_equal. apply Byte.to_of_N. symmetry. apply byte_of_ascii_via_N.
Qed.

Lemma unit_eqb (c d : ascii) : (unit c =? unit d)%Z = Ascii.eqb c d.
Proof.
  destruct (Ascii.eqb_spec c d) as [->|Hne]; [apply Z.eqb_refl|].
  apply Z.eqb_neq. intros H. apply Hne. unfold unit in H. apply Znat.N2Z.inj in H.
  rewrite <- (ascii_N_embedding c), <- (ascii_N_embedding d). now rewrite H.
Qed.

Lemma of_string_app (a b : string) : of_string (a ++ b) = (of_string a ++ of_string b)%list.
Proof. induction a as [|c a IH]; cbn; [reflexivity|]. unfold of_string in IH. now rewrite IH. Qed.

Lemma of_string_cons (c : ascii) (s : string) : of_string (String c s) = unit c :: of_string s.
Proof. reflexivity. Qed.

(** On characters below 128 the decoder gives back the characters. *)
Lemma scalars_ascii (s : string) :
  is_ascii s = true ->
  scalars fresh (map (fun b => Z.of_N (Byte.to_N b)) (list_byte_of_string s)) = of_string s.
Proof.
  unfold list_byte_of_string, is_ascii. rewrite map_map.
  induction s as [|c s IH]; [reflexivity|].
  cbn [list_ascii_of_string map forallb scalars]. intros H.
  apply andb_prop in H as [Hc Hs]. rewrite byte_unit.
  unfold handler. cbn [bytes_needed fresh Z.eqb]. unfold lead.
  assert (Hsmall : (unit c <=? 127)%Z = true) by (apply Z.leb_le; apply Z.ltb_lt in Hc; lia).
  rewrite Hsmall. cbn [app]. rewrite (IH Hs). reflexivity.
Qed.

Lemma unit_range (c : ascii) : (0 <= unit c < 256)%Z.
Proof.
  unfold unit. pose proof (N_ascii_bounded c) as H. split; [apply Znat.N2Z.is_nonneg|].
  change 256%Z with (Z.of_N (BinNat.N.pos 256)). now apply Znat.N2Z.inj_lt.
Qed.

Lemma units_of_string (s : string) : flat_map units (of_string s) = of_string s.
Proof.
  induction s as [|c s IH]; [reflexivity|].
  rewrite of_string_cons. cbn [flat_map]. rewrite IH. unfold units.
  pose proof (unit_range c) as Hc.
  destruct (Z.ltb_spec (unit c) 65536); [reflexivity | lia].
Qed.

Lemma strip_mark_of_string (s : string) : strip_mark (of_string s) = of_string s.
Proof.
  destruct s as [|c s]; [reflexivity|]. rewrite of_string_cons. unfold strip_mark.
  pose proof (unit_range c) as Hc.
  destruct (Z.eqb_spec (unit c) byte_order_mark) as [He|]; [|reflexivity].
  unfold byte_order_mark in He. lia.
Qed.

Lemma decode_ascii (s : string) :
  is_ascii s = true -> TextDecoder_decode (list_byte_of_string s) = of_string s.
Proof.
  intros H. unfold TextDecoder_decode.
  now rewrite (scalars_ascii s H), strip_mark_of_string, units_of_string.
Qed.

(** The line loop on code units does to the units of a text of the
    handler what the loop of the handler does to the text. *)
Lemma split_of_string (s : string) :
  split newline (of_string s) = map of_string (JsString.split JsString.newline s).
Proof.
  induction s as [|c s IH]; [reflexivity|].
  rewrite of_string_cons. cbn [split JsString.split].
  change newline with (unit JsString.newline). rewrite unit_eqb.
  change (unit JsString.newline) with newline. rewrite IH.
  destruct (Ascii.eqb c JsString.newline); [reflexivity|].
  pose proof (JsStringFacts.split_not_nil JsString.newline s) as Hne.
  destruct (JsString.split JsString.newline s) as [|p ps]; [contradiction | reflexivity].
Qed.

Lemma white_space_unit (c : ascii) : is_white_space (unit c) = JsString.is_white_space c.
Proof. destruct c as [[] [] [] [] [] [] [] []]; reflexivity. Qed.

Lemma trim_start_of_string (s : string) :
  trim_start (of_string s) = of_string (JsString.trim_start s).
Proof.
  induction s as [|c s IH]; [reflexivity|].
  rewrite of_string_cons. cbn [trim_start JsString.trim_start].
  rewrite white_space_unit. destruct (JsString.is_white_space c); [exact IH | reflexivity].
Qed.

Lemma trim_end_of_string (s : string) :
  trim_end (of_string s) = of_string (JsString.trim_end s).
Proof.
  induction s as [|c s IH]; [reflexivity|].
  rewrite of_string_cons. cbn [trim_end JsString.trim_end].
  rewrite IH, white_space_unit.
  destruct (JsString.trim_end s) as [|d kept]; [|reflexivity].
  cbn. destruct (JsString.is_white_space c); reflexivity.
Qed.

Lemma truthy_of_string (s : string) : truthy (of_string s) = JsString.truthy s.
Proof. destruct s; reflexivity. Qed.

Lemma not_blank_of_string (s : string) :
  truthy (trim (of_string s)) = JsString.truthy (JsString.trim s).
Proof.
  unfold trim, JsString.trim.
  now rewrite trim_start_of_string, trim_end_of_string, truthy_of_string.
Qed.

Lemma filter_map_of_string (lines : list string) :
  filter (fun line => truthy (trim line)) (map of_string lines)
  = map of_string (filter (fun line => JsString.truthy (JsString.trim line)) lines).
Proof.
  induction lines as [|l lines IH]; [reflexivity|].
  cbn [map filter]. rewrite not_blank_of_string, IH.
  destruct (JsString.truthy (JsString.trim l)); reflexivity.
Qed.

Lemma chunk_step_of_string (b v : string) (p : list text) :
  is_ascii v = true ->
  chunk_step (mkLoop (of_string b) p) (list_byte_of_string v)
  = mkLoop (of_string (JsString.residual (b ++ v)))
      (p ++ map of_string
              (filter (fun line => JsString.truthy (JsString.trim line))
                 (JsString.complete_lines (b ++ v))))%list.
Proof.
  intros Hv. unfold chunk_step. cbn [buffer parsed].
  rewrite (decode_ascii v Hv), <- of_string_app, split_of_string.
  pose proof (JsStringFacts.split_not_nil JsString.newline (b ++ v)) as Hne.
  assert (Hne' : map of_string (JsString.split JsString.newline (b ++ v)) <> [])
    by (destruct (JsString.split JsString.newline (b ++ v)); [contradiction | discriminate]).
  rewrite (JsStringFacts.pop_last (A := text) _ [] Hne').
  unfold JsString.complete_lines, JsString.residual.
  set (pieces := JsString.split JsString.newline (b ++ v)) in *.
  assert (Hlast : last (map of_string pieces) [] = of_string (last pieces EmptyString)).
  { clearbody pieces. induction pieces as [|x [|y rest] IH]; [contradiction | reflexivity|].
    change (last (map of_string (x :: y :: rest)) [])
      with (last (map of_string (y :: rest)) []).
    change (last (x :: y :: rest) EmptyString) with (last (y :: rest) EmptyString).
    apply IH; discriminate. }
  assert (Hfront : removelast (map of_string pieces) = map of_string (removelast pieces)).
  { clearbody pieces. clear. induction pieces as [|x [|y rest] IH]; [reflexivity | reflexivity|].
    change (removelast (map of_string (x :: y :: rest)))
      with (of_string x :: removelast (map of_string (y :: rest))).
    change (removelast (x :: y :: rest)) with (x :: removelast (y :: rest)).
    change (map of_string (x :: removelast (y :: rest)))
      with (of_string x :: map of_string (removelast (y :: rest))).
    now rewrite IH. }
  rewrite Hlast, Hfront, filter_map_of_string.
  destruct (of_string (last pieces EmptyString)); reflexivity.
Qed.

Lemma chunks_of_string (values : list string) (t : string) (p : list text) :
  Forall (fun v => is_ascii v = true) values ->
  fold_left chunk_step (map list_byte_of_string values)
    (mkLoop (of_string (JsString.residual t))
       (p ++ map of_string
               (filter (fun line => JsString.truthy (JsString.trim line))
                  (JsString.complete_lines t))))%list
  = mkLoop (of_string (JsString.residual (t ++ JsString.concat values)))
      (p ++ map of_string
              (filter (fun line => JsString.truthy (JsString.trim line))
                 (JsString.complete_lines (t ++ JsString.concat values))))%list.
Proof.
  intros Hall. revert t. induction Hall as [|v values Hv Hall IH]; intros t.
  - cbn [map fold_left JsString.concat]. now rewrite JsStringFacts.append_nil_r.
  - cbn [map fold_left JsString.concat].
    rewrite (chunk_step_of_string _ v _ Hv), <- app_assoc, <- map_app, <- filter_app.
    rewrite <- JsStringFacts.complete_lines_app, <- JsStringFacts.residual_app.
    rewrite IH, JsStringFacts.append_assoc. reflexivity.
Qed.

(** On chunks of characters below 128, which are their own bytes, the
    loop on bytes hands [JSON.parse] the lines the handler reads: the
    complete lines of the text that are not blank, however the text is
    cut. *)
Lemma ascii_chunks_agree (values : list string) :
  Forall (fun v => is_ascii v = true) values ->
  lines_to_parse (map list_byte_of_string values)
  = map of_string
      (filter (fun line => JsString.truthy (JsString.trim line))
         (JsString.complete_lines (JsString.concat values))).
Proof.
  intros Hall. unfold lines_to_parse.
  pose proof (chunks_of_string values EmptyString [] Hall) as H.
  cbn [JsString.residual JsString.complete_lines JsString.split last removelast filter map
       app append] in H.
  change (of_string EmptyString) with (@nil Z) in H. now rewrite H.
Qed.

Lemma is_ascii_app (a b : string) : is_ascii (a ++ b) = is_ascii a && is_ascii b.
Proof.
  unfold is_ascii. induction a as [|c a IH]; [reflexivity|].
  cbn [append list_ascii_of_string forallb]. now rewrite IH, andb_assoc.
Qed.

Lemma is_ascii_concat (values : list string) :
  Forall (fun v => is_ascii v = true) values -> is_ascii (JsString.concat values) = true.
Proof.
  induction 1 as [|v values Hv _ IH]; [reflexivity|].
  cbn [JsString.concat]. now rewrite is_ascii_app, Hv, IH.
Qed.

(** So a text of characters below 128 may be cut anywhere: the lines
    handed to [JSON.parse] are those of the text read as one chunk. *)
Lemma ascii_chunk_boundaries (values : list string) :
  Forall (fun v => is_ascii v = true) values ->
  lines_to_parse (map list_byte_of_string values)
  = lines_to_parse [list_byte_of_string (JsString.concat values)].
Proof.
  intros Hall. rewrite (ascii_chunks_agree values Hall).
  change [list_byte_of_string (JsString.concat values)]
    with (map list_byte_of_string [JsString.concat values]).
  rewrite (ascii_chunks_agree [JsString.concat values]).
  - cbn [JsString.concat]. now rewrite JsStringFacts.append_nil_r.
  - constructor; [now apply is_ascii_concat | constructor].
Qed.

End WireFacts.

(** ** The stream decoder *)

Module DecoderFacts.
Import Json FLVisualizer JsStringFacts.

Section Decoding.

Variable JSON_parse : string -> option json.

Abbreviation line_step := (line_step JSON_parse).
Abbreviation chunk_step := (chunk_step JSON_parse).
Abbreviation read_all := (read_all JSON_parse).

(** A line is processed the same whatever the residual buffer holds,
    and leaves it alone. *)
Lemma line_step_buffer (b : string) (l : Loop) (line : string) :
  line_step (mkLoop b (streamRunId l) (component l)) line
  = mkLoop b (streamRunId (line_step l line)) (component (line_step l line)).
Proof.
  unfold FLVisualizer.line_step; cbn [buffer streamRunId component].
  destruct (negb (JsString.truthy (JsString.trim line))); [reflexivity|].
  destruct (JSON_parse line) as [data|]; [|reflexivity].
  destruct (get data "run_id") as [run_id|]; [|reflexivity].
  destruct (formattedData data); reflexivity.
Qed.

Lemma lines_buffer (lines : list string) (b : string) (l : Loop) :
  fold_left line_step lines (mkLoop b (streamRunId l) (component l))
  = mkLoop b (streamRunId (fold_left line_step lines l))
           (component (fold_left line_step lines l)).
Proof.
  revert l. induction lines as [|line lines IH]; intros l; [reflexivity|].
  cbn [fold_left]. rewrite line_step_buffer. apply IH.
Qed.

Lemma lines_keep_buffer (lines : list string) (l : Loop) :
  buffer (fold_left line_step lines l) = buffer l.
Proof.
  destruct l as [b r c].
  change (mkLoop b r c) with
    (mkLoop b (streamRunId (mkLoop b r c)) (component (mkLoop b r c))) at 1.
  rewrite lines_buffer. reflexivity.
Qed.

(** A turn of the loop: the complete lines of buffer and chunk are
    processed in order, what follows the last line break is kept. *)
Lemma chunk_step_lines (l : Loop) (value : string) :
  chunk_step l value
  = fold_left line_step (JsString.complete_lines (buffer l ++ value))
              (mkLoop (JsString.residual (buffer l ++ value)) (streamRunId l) (component l)).
Proof.
  unfold FLVisualizer.chunk_step, JsString.complete_lines, JsString.residual.
  rewrite (pop_last _ EmptyString (split_not_nil _ _)).
  rewrite or_else_empty. reflexivity.
Qed.

(** Two chunks read one after the other act as their concatenation
    read at once. *)
Lemma chunk_step_buffer (l : Loop) (value : string) :
  buffer (chunk_step l value) = JsString.residual (buffer l ++ value).
Proof. rewrite chunk_step_lines. apply lines_keep_buffer. Qed.

Lemma chunk_step_app (l : Loop) (a b : string) :
  chunk_step (chunk_step l a) b = chunk_step l (a ++ b).
Proof.
  rewrite (chunk_step_lines (chunk_step l a) b), chunk_step_buffer.
  rewrite (chunk_step_lines l (a ++ b)), <- (append_assoc (buffer l) a b).
  rewrite (complete_lines_app (buffer l ++ a) b), (residual_app (buffer l ++ a) b).
  rewrite fold_left_app, (chunk_step_lines l a).
  destruct l as [b0 r0 c0]. cbn [buffer streamRunId component].
  set (res1 := JsString.residual (b0 ++ a)).
  set (r2 := JsString.residual (res1 ++ b)).
  pose proof (lines_buffer (JsString.complete_lines (b0 ++ a)) r2 (mkLoop res1 r0 c0)) as H.
  cbn [streamRunId component] in H. rewrite H. reflexivity.
Qed.

Lemma chunks_concat (values : list string) (l : Loop) (a : string) :
  fold_left chunk_step values (chunk_step l a) = chunk_step l (a ++ JsString.concat values).
Proof.
  revert a. induction values as [|v values IH]; intros a; cbn [fold_left JsString.concat].
  - now rewrite append_nil_r.
  - rewrite chunk_step_app, IH, append_assoc. reflexivity.
Qed.

(** Reading the chunks of a body is reading its whole text at once. *)
Lemma read_all_concat (values : list string) (s : State) :
  read_all values s = read_all [JsString.concat values] s.
Proof.
  unfold FLVisualizer.read_all. cbn [fold_left].
  change (mkLoop EmptyString None s) with (chunk_step (mkLoop EmptyString None s) EmptyString) at 1.
  rewrite chunks_concat. reflexivity.
Qed.

(** ... and what it does is process the complete lines of that text. *)
Lemma read_all_lines (values : list string) (s : State) :
  read_all values s
  = fold_left line_step (JsString.complete_lines (JsString.concat values))
              (mkLoop (JsString.residual (JsString.concat values)) None s).
Proof.
  rewrite read_all_concat. unfold FLVisualizer.read_all. cbn [fold_left].
  rewrite chunk_step_lines. reflexivity.
Qed.


(** *** The run identifier a stream carries *)

Lemma embedded_truthy (line : string) (j : json) :
  embedded_run_id JSON_parse line = Some j -> truthy j = true.
Proof.
  unfold embedded_run_id.
  destruct (negb (JsString.truthy (JsString.trim line))); [discriminate|].
  destruct (JSON_parse line) as [data|]; [|discriminate].
  destruct (get data "run_id") as [[v|]|]; try discriminate.
  destruct (truthy v) eqn:Hv; [|discriminate].
  intros H; injection H as <-. exact Hv.
Qed.

(** What one line does to [streamRunId]: while it is unset it takes the
    identifier the line carries; once set it stays. *)
Lemma line_step_streamRunId (l : Loop) (line : string) :
  streamRunId (line_step l line)
  = if unset (streamRunId l)
    then match embedded_run_id JSON_parse line with
         | Some j => Some j
         | None => streamRunId l
         end
    else streamRunId l.
Proof.
  unfold FLVisualizer.line_step, embedded_run_id.
  destruct (negb (JsString.truthy (JsString.trim line))).
  { destruct (unset (streamRunId l)); reflexivity. }
  destruct (JSON_parse line) as [data|]; cbn [streamRunId].
  2:{ destruct (unset (streamRunId l)); reflexivity. }
  destruct (get data "run_id") as [run_id|]; cbn [streamRunId].
  2:{ destruct (unset (streamRunId l)); reflexivity. }
  destruct (formattedData data); cbn [streamRunId];
    (destruct run_id as [v|]; cbn [value_truthy];
     [destruct (truthy v), (unset (streamRunId l)); reflexivity
     |destruct (unset (streamRunId l)); reflexivity]).
Qed.

Lemma lines_keep_streamRunId (lines : list string) (l : Loop) :
  unset (streamRunId l) = false ->
  streamRunId (fold_left line_step lines l) = streamRunId l.
Proof.
  revert l. induction lines as [|line lines IH]; intros l Hset; [reflexivity|].
  cbn [fold_left].
  assert (Hsame : streamRunId (line_step l line) = streamRunId l)
    by (rewrite line_step_streamRunId, Hset; reflexivity).
  rewrite IH; rewrite Hsame; [reflexivity | exact Hset].
Qed.

Lemma lines_first_embedded (lines : list string) (l : Loop) :
  streamRunId l = None ->
  streamRunId (fold_left line_step lines l) = first_embedded JSON_parse lines.
Proof.
  revert l. induction lines as [|line lines IH]; intros l Hnone; [exact Hnone|].
  cbn [fold_left first_embedded].
  pose proof (line_step_streamRunId l line) as Hstep.
  rewrite Hnone in Hstep. cbn [unset] in Hstep.
  destruct (embedded_run_id JSON_parse line) as [j|] eqn:Hemb.
  - rewrite lines_keep_streamRunId; rewrite Hstep; [reflexivity|].
    cbn [unset]. now rewrite (embedded_truthy _ _ Hemb).
  - apply IH. exact Hstep.
Qed.

(** Every value [streamRunId] takes in the loop is truthy. *)
Lemma read_all_set (values : list string) (s : State) (r : json) :
  streamRunId (read_all values s) = Some r -> truthy r = true.
Proof.
  rewrite read_all_lines, lines_first_embedded by reflexivity.
  induction (JsString.complete_lines (JsString.concat values)) as [|line lines IH];
    cbn [first_embedded]; [discriminate|].
  destruct (embedded_run_id JSON_parse line) as [j|] eqn:Hemb; [|exact IH].
  intros H; injection H as <-. exact (embedded_truthy _ _ Hemb).
Qed.


(** *** Chunk boundaries *)

(** Chunk-boundary invariance on the decoded text: for every sequence of
    lines, however the text made of them is cut into chunks of text, the
    handler ends in the same state, with the same rounds in
    [globalLosses] in the same order, as when the whole text comes as a
    single chunk. *)
Theorem chunk_boundary_invariance
    (lines values : list string) (onComplete : bool) (st : nat) (t : option string)
    (hs : list (string * string)) (now : nat) (s : State) :
  JsString.concat values = JsString.concat (map JsString.line lines) ->
  handleStartTraining JSON_parse onComplete
    (Resolved (mkResponse st t hs (Some (mkBody values None)))) now s
  = handleStartTraining JSON_parse onComplete
      (Resolved (mkResponse st t hs
                   (Some (mkBody [JsString.concat (map JsString.line lines)] None)))) now s.
Proof.
  intros Hcut. unfold handleStartTraining. cbn [body chunks read_failure].
  rewrite (read_all_concat values), Hcut. reflexivity.
Qed.

(** *** Lines that do not parse *)

(** A line on which [JSON.parse] throws changes nothing but the console. *)
Lemma line_step_unparsable (l : Loop) (line : string) :
  JsString.truthy (JsString.trim line) = true ->
  JSON_parse line = None ->
  line_step l line = mkLoop (buffer l) (streamRunId l) (console_error line (component l)).
Proof.
  intros Hblank Hparse. unfold FLVisualizer.line_step.
  rewrite Hblank, Hparse. reflexivity.
Qed.

(** A line that parses to a well-formed round adds it to [globalLosses]. *)
Lemma line_step_round (l : Loop) (line : string) (data : json) (round : RoundData) :
  JsString.truthy (JsString.trim line) = true ->
  JSON_parse line = Some data ->
  formattedData data = Some round ->
  component (line_step l line)
  = setGlobalLosses (fun prev => (prev ++ [round])%list) (component l).
Proof.
  intros Hblank Hparse Hfmt. unfold FLVisualizer.line_step.
  rewrite Hblank, Hparse. cbn [negb].
  destruct (get data "run_id") as [run_id|] eqn:Hget.
  - rewrite Hfmt. reflexivity.
  - unfold formattedData in Hfmt. destruct data; cbn in Hget, Hfmt; discriminate.
Qed.

Lemma split_line (s rest : string) :
  JsString.contains_char JsString.newline s = false ->
  JsString.split JsString.newline (JsString.line s ++ rest)
  = s :: JsString.split JsString.newline rest.
Proof.
  unfold JsString.line. induction s as [|c s IH]; intros Hfree.
  - cbn. reflexivity.
  - cbn [JsString.contains_char] in Hfree.
    apply Bool.orb_false_iff in Hfree as [Hc Hs].
    cbn [append JsString.split]. rewrite Hc.
    change ((s ++ String JsString.newline "") ++ rest) with
      (JsString.line s ++ rest) in IH |- *.
    unfold JsString.line in IH |- *. rewrite (IH Hs). reflexivity.
Qed.

(** After a text that ends a line, one more line. *)
Lemma complete_lines_line (pre l post : string) :
  JsString.residual pre = EmptyString ->
  JsString.contains_char JsString.newline l = false ->
  JsString.complete_lines (pre ++ JsString.line l ++ post)
  = (JsString.complete_lines pre ++ l :: JsString.complete_lines post)%list
  /\ JsString.residual (pre ++ JsString.line l ++ post) = JsString.residual post.
Proof.
  intros Hpre Hl.
  rewrite complete_lines_app, residual_app, Hpre. cbn [append].
  unfold JsString.complete_lines, JsString.residual.
  rewrite (split_line l post Hl).
  pose proof (split_not_nil JsString.newline post) as Hne.
  destruct (JsString.split JsString.newline post) as [|p ps]; [contradiction|].
  split; reflexivity.
Qed.

Lemma complete_lines_joined (pre post : string) :
  JsString.residual pre = EmptyString ->
  JsString.complete_lines (pre ++ post)
  = (JsString.complete_lines pre ++ JsString.complete_lines post)%list
  /\ JsString.residual (pre ++ post) = JsString.residual post.
Proof.
  intros Hpre. rewrite complete_lines_app, residual_app, Hpre. split; reflexivity.
Qed.

(** What the lines of a stream do to the loop, whatever the loop is: they
    add rounds to [globalLosses] and lines to the console, and may set
    [streamRunId]; which rounds and which lines does not depend on the
    loop. *)
Lemma line_step_shape (line : string) :
  exists (rounds : list RoundData) (logged : list string)
         (next : option json -> option json),
  forall l,
    line_step l line
    = mkLoop (buffer l) (next (streamRunId l))
        (mkState (globalLosses (component l) ++ rounds) (training (component l))
           (error (component l)) (capturedRunId (component l))
           (onComplete_calls (component l)) (console_errors (component l) ++ logged)).
Proof.
  unfold FLVisualizer.line_step.
  destruct (negb (JsString.truthy (JsString.trim line))).
  { exists [], [], (fun r => r). intros [b r [g t e c o k]]. cbn. now rewrite !app_nil_r. }
  destruct (JSON_parse line) as [data|].
  2: { exists [], [line], (fun r => r). intros [b r [g t e c o k]]. cbn. now rewrite app_nil_r. }
  destruct (get data "run_id") as [run_id|].
  2: { exists [], [line], (fun r => r). intros [b r [g t e c o k]]. cbn. now rewrite app_nil_r. }
  destruct (formattedData data) as [round|].
  - exists [round], [], (fun r => if value_truthy run_id && unset r then run_id else r).
    intros [b r [g t e c o k]]. cbn. now rewrite app_nil_r.
  - exists [], [line], (fun r => if value_truthy run_id && unset r then run_id else r).
    intros [b r [g t e c o k]]. cbn. now rewrite app_nil_r.
Qed.

Lemma lines_shape (lines : list string) :
  exists (rounds : list RoundData) (logged : list string)
         (next : option json -> option json),
  forall l,
    fold_left line_step lines l
    = mkLoop (buffer l) (next (streamRunId l))
        (mkState (globalLosses (component l) ++ rounds) (training (component l))
           (error (component l)) (capturedRunId (component l))
           (onComplete_calls (component l)) (console_errors (component l) ++ logged)).
Proof.
  induction lines as [|line lines IH].
  - exists [], [], (fun r => r). intros [b r [g t e c o k]]. cbn. now rewrite !app_nil_r.
  - destruct (line_step_shape line) as (rounds1 & logged1 & next1 & H1).
    destruct IH as (rounds2 & logged2 & next2 & H2).
    exists (rounds1 ++ rounds2)%list, (logged1 ++ logged2)%list, (fun r => next2 (next1 r)).
    intros l. cbn [fold_left]. rewrite H2, H1. cbn. now rewrite !app_assoc.
Qed.

(** The handler on a response with a body, in terms of the lines read. *)
Lemma handle_body (onComplete : bool) (r : Response) (values : list string)
    (failure : option string) (now : nat) (s : State) :
  ok r = true ->
  body r = Some (mkBody values failure) ->
  handleStartTraining JSON_parse onComplete (Resolved r) now s
  = let s0 := setCapturedRunId None (setError None
                (setGlobalLosses (fun _ => []) (setTraining true s))) in
    let l := fold_left line_step
               (JsString.complete_lines (JsString.concat values))
               (mkLoop EmptyString None s0) in
    setTraining false
      match failure with
      | None => done_step onComplete (runIdFromHeader r) now l
      | Some message => on_error message (component l)
      end.
Proof.
  intros Hok Hbody. unfold FLVisualizer.handleStartTraining. rewrite Hok, Hbody.
  cbn [negb chunks read_failure]. cbv zeta.
  rewrite read_all_lines.
  set (s0 := setCapturedRunId None _).
  pose proof (lines_buffer (JsString.complete_lines (JsString.concat values))
                (JsString.residual (JsString.concat values)) (mkLoop EmptyString None s0)) as H.
  cbn [streamRunId component] in H. unfold done_step. rewrite H. reflexivity.
Qed.

(** C5. Malformed-line tolerance: in every stream, a line on which
    [JSON.parse] throws is dropped and aborts nothing.  Whatever text
    comes before the line (up to a line break) and after it, however the
    stream is cut into chunks and however it ends, the handler ends as it
    does on the stream without that line: the same rounds in
    [globalLosses] in the same order, the same error and run identifier,
    the same calls of [onComplete]; the line itself goes to the console,
    once, and nowhere else. *)
Theorem malformed_line_tolerance
    (pre bad post : string) (with_bad without : list string) (onComplete : bool)
    (st : nat) (t : option string) (hs : list (string * string))
    (failure : option string) (now : nat) (s : State) :
  JSON_parse bad = None ->
  JsString.truthy (JsString.trim bad) = true ->
  JsString.contains_char JsString.newline bad = false ->
  JsString.residual pre = EmptyString ->
  ok (mkResponse st t hs (Some (mkBody with_bad failure))) = true ->
  JsString.concat with_bad = pre ++ JsString.line bad ++ post ->
  JsString.concat without = pre ++ post ->
  let s1 := handleStartTraining JSON_parse onComplete
              (Resolved (mkResponse st t hs (Some (mkBody with_bad failure)))) now s in
  let s0 := handleStartTraining JSON_parse onComplete
              (Resolved (mkResponse st t hs (Some (mkBody without failure)))) now s in
  globalLosses s1 = globalLosses s0
  /\ error s1 = error s0
  /\ training s1 = training s0
  /\ capturedRunId s1 = capturedRunId s0
  /\ onComplete_calls s1 = onComplete_calls s0
  /\ exists before after,
       console_errors s0 = (before ++ after)%list
       /\ console_errors s1 = (before ++ bad :: after)%list.
Proof.
  intros Hbad Hblank Hfree Hpre Hok Hwith Hwithout. cbv zeta.
  rewrite (handle_body onComplete (mkResponse st t hs (Some (mkBody with_bad failure)))
             with_bad failure now s Hok eq_refl).
  rewrite (handle_body onComplete (mkResponse st t hs (Some (mkBody without failure)))
             without failure now s Hok eq_refl).
  cbv zeta. rewrite Hwith, Hwithout.
  destruct (complete_lines_line pre bad post Hpre Hfree) as [-> _].
  destruct (complete_lines_joined pre post Hpre) as [-> _].
  rewrite !fold_left_app. cbn [fold_left].
  set (l := fold_left line_step (JsString.complete_lines pre) _).
  rewrite (line_step_unparsable l bad Hblank Hbad).
  destruct (lines_shape (JsString.complete_lines post)) as (rounds & logged & next & Hpost).
  rewrite !Hpost. cbn [buffer streamRunId component].
  unfold console_error, runIdFromHeader.
  cbn [globalLosses training error capturedRunId onComplete_calls console_errors headers].
  generalize (globalLosses (component l)), (training (component l)), (error (component l)),
    (capturedRunId (component l)), (onComplete_calls (component l)),
    (console_errors (component l)), (next (streamRunId l)), (buffer l).
  intros g tr e c o k r b.
  assert (Hconsole : exists before after,
            (k ++ logged = before ++ after
             /\ (k ++ [bad]) ++ logged = before ++ bad :: after)%list).
  { exists k, logged. split; [reflexivity|]. now rewrite <- app_assoc. }
  destruct failure as [message|].
  - unfold on_error.
    destruct (JsString.includes "Failed to fetch" message);
      [|destruct (JsString.includes "Training endpoint not found" message)];
      cbn; repeat split; exact Hconsole.
  - unfold done_step. destruct onComplete; cbn; repeat split; exact Hconsole.
Qed.


Lemma three_lines (a b c : string) :
  JsString.contains_char JsString.newline a = false ->
  JsString.contains_char JsString.newline b = false ->
  JsString.contains_char JsString.newline c = false ->
  JsString.split JsString.newline (JsString.line a ++ JsString.line b ++ JsString.line c)
  = [a; b; c; EmptyString].
Proof.
  intros Ha Hb Hc.
  rewrite (split_line a _ Ha), (split_line b _ Hb).
  rewrite <- (append_nil_r (JsString.line c)), (split_line c _ Hc).
  reflexivity.
Qed.

(** The case the specification spells out: on a stream of a round, a
    line on which [JSON.parse] throws and another round, however it is cut
    into chunks, the handler ends with exactly the two rounds in
    [globalLosses], in order; the bad line goes to the console only, no
    error is shown, and the stream is read to its end, where
    [onComplete] is called once. *)
Lemma unparsable_line_between_two_rounds
    (first bad second : string) (data1 data2 : json) (round1 round2 : RoundData)
    (values : list string) (st : nat) (t : option string) (hs : list (string * string))
    (now : nat) (s : State) :
  JSON_parse first = Some data1 -> formattedData data1 = Some round1 ->
  JSON_parse second = Some data2 -> formattedData data2 = Some round2 ->
  JSON_parse bad = None ->
  JsString.truthy (JsString.trim first) = true ->
  JsString.truthy (JsString.trim bad) = true ->
  JsString.truthy (JsString.trim second) = true ->
  JsString.contains_char JsString.newline first = false ->
  JsString.contains_char JsString.newline bad = false ->
  JsString.contains_char JsString.newline second = false ->
  ok (mkResponse st t hs (Some (mkBody values None))) = true ->
  JsString.concat values = JsString.line first ++ JsString.line bad ++ JsString.line second ->
  let s' := handleStartTraining JSON_parse true
              (Resolved (mkResponse st t hs (Some (mkBody values None)))) now s in
  globalLosses s' = [round1; round2]
  /\ console_errors s' = (console_errors s ++ [bad])%list
  /\ error s' = None
  /\ training s' = false
  /\ exists final, capturedRunId s' = Some final
                   /\ onComplete_calls s' = (onComplete_calls s ++ [final])%list.
Proof.
  intros Hp1 Hf1 Hp2 Hf2 Hbad Hb1 Hbb Hb2 Hn1 Hnb Hn2 Hok Hcut s'.
  subst s'. unfold handleStartTraining. rewrite Hok. cbn [negb body chunks read_failure].
  rewrite read_all_lines, Hcut.
  unfold JsString.complete_lines, JsString.residual.
  rewrite (three_lines _ _ _ Hn1 Hnb Hn2).
  cbn [removelast last fold_left].
  set (l0 := mkLoop EmptyString None _).
  set (l1 := line_step l0 first).
  set (l2 := line_step l1 bad).
  set (l3 := line_step l2 second).
  assert (H1 : component l1 = setGlobalLosses (fun prev => (prev ++ [round1])%list) (component l0))
    by (apply (line_step_round l0 first data1); assumption).
  assert (H2 : component l2 = console_error bad (component l1))
    by (unfold l2; rewrite (line_step_unparsable l1 bad Hbb Hbad); reflexivity).
  assert (H3 : component l3 = setGlobalLosses (fun prev => (prev ++ [round2])%list) (component l2))
    by (apply (line_step_round l2 second data2); assumption).
  unfold done_step.
  cbn [globalLosses console_errors error training capturedRunId onComplete_calls
       setTraining call_onComplete setCapturedRunId].
  rewrite H3, H2, H1. subst l0.
  cbn [component globalLosses console_errors error training capturedRunId onComplete_calls
       setTraining setGlobalLosses setError setCapturedRunId console_error app].
  repeat split. eexists. split; reflexivity.
Qed.


(** *** The run identifier of a session *)

Lemma chunks_keep_streamRunId (values : list string) (l : Loop) :
  unset (streamRunId l) = false ->
  streamRunId (fold_left chunk_step values l) = streamRunId l.
Proof.
  revert l. induction values as [|v values IH]; intros l Hset; [reflexivity|].
  cbn [fold_left].
  assert (Hsame : streamRunId (chunk_step l v) = streamRunId l).
  { rewrite chunk_step_lines, lines_keep_streamRunId; [reflexivity | exact Hset]. }
  rewrite IH; rewrite Hsame; [reflexivity | exact Hset].
Qed.

Lemma read_all_app (before after : list string) (s : State) :
  read_all (before ++ after) s = fold_left chunk_step after (read_all before s).
Proof. unfold FLVisualizer.read_all. apply fold_left_app. Qed.

(** C4. RunId freeze: once the session has an identifier, from the
    header (read once, before the body) or from a line of the stream,
    whatever chunks follow, with whatever [run_id] in their lines, the
    identifier settled at the end of the stream is the same, and
    [streamRunId], once set, keeps its value. *)
Theorem runId_freeze
    (before after : list string) (fromHeader : option string) (now later : nat) (s : State) :
  JsString.or_else fromHeader None <> None \/ streamRunId (read_all before s) <> None ->
  finalRunId fromHeader (streamRunId (read_all (before ++ after) s)) later
  = finalRunId fromHeader (streamRunId (read_all before s)) now
  /\ (streamRunId (read_all before s) <> None ->
      streamRunId (read_all (before ++ after) s) = streamRunId (read_all before s)).
Proof.
  intros Hknown.
  assert (Hkeep : streamRunId (read_all before s) <> None ->
                  streamRunId (read_all (before ++ after) s) = streamRunId (read_all before s)).
  { intros Hset. rewrite read_all_app. apply chunks_keep_streamRunId.
    destruct (streamRunId (read_all before s)) as [r|] eqn:Hr; [|contradiction].
    cbn [unset]. now rewrite (read_all_set _ _ _ Hr). }
  split; [|exact Hkeep].
  unfold finalRunId.
  destruct (JsString.or_else fromHeader None) as [h|]; [reflexivity|].
  destruct Hknown as [Hh|Hset]; [contradiction|].
  rewrite (Hkeep Hset).
  destruct (streamRunId (read_all before s)) as [r|] eqn:Hr; [|contradiction].
  now rewrite (read_all_set _ _ _ Hr).
Qed.

(** The line loop touches [globalLosses] and the console only. *)
Lemma line_step_frame (l : Loop) (line : string) :
  onComplete_calls (component (line_step l line)) = onComplete_calls (component l)
  /\ error (component (line_step l line)) = error (component l)
  /\ capturedRunId (component (line_step l line)) = capturedRunId (component l)
  /\ training (component (line_step l line)) = training (component l).
Proof.
  unfold FLVisualizer.line_step.
  destruct (negb (JsString.truthy (JsString.trim line))); [repeat split|].
  destruct (JSON_parse line) as [data|]; [|repeat split].
  destruct (get data "run_id") as [run_id|]; [|repeat split].
  destruct (formattedData data); repeat split.
Qed.

Lemma lines_frame (lines : list string) (l : Loop) :
  onComplete_calls (component (fold_left line_step lines l)) = onComplete_calls (component l)
  /\ error (component (fold_left line_step lines l)) = error (component l)
  /\ capturedRunId (component (fold_left line_step lines l)) = capturedRunId (component l)
  /\ training (component (fold_left line_step lines l)) = training (component l).
Proof.
  revert l. induction lines as [|line lines IH]; intros l; [repeat split|].
  cbn [fold_left].
  destruct (IH (line_step l line)) as (H1 & H2 & H3 & H4).
  destruct (line_step_frame l line) as (F1 & F2 & F3 & F4).
  rewrite H1, H2, H3, H4. repeat split; assumption.
Qed.

Lemma headers_get_case (hs : list (string * string)) :
  headers_get hs "X-Run-Id" = headers_get hs "x-run-id".
Proof. induction hs as [|[k v] hs IH]; [reflexivity|]. cbn. now rewrite IH. Qed.

Lemma runIdFromHeader_get (r : Response) :
  runIdFromHeader r
  = match headers_get (headers r) "x-run-id" with
    | Some h => if JsString.truthy h then Some h else None
    | None => None
    end.
Proof.
  unfold runIdFromHeader. rewrite headers_get_case.
  destruct (headers_get (headers r) "x-run-id") as [h|]; [|reflexivity].
  destruct h; reflexivity.
Qed.

(** C3, as the handler has it.  For a response with a body that is read
    to its end, the identifier is decided once, when the stream ends: the
    identifier given to [onComplete] and kept in [capturedRunId] is the
    header identifier when that is not empty, else the truthy [run_id] of
    the first line of the stream that carries one, else [fallback-]
    followed by the clock at the end of the stream.  So a header
    identifier H wins over an embedded identifier E. *)
Theorem resolved_runId_precedence
    (r : Response) (values : list string) (now : nat) (s : State) :
  ok r = true ->
  body r = Some (mkBody values None) ->
  let s' := handleStartTraining JSON_parse true (Resolved r) now s in
  let resolved := resolved_runId JSON_parse (headers_get (headers r) "x-run-id") values now in
  capturedRunId s' = Some resolved
  /\ onComplete_calls s' = (onComplete_calls s ++ [resolved])%list.
Proof.
  intros Hok Hbody s' resolved. subst s' resolved.
  unfold handleStartTraining, resolved_runId. rewrite Hok, Hbody.
  cbn [negb chunks read_failure]. unfold done_step.
  rewrite read_all_lines, lines_first_embedded by reflexivity.
  rewrite runIdFromHeader_get.
  cbn [capturedRunId onComplete_calls setTraining call_onComplete setCapturedRunId].
  set (lines := JsString.complete_lines (JsString.concat values)).
  assert (Hstream :
    match first_embedded JSON_parse lines with
    | Some j => if truthy j then j else JStr (fallback now)
    | None => JStr (fallback now)
    end
    = match first_embedded JSON_parse lines with
      | Some e => e
      | None => JStr (fallback now)
      end).
  { induction lines as [|line lines IH]; [reflexivity|].
    cbn [first_embedded].
    destruct (embedded_run_id JSON_parse line) as [j|] eqn:Hemb; [|exact IH].
    now rewrite (embedded_truthy _ _ Hemb). }
  assert (Hfinal :
    finalRunId
      match headers_get (headers r) "x-run-id" with
      | Some h => if JsString.truthy h then Some h else None
      | None => None
      end
      (first_embedded JSON_parse lines) now
    = match headers_get (headers r) "x-run-id" with
      | Some h =>
          if JsString.truthy h then JStr h
          else match first_embedded JSON_parse lines with
               | Some e => e
               | None => JStr (fallback now)
               end
      | None =>
          match first_embedded JSON_parse lines with
          | Some e => e
          | None => JStr (fallback now)
          end
      end).
  { unfold finalRunId.
    destruct (headers_get (headers r) "x-run-id") as [h|]; [|apply Hstream].
    destruct h as [|c h]; [apply Hstream | reflexivity]. }
  rewrite Hfinal. split; [reflexivity|].
  f_equal. apply lines_frame.
Qed.

(** A response without a body: the fallback goes to [onComplete], and the
    header is not looked at. *)
Lemma no_body_fallback (r : Response) (now : nat) (s : State) :
  ok r = true ->
  body r = None ->
  let s' := handleStartTraining JSON_parse true (Resolved r) now s in
  capturedRunId s' = Some (JStr (fallback now))
  /\ onComplete_calls s' = (onComplete_calls s ++ [JStr (fallback now)])%list
  /\ error s' = Some "No response body received from training endpoint".
Proof.
  intros Hok Hbody. cbv zeta. unfold handleStartTraining. rewrite Hok, Hbody.
  repeat split.
Qed.

End Decoding.

(** On the sample: the two rounds cut after 50 and after 120 characters. *)
Lemma chunk_boundary_invariance_witness :
  let text := JsString.line Sample.round1 ++ JsString.line Sample.round2 in
  let values := [substring 0 50 text; substring 50 70 text; substring 120 1000 text] in
  JsString.concat values = JsString.concat (map JsString.line [Sample.round1; Sample.round2])
  /\ handleStartTraining Sample.parse true (Resolved (Sample.streamed [] values)) 2000 initial
     = handleStartTraining Sample.parse true
         (Resolved (Sample.streamed []
            [JsString.concat (map JsString.line [Sample.round1; Sample.round2])])) 2000 initial.
Proof.
  intros text values.
  assert (Hcut : JsString.concat values
                 = JsString.concat (map JsString.line [Sample.round1; Sample.round2]))
    by (vm_compute; reflexivity).
  split; [exact Hcut|].
  exact (chunk_boundary_invariance Sample.parse [Sample.round1; Sample.round2] values
           true 200 None [] 2000 initial Hcut).
Defined.

(** C5 on the sample: garbage between the two rounds, cut inside the
    garbage and inside the second round. *)
Lemma malformed_line_tolerance_witness :
  let text := JsString.line Sample.round1 ++ JsString.line Sample.garbage
              ++ JsString.line Sample.round2 in
  let values := [substring 0 121 text; substring 121 39 text; substring 160 1000 text] in
  let s1 := handleStartTraining Sample.parse true (Resolved (Sample.streamed [] values))
              2000 initial in
  let s0 := handleStartTraining Sample.parse true
              (Resolved (Sample.streamed []
                 [JsString.line Sample.round1 ++ JsString.line Sample.round2]))
              2000 initial in
  (globalLosses s1 = [Sample.formatted_round 1 (9 # 10); Sample.formatted_round 2 (8 # 10)]
   /\ console_errors s1 = [Sample.garbage]
   /\ console_errors s0 = [])
  /\ globalLosses s1 = globalLosses s0
  /\ error s1 = error s0
  /\ training s1 = training s0
  /\ capturedRunId s1 = capturedRunId s0
  /\ onComplete_calls s1 = onComplete_calls s0
  /\ exists before after,
       console_errors s0 = (before ++ after)%list
       /\ console_errors s1 = (before ++ Sample.garbage :: after)%list.
Proof.
  intros text values.
  split; [vm_compute; repeat split|].
  apply (malformed_line_tolerance Sample.parse
           (JsString.line Sample.round1) Sample.garbage (JsString.line Sample.round2)
           values [JsString.line Sample.round1 ++ JsString.line Sample.round2]
           true 200 None [] None 2000 initial); vm_compute; reflexivity.
Defined.

(** C4 on the sample: after a round stamped [abc], a round stamped
    [other] changes nothing. *)
Lemma runId_freeze_witness :
  let before := [JsString.line Sample.round1] in
  let after := [JsString.line Sample.round2_other] in
  streamRunId (read_all Sample.parse before initial) = Some (JStr "abc")
  /\ finalRunId None (streamRunId (read_all Sample.parse (before ++ after) initial)) 3000
     = finalRunId None (streamRunId (read_all Sample.parse before initial)) 2000
  /\ streamRunId (read_all Sample.parse (before ++ after) initial) = Some (JStr "abc").
Proof.
  intros before after.
  assert (Hset : streamRunId (read_all Sample.parse before initial) = Some (JStr "abc"))
    by (vm_compute; reflexivity).
  assert (Hknown : JsString.or_else None None <> None
                   \/ streamRunId (read_all Sample.parse before initial) <> None)
    by (right; rewrite Hset; discriminate).
  destruct (runId_freeze Sample.parse before after None 2000 3000 initial Hknown)
    as [Hfinal Hkeep].
  split; [exact Hset|]. split; [exact Hfinal|].
  rewrite Hkeep; [exact Hset | rewrite Hset; discriminate].
Defined.

(** C3 on the sample: a header identifier [H] and a first round stamped
    [E]: the session gets [H]. *)
Lemma resolved_runId_precedence_witness :
  let values := [JsString.line Sample.round1_E] in
  let r := Sample.streamed [("x-run-id", "H")] values in
  let s' := handleStartTraining Sample.parse true (Resolved r) 2000 initial in
  first_embedded Sample.parse (JsString.complete_lines (JsString.concat values))
    = Some (JStr "E")
  /\ capturedRunId s' = Some (JStr "H")
  /\ onComplete_calls s' = [JStr "H"].
Proof.
  intros values r.
  destruct (resolved_runId_precedence Sample.parse r values 2000 initial eq_refl eq_refl)
    as [Hcap Hcalls].
  split; [vm_compute; reflexivity|]. split; [exact Hcap | exact Hcalls].
Defined.

(** C3 as stated fails.  A 204 response has no body: with the header
    identifier [H] the session gets the fallback, not [H].  And the
    fallback of a session started at clock 1000 whose stream ends at clock
    2000 is stamped 2000. *)
Lemma resolved_runId_counterexample :
  let no_body := mkResponse 204 None [("x-run-id", "H")] None in
  let empty := Sample.streamed [] [] in
  (capturedRunId (handleStartTraining Sample.parse true (Resolved no_body) 2000 initial)
     = Some (JStr "fallback-2000")
   /\ claimed_runId Sample.parse no_body 1000 = JStr "H")
  /\ (capturedRunId (handleStartTraining Sample.parse true (Resolved empty) 2000 initial)
        = Some (JStr "fallback-2000")
      /\ claimed_runId Sample.parse empty 1000 = JStr "fallback-1000").
Proof. vm_compute. repeat split. Qed.

End DecoderFacts.

(** ** The session screen *)

Module HomePageFacts.
Import HomePage.
Local Open Scope page_scope.

(** Runs the handlers of the goal down to worlds. *)
Ltac handlers :=
  unfold step, exec, handle, unmount, handleRetryPolling, handleForceShowAnalysis,
    interval_callback, handleTrainingComplete, handleUnload, checkAndShow,
    checkAnalysisReady, bind, ret, setError, setTrainingDone, setShowAnalysis,
    setCurrentRunId, setPollingInterval, setPollingAttempts, setListeners, emit,
    setInterval, clearInterval, render;
  cbn -[Nat.leb maxPollingAttempts failure_message delete_run_body JsString.includes
        JsString.truthy String.eqb].

Lemma same_runId_refl (a : option string) : same_runId a a = true.
Proof. destruct a; [apply String.eqb_refl | reflexivity]. Qed.

Lemma same_runId_eq (a b : option string) : same_runId a b = true -> a = b.
Proof.
  destruct a, b; cbn; try discriminate; [|reflexivity].
  intros H. apply String.eqb_eq in H. now subst.
Qed.

Lemma fetched_app (a b : list Effect) : fetched (a ++ b) = (fetched a ++ fetched b)%list.
Proof. apply flat_map_app. Qed.

Lemma sent_app (a b : list Effect) : sent (a ++ b) = (sent a ++ sent b)%list.
Proof. apply flat_map_app. Qed.

Lemma armed_by_app (a b : list Effect) : armed_by (a ++ b) = (armed_by a ++ armed_by b)%list.
Proof. apply flat_map_app. Qed.

(** *** Bounded polling *)

(** A poll step that finds the analysis not ready, made by a render that
    saw fewer than 23 attempts: one query goes out, the counter in the
    state grows, and nothing else changes; the step asks to go on. *)
Lemma checkAndShow_not_ready (runId : string) (seen : Render) (w : World) :
  JsString.truthy runId = true ->
  seen_pollingAttempts seen + 1 < maxPollingAttempts ->
  checkAndShow runId seen (Data false) w
  = (false,
     mkWorld (error w) (trainingDone w) (showAnalysis w) (currentRunId w) (pollingInterval w)
             (pollingAttempts w + 1) (intervals w) (next_handle w) (listeners w)
             (effects w ++ [FetchStatus runId])).
Proof.
  intros Hid Hseen.
  apply Nat.leb_gt in Hseen.
  handlers. rewrite Hid. handlers. rewrite Hseen. reflexivity.
Qed.

(** A tick of an armed interval whose closure saw fewer than 23 attempts,
    on an analysis that is not ready. *)
Lemma tick_not_ready (w : World) (h : nat) (p : Poll) :
  lookup h (intervals w) = Some p ->
  JsString.truthy (poll_runId p) = true ->
  seen_pollingAttempts (poll_seen p) + 1 < maxPollingAttempts ->
  step w (Timer h (Data false))
  = mkWorld (error w) (trainingDone w) (showAnalysis w) (currentRunId w) (pollingInterval w)
            (pollingAttempts w + 1) (intervals w) (next_handle w) (listeners w)
            (effects w ++ [FetchStatus (poll_runId p)]).
Proof.
  intros Hh Hid Hseen.
  unfold step, exec, handle, bind. rewrite Hh.
  unfold interval_callback, bind.
  rewrite (checkAndShow_not_ready _ _ _ Hid Hseen).
  unfold ret, unload_effect. cbn [currentRunId snd].
  rewrite same_runId_refl. reflexivity.
Qed.

(** The stale counter: however often the interval fires, a poll whose
    closure saw fewer than 23 attempts never gives up.  After [n] ticks
    that find the analysis not ready, [n] more queries are out, the
    interval is still armed and no error is set. *)
Lemma stale_poll_never_fails (n : nat) (w : World) (h : nat) (p : Poll) :
  lookup h (intervals w) = Some p ->
  JsString.truthy (poll_runId p) = true ->
  seen_pollingAttempts (poll_seen p) + 1 < maxPollingAttempts ->
  let w' := run w (repeat (Timer h (Data false)) n) in
  length (queries w') = length (queries w) + n
  /\ pollingAttempts w' = pollingAttempts w + n
  /\ lookup h (intervals w') = Some p
  /\ error w' = error w
  /\ trainingDone w' = trainingDone w
  /\ showAnalysis w' = showAnalysis w.
Proof.
  intros Hh Hid Hseen. revert w Hh.
  induction n as [|n IH]; intros w Hh; cbn [repeat run fold_left]; cbv zeta.
  - repeat split; try assumption; lia.
  - fold (run (step w (Timer h (Data false))) (repeat (Timer h (Data false)) n)).
    rewrite (tick_not_ready w h p Hh Hid Hseen).
    match goal with |- context [run ?w1 _] => specialize (IH w1 Hh) end.
    cbn zeta in IH. destruct IH as (Hq & Ha & Hl & He & Ht & Hs).
    unfold queries in *. cbn [effects pollingAttempts error trainingDone showAnalysis] in *.
    rewrite fetched_app, length_app in Hq. cbn [fetched flat_map length app] in Hq.
    repeat split; try assumption; lia.
Qed.

(** C1, on the code.  A fresh page polls run-1 while the analysis is
    never ready: after the immediate check and 24 ticks of the interval,
    25 queries are out, the interval is still armed, and nothing has
    failed: no error is set and the spinner still shows. *)
Theorem polling_bound_not_enforced :
  let always_false := TrainingComplete (render mounted) "run-1" (Data false)
                      :: repeat (Timer 1 (Data false)) 24 in
  let w := run mounted always_false in
  length (queries w) = 25
  /\ map fst (intervals w) = [1]
  /\ error w = None
  /\ trainingDone w = true
  /\ showAnalysis w = false
  /\ pollingAttempts w = 25.
Proof. vm_compute. repeat split. Qed.

(** The same closure on a render that saw 23 attempts gives up on its
    first miss. *)
Lemma stale_poll_fails_at_once :
  let w := run mounted [TrainingComplete (mkRender 23 None None) "run-1" (Data false)] in
  length (queries w) = 1
  /\ intervals w = []
  /\ error w = Some (failure_message "run-1")
  /\ trainingDone w = false.
Proof. vm_compute. repeat split. Qed.


(** *** The entry of the poller *)

(** C10. Called with the empty string, [handleTrainingComplete] sets the
    error [Training completed but no runId received] and returns: it
    issues no query and arms no timer (no effect at all), and
    [currentRunId], [trainingDone], [pollingAttempts] and the rest of the
    state stay as they were. *)
Theorem empty_runId_rejected (seen : Render) (reply : Reply) (w : World) :
  let w' := exec (handleTrainingComplete seen EmptyString reply) w in
  error w' = Some "Training completed but no runId received"
  /\ effects w' = effects w
  /\ intervals w' = intervals w
  /\ next_handle w' = next_handle w
  /\ currentRunId w' = currentRunId w
  /\ trainingDone w' = trainingDone w
  /\ pollingAttempts w' = pollingAttempts w
  /\ pollingInterval w' = pollingInterval w
  /\ showAnalysis w' = showAnalysis w.
Proof. cbv zeta. handlers. repeat split. Qed.

(** C9. Called with a runId that is not empty, [handleTrainingComplete]
    issues its first readiness query before it arms any timer (only
    [clearInterval] may come first); and when that query reports ready
    the page shows the analysis, with no error, and the call has armed
    no timer: no [setInterval] is among its effects, no handle was
    taken, and every interval still armed was armed before. *)
Theorem immediate_check_before_timer
    (seen : Render) (runId : string) (reply : Reply) (w : World) :
  JsString.truthy runId = true ->
  let w' := exec (handleTrainingComplete seen runId reply) w in
  (exists before after,
      effects w' = (effects w ++ before ++ FetchStatus runId :: after)%list
      /\ fetched before = [] /\ armed_by before = [])
  /\ (reply = Data true ->
      showAnalysis w' = true
      /\ trainingDone w' = true
      /\ error w' = None
      /\ queries w' = (queries w ++ [runId])%list
      /\ armed w' = armed w
      /\ next_handle w' = next_handle w
      /\ incl (intervals w') (intervals w)).
Proof.
  intros Hid. cbv zeta. split.
  - exists (match seen_pollingInterval seen with Some h => [ClearInterval h] | None => [] end).
    handlers. rewrite Hid. handlers.
    destruct seen as [a [h|] r]; cbn [seen_pollingInterval seen_pollingAttempts];
      destruct reply as [| |[|]]; handlers;
      try destruct (maxPollingAttempts <=? a + 1); handlers;
      eexists; (split; [rewrite <- ?app_assoc; cbn [app]; reflexivity | split; reflexivity]).
  - intros ->. handlers. rewrite Hid. handlers.
    unfold queries, armed.
    destruct seen as [a [h|] r]; handlers;
      rewrite ?fetched_app, ?armed_by_app; cbn [fetched armed_by flat_map app];
      rewrite ?app_nil_r; repeat split;
      try (eapply incl_tran; apply incl_filter); apply incl_refl.
Qed.

Lemma immediate_check_before_timer_witness :
  let w' := exec (handleTrainingComplete (render mounted) "run-1" (Data true)) mounted in
  effects w' = [FetchStatus "run-1"]
  /\ showAnalysis w' = true
  /\ armed w' = []
  /\ intervals w' = [].
Proof.
  destruct (immediate_check_before_timer (render mounted) "run-1" (Data true) mounted eq_refl)
    as [_ Hready].
  destruct (Hready eq_refl) as (Hshow & _ & _ & _ & Harmed & _ & _).
  split; [vm_compute; reflexivity|]. split; [exact Hshow|]. split; [exact Harmed|].
  vm_compute; reflexivity.
Defined.

(** *** Readiness queries that fail *)

(** C8, as the page has it.  A poll step whose query fails in transport
    (the request or the reading of its answer throws, or the status is
    not a success) counts as a miss: the query went out and the counter
    grows by one.  Unless the step finds the attempt bound reached, it
    asks to go on, touches no timer and sets the error shown on the page
    to the message of that failure.  When it finds the bound reached, it
    ends the poll: it asks to stop, clears the interval its render saw,
    and the error shown is the message of the exhausted poll, which
    replaces that of the failure. *)
Theorem transport_error_is_a_miss
    (runId : string) (seen : Render) (reply : Reply) (w : World) :
  JsString.truthy runId = true ->
  reply = Thrown \/ reply = NotOk ->
  let stop := fst (checkAndShow runId seen reply w) in
  let w' := snd (checkAndShow runId seen reply w) in
  pollingAttempts w' = pollingAttempts w + 1
  /\ queries w' = (queries w ++ [runId])%list
  /\ showAnalysis w' = showAnalysis w
  /\ if maxPollingAttempts <=? seen_pollingAttempts seen + 1
     then stop = true
          /\ error w' = Some (failure_message runId)
          /\ trainingDone w' = false
          /\ pollingInterval w' = None
          /\ intervals w' = intervals (exec (clearInterval (seen_pollingInterval seen)) w)
     else stop = false
          /\ error w' = Some (match reply with
                              | NotOk => "Failed to check analysis readiness"
                              | _ => "Network error while checking analysis readiness"
                              end)
          /\ trainingDone w' = trainingDone w
          /\ pollingInterval w' = pollingInterval w
          /\ intervals w' = intervals w.
Proof.
  intros Hid Hreply. cbv zeta. unfold queries.
  destruct Hreply as [-> | ->]; handlers; rewrite Hid; handlers;
    destruct (maxPollingAttempts <=? seen_pollingAttempts seen + 1); handlers;
    try (destruct (seen_pollingInterval seen); handlers);
    rewrite ?fetched_app; cbn [fetched flat_map app]; rewrite ?app_nil_r;
    repeat split.
Qed.

Lemma transport_error_is_a_miss_witness :
  let w := run mounted [TrainingComplete (render mounted) "run-1" (Data false)] in
  let w' := snd (checkAndShow "run-1" (render mounted) Thrown w) in
  let last := snd (checkAndShow "run-1" (mkRender 23 (Some 1) (Some "run-1")) NotOk w) in
  (fst (checkAndShow "run-1" (render mounted) Thrown w) = false
   /\ pollingAttempts w' = 2
   /\ queries w' = ["run-1"; "run-1"]
   /\ error w' = Some "Network error while checking analysis readiness"
   /\ map fst (intervals w') = [1])
  /\ (fst (checkAndShow "run-1" (mkRender 23 (Some 1) (Some "run-1")) NotOk w) = true
      /\ pollingAttempts last = 2
      /\ queries last = ["run-1"; "run-1"]
      /\ error last = Some (failure_message "run-1")
      /\ intervals last = []).
Proof.
  intros w. split.
  - destruct (transport_error_is_a_miss "run-1" (render mounted) Thrown w eq_refl
                (or_introl eq_refl))
      as (Hattempts & Hqueries & _ & Hstop & Herror & _ & _ & Hintervals).
    split; [exact Hstop|]. split; [exact Hattempts|]. split; [exact Hqueries|].
    split; [exact Herror|]. cbv zeta in Hintervals. now rewrite Hintervals.
  - destruct (transport_error_is_a_miss "run-1" (mkRender 23 (Some 1) (Some "run-1")) NotOk w
                eq_refl (or_intror eq_refl))
      as (Hattempts & Hqueries & _ & Hstop & Herror & _ & _ & Hintervals).
    split; [exact Hstop|]. split; [exact Hattempts|]. split; [exact Hqueries|].
    split; [exact Herror|]. cbv zeta in Hintervals. now rewrite Hintervals.
Defined.

(** C8 as stated fails: the tick of an armed interval whose query throws
    puts an error on the page that was not there. *)
Lemma transport_error_is_surfaced :
  let w := run mounted [TrainingComplete (render mounted) "run-1" (Data false)] in
  let w' := step w (Timer 1 Thrown) in
  error w = None
  /\ error w' = Some "Network error while checking analysis readiness"
  /\ error w' <> error w.
Proof. vm_compute. repeat split. discriminate. Qed.


(** *** Clean-up at unload *)

(** Case analysis on what the handlers of the goal branch on, innermost
    test first. *)
Ltac cases :=
  repeat match goal with
         | |- context [match ?x with _ => _ end] =>
             lazymatch x with
             | context [match _ with _ => _ end] => fail
             | _ => destruct x eqn:?; handlers
             end
         end.

Lemma step_unfold (w : World) (e : Event) :
  step w e = snd (unload_effect (currentRunId w) (snd (handle e w))).
Proof.
  unfold step, exec, bind. destruct (handle e w) as [[] w1]. reflexivity.
Qed.

(** Firing [beforeunload] sends what the listeners send and changes
    nothing else. *)
Lemma dispatch_sends (ls : list (option string)) (w : World) :
  dispatch ls w
  = (tt, mkWorld (error w) (trainingDone w) (showAnalysis w) (currentRunId w)
                 (pollingInterval w) (pollingAttempts w) (intervals w) (next_handle w)
                 (listeners w) (effects w ++ map SendBeacon (deletions ls))).
Proof.
  revert w. induction ls as [|l ls IH]; intros w.
  - destruct w. cbn. now rewrite app_nil_r.
  - cbn [dispatch]. unfold bind.
    destruct l as [r|]; cbn [handleUnload deletions flat_map].
    + destruct (JsString.truthy r).
      * unfold emit. rewrite IH. cbn. now rewrite <- app_assoc.
      * unfold ret. rewrite IH. reflexivity.
    + unfold ret. rewrite IH. reflexivity.
Qed.

Lemma sent_beacons (bodies : list string) : sent (map SendBeacon bodies) = bodies.
Proof.
  unfold sent. induction bodies as [|b bodies IH]; cbn; [reflexivity | now rewrite IH].
Qed.

(** The effect of [currentRunId] touches the listeners only. *)
Lemma unload_effect_frame (before : option string) (w : World) :
  let w' := snd (unload_effect before w) in
  effects w' = effects w /\ currentRunId w' = currentRunId w
  /\ error w' = error w /\ intervals w' = intervals w
  /\ pollingAttempts w' = pollingAttempts w.
Proof.
  cbv zeta. unfold unload_effect.
  destruct (same_runId before (currentRunId w)); repeat split.
Qed.

(** No handler touches the listeners. *)
Lemma handle_listeners (e : Event) (w : World) :
  listeners (snd (handle e w)) = listeners w.
Proof.
  destruct e as [seen runId reply|h reply|reply| |].
  - handlers. cases; reflexivity.
  - handlers. cases; reflexivity.
  - handlers. cases; reflexivity.
  - handlers. cases; reflexivity.
  - unfold handle. rewrite dispatch_sends. reflexivity.
Qed.

(** A handler leaves [currentRunId] alone or sets it to a runId that is
    not empty; the retry button keeps it. *)
Lemma handle_currentRunId (e : Event) (w : World) :
  currentRunId (snd (handle e w)) = currentRunId w
  \/ exists seen runId reply,
       e = TrainingComplete seen runId reply /\ JsString.truthy runId = true
       /\ currentRunId (snd (handle e w)) = Some runId.
Proof.
  destruct e as [seen runId reply|h reply|reply| |].
  - destruct (JsString.truthy runId) eqn:Hid.
    + right. exists seen, runId, reply. split; [reflexivity|]. split; [exact Hid|].
      handlers. rewrite Hid. handlers. cases; reflexivity.
    + left. handlers. rewrite Hid. reflexivity.
  - left. handlers. cases; reflexivity.
  - left. unfold handle.
    destruct (retry_shown w) eqn:Hshown; [|reflexivity].
    unfold retry_shown in Hshown.
    destruct (error w) as [msg|]; [|discriminate].
    destruct (currentRunId w) as [r|] eqn:Hr; [|discriminate].
    apply andb_prop in Hshown as [_ Hid].
    handlers. rewrite Hr. cbn [or_empty]. rewrite Hid. handlers. cases; reflexivity.
  - left. handlers. cases; reflexivity.
  - left. unfold handle. rewrite dispatch_sends. reflexivity.
Qed.

(** Only [beforeunload] sends a deletion request. *)
Lemma handle_sent (e : Event) (w : World) :
  e <> BeforeUnload -> sent (effects (snd (handle e w))) = sent (effects w).
Proof.
  intros He.
  destruct e as [seen runId reply|h reply|reply| |]; [| | | |contradiction];
    handlers; cases; rewrite ?sent_app; cbn [sent flat_map app];
    rewrite ?app_nil_r; reflexivity.
Qed.

Lemma unmount_sent (w : World) : beacons (exec unmount w) = beacons w.
Proof. handlers. reflexivity. Qed.

Lemma settled_mounted : settled mounted.
Proof. split; [reflexivity | discriminate]. Qed.

Lemma settled_step (w : World) (e : Event) : settled w -> settled (step w e).
Proof.
  intros [Hls Hid]. rewrite step_unfold.
  pose proof (handle_listeners e w) as Hl.
  pose proof (handle_currentRunId e w) as Hc.
  set (w1 := snd (handle e w)) in *. rewrite Hls in Hl.
  assert (Hid1 : forall r, currentRunId w1 = Some r -> JsString.truthy r = true).
  { intros r Hr. destruct Hc as [Hsame | (seen & runId & reply & _ & Ht & Hset)].
    - apply Hid. now rewrite <- Hsame.
    - rewrite Hset in Hr. injection Hr as <-. exact Ht. }
  unfold unload_effect.
  destruct (same_runId (currentRunId w) (currentRunId w1)) eqn:Hsame.
  - apply same_runId_eq in Hsame. cbn [snd]. split; [|exact Hid1].
    rewrite Hl. now rewrite Hsame.
  - unfold setListeners. cbn [snd listeners currentRunId]. split; [|exact Hid1].
    rewrite Hl. cbn [remove_listener]. rewrite same_runId_refl. reflexivity.
Qed.

Lemma settled_run (es : list Event) (w : World) : settled w -> settled (run w es).
Proof.
  revert w. induction es as [|e es IH]; intros w Hw; [exact Hw|].
  cbn [run fold_left]. apply IH, settled_step, Hw.
Qed.

Lemma unload_sends (w : World) :
  settled w ->
  beacons (step w BeforeUnload) = (beacons w ++ deletions [currentRunId w])%list.
Proof.
  intros [Hls _]. rewrite step_unfold. unfold beacons.
  destruct (unload_effect_frame (currentRunId w) (snd (handle BeforeUnload w))) as [-> _].
  unfold handle. rewrite dispatch_sends, Hls. cbn [snd effects].
  now rewrite sent_app, sent_beacons.
Qed.

Lemma step_sent (w : World) (e : Event) :
  e <> BeforeUnload -> beacons (step w e) = beacons w.
Proof.
  intros He. rewrite step_unfold. unfold beacons.
  destruct (unload_effect_frame (currentRunId w) (snd (handle e w))) as [-> _].
  now apply handle_sent.
Qed.

(** C6. Cleanup gating: whatever happened to the mounted page before,
    when [beforeunload] fires with no runId set no deletion request is
    sent; with the runId R1 exactly one is sent, a beacon whose body is
    the JSON text of [{ run_id: R1, runId: R1 }], which contains R1. *)
Theorem cleanup_gating (es : list Event) :
  let w := run mounted es in
  (currentRunId w = None -> beacons (step w BeforeUnload) = beacons w)
  /\ (currentRunId w = Some "R1" ->
      beacons (step w BeforeUnload) = (beacons w ++ [delete_run_body "R1"])%list
      /\ JsString.includes "R1" (delete_run_body "R1") = true).
Proof.
  cbv zeta. pose proof (settled_run es mounted settled_mounted) as Hw.
  split; intros Hid; rewrite (unload_sends _ Hw), Hid.
  - cbn [deletions flat_map]. now rewrite app_nil_r.
  - split; reflexivity.
Qed.

Lemma cleanup_gating_witness :
  let fresh := run mounted [] in
  let resolved := run mounted [TrainingComplete (render mounted) "R1" (Data false)] in
  beacons (step fresh BeforeUnload) = []
  /\ beacons (step resolved BeforeUnload) = [delete_run_body "R1"]
  /\ JsString.includes "R1" (delete_run_body "R1") = true.
Proof.
  intros fresh resolved.
  destruct (cleanup_gating []) as [Hnone _].
  destruct (cleanup_gating [TrainingComplete (render mounted) "R1" (Data false)])
    as [_ Hsome].
  split; [exact (Hnone eq_refl) | exact (Hsome eq_refl)].
Defined.

(** C7, as the page has it.  Whatever happened to the mounted page
    before: unmounting sends no deletion request, nor does the retry
    button or any event but [beforeunload]; [beforeunload] with a runId
    set sends exactly one. *)
Theorem cleanup_only_at_unload (es : list Event) :
  let w := run mounted es in
  beacons (exec unmount w) = beacons w
  /\ (forall e, e <> BeforeUnload -> beacons (step w e) = beacons w)
  /\ (forall r, currentRunId w = Some r ->
        beacons (step w BeforeUnload) = (beacons w ++ [delete_run_body r])%list).
Proof.
  cbv zeta. pose proof (settled_run es mounted settled_mounted) as Hw.
  split; [apply unmount_sent|]. split; [intros e He; now apply step_sent|].
  intros r Hr. rewrite (unload_sends _ Hw), Hr.
  cbn [deletions flat_map]. destruct Hw as [_ Hid]. rewrite (Hid r Hr). reflexivity.
Qed.

Lemma cleanup_only_at_unload_witness :
  let w := run mounted [TrainingComplete (render mounted) "R1" (Data true)] in
  beacons (exec unmount w) = []
  /\ beacons (step w (RetryClick (Data true))) = []
  /\ beacons (step w BeforeUnload) = [delete_run_body "R1"].
Proof.
  intros w.
  destruct (cleanup_only_at_unload [TrainingComplete (render mounted) "R1" (Data true)])
    as (Hunmount & Hother & Hunload).
  split; [exact Hunmount|]. split.
  - apply (Hother (RetryClick (Data true))). discriminate.
  - exact (Hunload "R1" eq_refl).
Defined.

(** C7 as stated fails.  With the runId R1 set, unmounting the page
    sends no deletion request; and on the page whose polling failed,
    where the retry button shows, a click on it sends none either. *)
Lemma cleanup_not_on_every_exit :
  let w := run mounted [TrainingComplete (render mounted) "R1" (Data true)] in
  let polled := run mounted (TrainingComplete (render mounted) "R1" (Data false)
                             :: repeat (Timer 1 (Data false)) 22) in
  let failed := step polled (TrainingComplete (render polled) "R1" (Data false)) in
  (currentRunId w = Some "R1" /\ beacons (exec unmount w) = [])
  /\ (currentRunId failed = Some "R1" /\ retry_shown failed = true
      /\ beacons (step failed (RetryClick (Data false))) = []).
Proof. vm_compute. repeat split. Qed.

(** *** The run identifier on the page *)

(** Once a run is known to the page, polling, retrying, forcing the
    display and unloading never change [currentRunId]; only the
    completion of another training does. *)
Lemma currentRunId_stable (w : World) (e : Event) :
  (forall seen runId reply, e <> TrainingComplete seen runId reply) ->
  currentRunId (step w e) = currentRunId w.
Proof.
  intros He. rewrite step_unfold.
  destruct (unload_effect_frame (currentRunId w) (snd (handle e w))) as (_ & -> & _).
  destruct (handle_currentRunId e w) as [Hsame | (seen & runId & reply & Heq & _)];
    [exact Hsame | now apply He in Heq].
Qed.

End HomePageFacts.

(** ** More on text: decimal digits and line breaks *)

Module TextFacts.
Import JsString JsStringFacts Text.

Lemma string_of_uint_digits (d : Decimal.uint) :
  all_chars is_digit (NilEmpty.string_of_uint d) = true.
Proof. induction d; cbn; try reflexivity; exact IHd. Qed.

Lemma to_little_uint_not_nil (n : nat) (acc : Decimal.uint) :
  acc <> Decimal.Nil -> Nat.to_little_uint n acc <> Decimal.Nil.
Proof.
  revert acc. induction n as [|n IH]; intros acc Hacc; cbn; [exact Hacc|].
  apply IH. destruct acc; cbn; try discriminate;
    destruct (Decimal.Little.succ acc); discriminate.
Qed.

Lemma to_uint_not_nil (n : nat) : Nat.to_uint n <> Decimal.Nil.
Proof.
  unfold Nat.to_uint. intros Hnil.
  assert (Hd : Decimal.nb_digits (Decimal.rev (Nat.to_little_uint n Decimal.zero)) = 0)
    by now rewrite Hnil.
  rewrite DecimalFacts.nb_digits_rev in Hd.
  apply DecimalFacts.nb_digits_0 in Hd.
  revert Hd. apply to_little_uint_not_nil. discriminate.
Qed.

(** [String(n)] is made of decimal digits, at least one, and tells [n]. *)
Lemma of_nat_digits (n : nat) : all_chars is_digit (of_nat n) = true.
Proof. apply string_of_uint_digits. Qed.

Lemma of_nat_head (n : nat) :
  exists c rest, of_nat n = String c rest /\ is_digit c = true.
Proof.
  pose proof (of_nat_digits n) as Hd. pose proof (to_uint_not_nil n) as Hn.
  unfold of_nat in *. destruct (Nat.to_uint n); try contradiction; cbn in *;
    eexists; eexists; split; reflexivity.
Qed.

Lemma of_nat_inj (n m : nat) : of_nat n = of_nat m -> n = m.
Proof.
  unfold of_nat. intros H.
  apply DecimalNat.Unsigned.to_uint_inj.
  assert (Hs : Some (Nat.to_uint n) = Some (Nat.to_uint m))
    by now rewrite <- !NilEmpty.usu, H.
  now injection Hs.
Qed.

Lemma append_inj_l (p a b : string) : p ++ a = p ++ b -> a = b.
Proof. induction p as [|c p IH]; cbn; intros H; [exact H|]. injection H as H. now apply IH. Qed.

Lemma concat_app (xs ys : list string) : concat (xs ++ ys) = concat xs ++ concat ys.
Proof.
  induction xs as [|x xs IH]; cbn; [reflexivity|].
  now rewrite IH, append_assoc.
Qed.

Lemma contains_char_app (c : ascii) (a b : string) :
  contains_char c (a ++ b) = contains_char c a || contains_char c b.
Proof.
  induction a as [|x a IH]; cbn; [reflexivity|].
  now rewrite IH, Bool.orb_assoc.
Qed.

(** A text without the separator is one piece. *)
Lemma split_free (sep : ascii) (s : string) :
  contains_char sep s = false -> split sep s = [s].
Proof.
  induction s as [|c s IH]; cbn; [reflexivity|]. intros H.
  apply Bool.orb_false_iff in H as [Hc Hs]. rewrite Hc, (IH Hs). reflexivity.
Qed.

(** No piece of a split holds the separator. *)
Lemma split_pieces_free (sep : ascii) (s : string) :
  Forall (fun p => contains_char sep p = false) (split sep s).
Proof.
  induction s as [|c s IH]; cbn; [repeat constructor|].
  destruct (Ascii.eqb c sep) eqn:Hc; [constructor; [reflexivity | exact IH]|].
  destruct (split sep s) as [|p ps]; [repeat constructor; cbn; now rewrite Hc|].
  inversion IH as [|? ? Hp Hps]; subst. constructor; [|exact Hps].
  cbn. now rewrite Hc.
Qed.

Lemma residual_free (text : string) : contains_char newline (residual text) = false.
Proof.
  unfold residual.
  pose proof (split_pieces_free newline text) as Hall.
  pose proof (split_not_nil newline text) as Hne.
  rewrite (app_removelast_last EmptyString Hne) in Hall.
  apply Forall_app in Hall as [_ Hlast]. now inversion Hlast.
Qed.

Lemma complete_lines_free (text : string) :
  contains_char newline text = false -> complete_lines text = [].
Proof. intros H. unfold complete_lines. now rewrite (split_free _ _ H). Qed.

Lemma residual_of_free (text : string) :
  contains_char newline text = false -> residual text = text.
Proof. intros H. unfold residual. now rewrite (split_free _ _ H). Qed.

(** Text that follows without a line break completes no line. *)
Lemma complete_lines_tail (text tail : string) :
  contains_char newline tail = false ->
  complete_lines (text ++ tail) = complete_lines text.
Proof.
  intros H. rewrite complete_lines_app.
  rewrite (complete_lines_free (residual text ++ tail)); [apply app_nil_r|].
  now rewrite contains_char_app, residual_free, H.
Qed.

End TextFacts.
(** ** The training request: what the claims leave of [handleStartTraining] *)

Module TrainingFacts.
Import Json FLVisualizer JsStringFacts DecoderFacts TextFacts.

Section Decoding.

Variable JSON_parse : string -> option json.

(** A line adds to the console or leaves it. *)
Lemma line_step_console (l : Loop) (line : string) :
  exists logged, console_errors (component (line_step JSON_parse l line))
                 = (console_errors (component l) ++ logged)%list.
Proof.
  unfold line_step.
  destruct (negb (JsString.truthy (JsString.trim line))).
  { exists []. now rewrite app_nil_r. }
  destruct (JSON_parse line) as [data|]; [|exists [line]; reflexivity].
  destruct (get data "run_id") as [run_id|]; [|exists [line]; reflexivity].
  destruct (formattedData data); [exists []; cbn; now rewrite app_nil_r | exists [line]; reflexivity].
Qed.

(** X1. When the request fails before any body is read ([fetch] rejects, or
    the status is not a success), no run identifier is produced and
    [onComplete] is not called: the handler ends with an error message, no
    rounds, and [training] false. *)
Theorem transport_failure_no_runId
    (onComplete : bool) (result : FetchResult) (now : nat) (s : State) :
  (exists message, result = Rejected message)
  \/ (exists r, result = Resolved r /\ ok r = false) ->
  let s' := handleStartTraining JSON_parse onComplete result now s in
  capturedRunId s' = None
  /\ onComplete_calls s' = onComplete_calls s
  /\ (exists message, error s' = Some message)
  /\ globalLosses s' = []
  /\ training s' = false.
Proof.
  intros Hfail. cbv zeta. unfold handleStartTraining.
  assert (Hon : forall m s0, capturedRunId (on_error m s0) = capturedRunId s0
                             /\ onComplete_calls (on_error m s0) = onComplete_calls s0
                             /\ (exists message, error (on_error m s0) = Some message)
                             /\ globalLosses (on_error m s0) = globalLosses s0).
  { intros m s0. unfold on_error.
    destruct (JsString.includes "Failed to fetch" m);
      [|destruct (JsString.includes "Training endpoint not found" m)];
      (split; [reflexivity|]; split; [reflexivity|]; split; [eexists; reflexivity | reflexivity]). }
  destruct Hfail as [[m ->] | (r & -> & Hok)].
  - destruct (Hon m (setCapturedRunId None (setError None
               (setGlobalLosses (fun _ => []) (setTraining true s))))) as (H1 & H2 & H3 & H4).
    cbn [capturedRunId onComplete_calls error globalLosses training setTraining].
    rewrite H1, H2, H4. repeat split; try reflexivity. exact H3.
  - rewrite Hok. cbn [negb].
    destruct (status r =? 404);
      match goal with |- context [on_error ?m ?s0] => destruct (Hon m s0) as (H1 & H2 & H3 & H4) end;
      cbn [capturedRunId onComplete_calls error globalLosses training setTraining];
      rewrite H1, H2, H4; repeat split; try reflexivity; exact H3.
Qed.

(** X2. A stream that breaks while it is read ([reader.read()] rejects)
    leaves on the chart the rounds of the lines completed before, the same
    as if the stream had ended there; but it produces no run identifier,
    does not call [onComplete], and ends with an error message. *)
Theorem aborted_stream_keeps_rounds
    (onComplete : bool) (r : Response) (values : list string) (message : string)
    (now : nat) (s : State) :
  ok r = true ->
  body r = Some (mkBody values (Some message)) ->
  let s' := handleStartTraining JSON_parse onComplete (Resolved r) now s in
  let ended := handleStartTraining JSON_parse onComplete
                 (Resolved (mkResponse (status r) (text r) (headers r)
                              (Some (mkBody values None)))) now s in
  globalLosses s' = globalLosses ended
  /\ console_errors s' = console_errors ended
  /\ capturedRunId s' = None
  /\ onComplete_calls s' = onComplete_calls s
  /\ (exists shown, error s' = Some shown)
  /\ training s' = false.
Proof.
  intros Hok Hbody. cbv zeta.
  rewrite (handle_body JSON_parse onComplete r values (Some message) now s Hok Hbody).
  assert (Hok' : ok (mkResponse (status r) (text r) (headers r) (Some (mkBody values None)))
                 = true) by exact Hok.
  rewrite (handle_body JSON_parse onComplete (mkResponse (status r) (text r) (headers r)
             (Some (mkBody values None))) values None now s Hok' eq_refl).
  cbv zeta.
  set (l := fold_left _ _ _).
  destruct (lines_frame JSON_parse (JsString.complete_lines (JsString.concat values))
              (mkLoop EmptyString None
                 (setCapturedRunId None (setError None
                    (setGlobalLosses (fun _ => []) (setTraining true s))))))
    as (Hcalls & _ & Hcap & _).
  fold l in Hcalls, Hcap. cbn [component capturedRunId onComplete_calls
    setCapturedRunId setError setGlobalLosses setTraining] in Hcalls, Hcap.
  assert (Hon : forall m s0, capturedRunId (on_error m s0) = capturedRunId s0
                             /\ onComplete_calls (on_error m s0) = onComplete_calls s0
                             /\ (exists shown, error (on_error m s0) = Some shown)
                             /\ globalLosses (on_error m s0) = globalLosses s0
                             /\ console_errors (on_error m s0) = console_errors s0).
  { intros m s0. unfold on_error.
    destruct (JsString.includes "Failed to fetch" m);
      [|destruct (JsString.includes "Training endpoint not found" m)];
      (repeat (split; [reflexivity|]); split; [eexists; reflexivity|]; split; reflexivity). }
  destruct (Hon message (component l)) as (H1 & H2 & H3 & H4 & H5).
  cbn [globalLosses console_errors capturedRunId onComplete_calls error training setTraining].
  rewrite H1, H2, H4, H5, Hcap, Hcalls.
  unfold done_step. destruct onComplete; repeat split; try reflexivity; exact H3.
Qed.

(** X3. What follows the last line break of the stream is never parsed: a
    final chunk without a line break changes nothing in what the handler
    ends with. *)
Theorem unterminated_tail_dropped
    (onComplete : bool) (st : nat) (t : option string) (hs : list (string * string))
    (values : list string) (tail : string) (failure : option string) (now : nat) (s : State) :
  JsString.contains_char JsString.newline tail = false ->
  handleStartTraining JSON_parse onComplete
    (Resolved (mkResponse st t hs (Some (mkBody (values ++ [tail]) failure)))) now s
  = handleStartTraining JSON_parse onComplete
      (Resolved (mkResponse st t hs (Some (mkBody values failure)))) now s.
Proof.
  intros Htail.
  destruct (ok (mkResponse st t hs None)) eqn:Hok.
  - rewrite (handle_body JSON_parse onComplete (mkResponse st t hs (Some (mkBody (values ++ [tail]) failure)))
               (values ++ [tail]) failure now s Hok eq_refl).
    rewrite (handle_body JSON_parse onComplete (mkResponse st t hs (Some (mkBody values failure)))
               values failure now s Hok eq_refl).
    rewrite concat_app. cbn [JsString.concat]. rewrite append_nil_r.
    rewrite (complete_lines_tail _ _ Htail). reflexivity.
  - unfold handleStartTraining. unfold ok in *. cbn [status] in *. rewrite Hok. reflexivity.
Qed.

(** A blank line is passed over. *)
Lemma line_step_blank (l : Loop) (line : string) :
  JsString.truthy (JsString.trim line) = false -> line_step JSON_parse l line = l.
Proof. intros H. unfold line_step. now rewrite H. Qed.

(** X4. A line of white space only, anywhere between the lines of the
    stream, is skipped without a trace: the handler ends as it does on the
    stream without that line, console included. *)
Theorem blank_lines_ignored
    (onComplete : bool) (st : nat) (t : option string) (hs : list (string * string))
    (pre blank post : string) (with_blank without : list string)
    (failure : option string) (now : nat) (s : State) :
  JsString.residual pre = EmptyString ->
  JsString.truthy (JsString.trim blank) = false ->
  JsString.contains_char JsString.newline blank = false ->
  JsString.concat with_blank = pre ++ JsString.line blank ++ post ->
  JsString.concat without = pre ++ post ->
  handleStartTraining JSON_parse onComplete
    (Resolved (mkResponse st t hs (Some (mkBody with_blank failure)))) now s
  = handleStartTraining JSON_parse onComplete
      (Resolved (mkResponse st t hs (Some (mkBody without failure)))) now s.
Proof.
  intros Hpre Hblank Hfree Hwith Hwithout.
  destruct (ok (mkResponse st t hs None)) eqn:Hok.
  - rewrite (handle_body JSON_parse onComplete (mkResponse st t hs (Some (mkBody with_blank failure)))
               with_blank failure now s Hok eq_refl).
    rewrite (handle_body JSON_parse onComplete (mkResponse st t hs (Some (mkBody without failure)))
               without failure now s Hok eq_refl).
    rewrite Hwith, Hwithout.
    destruct (complete_lines_line pre blank post Hpre Hfree) as [-> _].
    destruct (complete_lines_joined pre post Hpre) as [-> _].
    cbv zeta. rewrite !fold_left_app. cbn [fold_left].
    rewrite (line_step_blank _ blank Hblank). reflexivity.
  - unfold handleStartTraining. unfold ok in *. cbn [status] in *. rewrite Hok. reflexivity.
Qed.

(** A line adds at most one round, at the end. *)
Lemma line_step_rounds (l : Loop) (line : string) :
  exists added, globalLosses (component (line_step JSON_parse l line))
                = (globalLosses (component l) ++ added)%list.
Proof.
  unfold line_step.
  destruct (negb (JsString.truthy (JsString.trim line))).
  { exists []. now rewrite app_nil_r. }
  destruct (JSON_parse line) as [data|]; [|exists []; cbn; now rewrite app_nil_r].
  destruct (get data "run_id") as [run_id|]; [|exists []; cbn; now rewrite app_nil_r].
  destruct (formattedData data) as [round|];
    [exists [round]; reflexivity | exists []; cbn; now rewrite app_nil_r].
Qed.

Lemma lines_rounds (lines : list string) (l : Loop) :
  exists added, globalLosses (component (fold_left (line_step JSON_parse) lines l))
                = (globalLosses (component l) ++ added)%list.
Proof.
  revert l. induction lines as [|line lines IH]; intros l; cbn [fold_left].
  - exists []. now rewrite app_nil_r.
  - destruct (IH (line_step JSON_parse l line)) as [more Hmore].
    destruct (line_step_rounds l line) as [added Hadded].
    exists (added ++ more)%list. now rewrite Hmore, Hadded, app_assoc.
Qed.

(** X5. While a stream is read the chart only grows: the rounds shown
    after more chunks are the rounds shown before, followed by new ones. *)
Theorem rounds_append_only (before after : list string) (s : State) :
  exists added,
    globalLosses (component (read_all JSON_parse (before ++ after) s))
    = (globalLosses (component (read_all JSON_parse before s)) ++ added)%list.
Proof.
  rewrite read_all_app.
  generalize (read_all JSON_parse before s). intros l. revert l.
  induction after as [|v after IH]; intros l; cbn [fold_left].
  - exists []. now rewrite app_nil_r.
  - destruct (IH (chunk_step JSON_parse l v)) as [more Hmore].
    rewrite chunk_step_lines in Hmore |- *.
    destruct (lines_rounds (JsString.complete_lines (buffer l ++ v))
                (mkLoop (JsString.residual (buffer l ++ v)) (streamRunId l) (component l)))
      as [added Hadded].
    cbn [component] in Hadded.
    exists (added ++ more)%list. now rewrite Hmore, Hadded, app_assoc.
Qed.

(** X6. Every complete line of the stream is accounted for exactly once:
    it is blank and skipped, or it is reported on the console, or it
    becomes a round. *)
Theorem every_line_accounted (values : list string) (s : State) :
  let l := read_all JSON_parse values s in
  let lines := JsString.complete_lines (JsString.concat values) in
  length (globalLosses (component l)) + length (console_errors (component l))
  + length (filter (fun line => negb (JsString.truthy (JsString.trim line))) lines)
  = length (globalLosses s) + length (console_errors s) + length lines.
Proof.
  cbv zeta. rewrite read_all_lines.
  generalize (JsString.residual (JsString.concat values)). intros b.
  change s with (component (mkLoop b None s)) at 3 4.
  generalize (mkLoop b None s). intros l. revert l.
  induction (JsString.complete_lines (JsString.concat values)) as [|line lines IH];
    intros l; cbn [fold_left filter length]; [lia|].
  specialize (IH (line_step JSON_parse l line)).
  assert (Hstep :
    length (globalLosses (component (line_step JSON_parse l line)))
    + length (console_errors (component (line_step JSON_parse l line)))
    + (if negb (JsString.truthy (JsString.trim line)) then 1 else 0)
    = length (globalLosses (component l)) + length (console_errors (component l)) + 1).
  { unfold line_step.
    destruct (negb (JsString.truthy (JsString.trim line))); [lia|].
    destruct (JSON_parse line) as [data|];
      [|cbn [component console_errors globalLosses console_error]; rewrite length_app; cbn; lia].
    destruct (get data "run_id") as [run_id|];
      [|cbn [component console_errors globalLosses console_error]; rewrite length_app; cbn; lia].
    destruct (formattedData data);
      cbn [component console_errors globalLosses console_error setGlobalLosses];
      rewrite length_app; cbn; lia. }
  destruct (negb (JsString.truthy (JsString.trim line))); cbn [length]; lia.
Qed.

End Decoding.

Lemma transport_failure_no_runId_witness :
  let r := mkResponse 500 (Some "Internal Server Error") [("x-run-id", "H")] None in
  let s' := handleStartTraining Sample.parse true (Resolved r) 2000 initial in
  capturedRunId s' = None
  /\ onComplete_calls s' = []
  /\ error s' = Some "Training failed: HTTP error! status: 500, body: Internal Server Error"
  /\ globalLosses s' = []
  /\ training s' = false.
Proof.
  intros r.
  destruct (transport_failure_no_runId Sample.parse true (Resolved r) 2000 initial)
    as (Hcap & Hcalls & _ & Hrounds & Htraining).
  - right. exists r. split; reflexivity.
  - split; [exact Hcap|]. split; [exact Hcalls|]. split; [vm_compute; reflexivity|].
    split; [exact Hrounds | exact Htraining].
Defined.

Lemma aborted_stream_keeps_rounds_witness :
  let values := [JsString.line Sample.round1; substring 0 40 Sample.round2] in
  let r := mkResponse 200 None [] (Some (mkBody values (Some "network error"))) in
  let s' := handleStartTraining Sample.parse true (Resolved r) 2000 initial in
  globalLosses s' = [Sample.formatted_round 1 (9 # 10)]
  /\ capturedRunId s' = None
  /\ onComplete_calls s' = []
  /\ error s' = Some "Training failed: network error".
Proof.
  intros values r.
  destruct (aborted_stream_keeps_rounds Sample.parse true r values "network error" 2000 initial
              eq_refl eq_refl) as (Hrounds & _ & Hcap & Hcalls & _ & _).
  split; [rewrite Hrounds; vm_compute; reflexivity|].
  split; [exact Hcap|]. split; [exact Hcalls | vm_compute; reflexivity].
Defined.

Lemma unterminated_tail_dropped_witness :
  handleStartTraining Sample.parse true
    (Resolved (Sample.streamed [] [JsString.line Sample.round1; Sample.round2])) 2000 initial
  = handleStartTraining Sample.parse true
      (Resolved (Sample.streamed [] [JsString.line Sample.round1])) 2000 initial.
Proof.
  exact (unterminated_tail_dropped Sample.parse true 200 None []
           [JsString.line Sample.round1] Sample.round2 None 2000 initial eq_refl).
Defined.

Lemma blank_lines_ignored_witness :
  let pre := JsString.line Sample.round1 in
  let post := JsString.line Sample.round2 in
  handleStartTraining Sample.parse true
    (Resolved (Sample.streamed [] [pre; JsString.line "   "; post])) 2000 initial
  = handleStartTraining Sample.parse true
      (Resolved (Sample.streamed [] [pre; post])) 2000 initial.
Proof.
  intros pre post.
  apply (blank_lines_ignored Sample.parse true 200 None [] pre "   " post
           [pre; JsString.line "   "; post] [pre; post] None 2000 initial);
    vm_compute; reflexivity.
Defined.

End TrainingFacts.
(** ** Rounds *)

Module RoundFacts.
Import Json FLVisualizer JsStringFacts DecoderFacts TextFacts TrainingFacts Round.

Lemma numbered_keys (prefix : string) (es : list (string * json)) :
  map fst (numbered prefix es)
  = map (key prefix) (seq 1 (length es)).
Proof.
  unfold numbered. generalize 0 as from.
  induction es as [|e es IH]; intros from; cbn; [reflexivity|].
  now rewrite IH.
Qed.

Lemma numbered_values (prefix : string) (es : list (string * json)) :
  map snd (numbered prefix es) = map (fun e => Some (or_zero (snd e))) es.
Proof.
  unfold numbered. generalize 0 as from.
  induction es as [|e es IH]; intros from; cbn; [reflexivity|].
  now rewrite IH.
Qed.

Lemma NoDup_map_inj {A B : Type} (f : A -> B) (l : list A) :
  (forall x y, f x = f y -> x = y) -> NoDup l -> NoDup (map f l).
Proof.
  intros Hinj Hl. induction Hl as [|x l Hx Hl IH]; cbn; constructor; [|exact IH].
  intros Hin. apply in_map_iff in Hin as (y & Hy & Hyl).
  apply Hinj in Hy. now subst.
Qed.

Lemma numbered_keys_NoDup (prefix : string) (n : nat) :
  NoDup (map (key prefix) (seq 1 n)).
Proof.
  apply NoDup_map_inj; [|apply seq_NoDup].
  intros x y H. apply append_inj_l in H. now apply of_nat_inj.
Qed.

(** What the two entry lists of a value that makes a round are. *)
Lemma formattedData_entries (data : json) (round : RoundData) :
  formattedData data = Some round ->
  exists fields train val,
    data = JObj fields
    /\ entries (assoc "client_train" fields) = Some train
    /\ entries (assoc "client_val" fields) = Some val
    /\ round = ([("round", assoc "round" fields); ("global_loss", assoc "global_loss" fields)]
                  ++ numbered "client_train_" train ++ numbered "client_" val)%list.
Proof.
  unfold formattedData. destruct data as [| b | n | s | items | fields];
    try (cbn; discriminate).
  cbn [get].
  destruct (entries (assoc "client_train" fields)) as [train|] eqn:Ht; [|discriminate].
  destruct (entries (assoc "client_val" fields)) as [val|] eqn:Hv; [|discriminate].
  intros H. injection H as <-. exists fields, train, val. repeat split; assumption.
Qed.

(** X7. The keys of a round: [round], [global_loss], then
    [client_train_1] to [client_train_n] and [client_1] to [client_m], for
    the [n] entries of [client_train] and the [m] of [client_val]; no key
    occurs twice, so no loss overwrites another. *)
Theorem formattedData_keys (data : json) (round : RoundData) :
  formattedData data = Some round ->
  exists fields train val,
    data = JObj fields
    /\ entries (assoc "client_train" fields) = Some train
    /\ entries (assoc "client_val" fields) = Some val
    /\ map fst round
       = ("round" :: "global_loss"
            :: map (key "client_train_") (seq 1 (length train))
            ++ map (key "client_") (seq 1 (length val)))%list
    /\ NoDup (map fst round).
Proof.
  intros H. destruct (formattedData_entries data round H) as (fields & train & val & -> & Ht & Hv & ->).
  exists fields, train, val. split; [reflexivity|]. split; [exact Ht|]. split; [exact Hv|].
  assert (Hkeys : map fst
    ([("round", assoc "round" fields); ("global_loss", assoc "global_loss" fields)]
       ++ numbered "client_train_" train ++ numbered "client_" val)%list
    = ("round" :: "global_loss"
         :: map (key "client_train_") (seq 1 (length train))
         ++ map (key "client_") (seq 1 (length val)))%list).
  { cbn [app map fst]. rewrite map_app, !numbered_keys. reflexivity. }
  split; [exact Hkeys|]. rewrite Hkeys.
  assert (Hclient : forall k i, In k (map (key "client_train_") (seq 1 i))
                                \/ In k (map (key "client_") (seq 1 i)) ->
                                exists rest, k = String "c" rest).
  { intros k i [Hin|Hin]; apply in_map_iff in Hin as (j & <- & _); eexists; reflexivity. }
  constructor.
  { intros [Heq|Hin]; [discriminate|].
    apply in_app_or in Hin as [Hin|Hin];
      [destruct (Hclient "round" (length train) (or_introl Hin)) as [rest Hrest]
      |destruct (Hclient "round" (length val) (or_intror Hin)) as [rest Hrest]]; discriminate. }
  constructor.
  { intros Hin.
    apply in_app_or in Hin as [Hin|Hin];
      [destruct (Hclient "global_loss" (length train) (or_introl Hin)) as [rest Hrest]
      |destruct (Hclient "global_loss" (length val) (or_intror Hin)) as [rest Hrest]]; discriminate. }
  apply NoDup_app; [apply numbered_keys_NoDup | apply numbered_keys_NoDup |].
  intros k Ht' Hv'.
  apply in_map_iff in Ht' as (i & <- & _). apply in_map_iff in Hv' as (j & Hj & _).
  unfold key in Hj. cbn [append] in Hj. injection Hj as Hj.
  destruct (of_nat_head j) as (c & rest & Hhead & Hdigit). rewrite Hhead in Hj.
  injection Hj as Hc _. subst c. discriminate.
Qed.

(** X8. Every loss of a client in a round is a truthy value or the number
    zero: a loss that is [null], [false], zero or the empty string goes to
    the chart as 0. *)
Theorem formattedData_losses (data : json) (round : RoundData) :
  formattedData data = Some round ->
  Forall (fun entry => exists j, snd entry = Some j /\ (truthy j = true \/ j = JNum (Finite 0)))
         (skipn 2 round).
Proof.
  intros H. destruct (formattedData_entries data round H) as (fields & train & val & _ & _ & _ & ->).
  cbn [app skipn].
  assert (Hnum : forall prefix es,
            Forall (fun entry => exists j, snd entry = Some j
                                           /\ (truthy j = true \/ j = JNum (Finite 0)))
                   (numbered prefix es)).
  { intros prefix es. unfold numbered. apply Forall_map, Forall_forall. intros p _.
    cbn [snd]. eexists. split; [reflexivity|]. unfold or_zero.
    destruct (truthy (snd (snd p))) eqn:Ht; [left; exact Ht | right; reflexivity]. }
  apply Forall_app. split; apply Hnum.
Qed.

Lemma entries_present (fields : list (string * json)) (name : string) :
  entries (assoc name fields) <> None <-> present fields name = true.
Proof.
  unfold present. destruct (assoc name fields) as [[| | | | |]|]; cbn; split;
    intros H; try reflexivity; try discriminate; try congruence.
Qed.

(** X9. A parsed line makes a round exactly when it is an object whose
    [client_train] and [client_val] are there and not [null]; whatever else
    [JSON.parse] returns is dropped in the [catch]. *)
Theorem formattedData_defined (data : json) :
  formattedData data <> None
  <-> exists fields, data = JObj fields
                     /\ present fields "client_train" = true
                     /\ present fields "client_val" = true.
Proof.
  split.
  - destruct (formattedData data) as [round|] eqn:H; [|congruence]. intros _.
    destruct (formattedData_entries data round H) as (fields & train & val & -> & Ht & Hv & _).
    exists fields. split; [reflexivity|].
    split; apply entries_present; congruence.
  - intros (fields & -> & Ht & Hv).
    apply entries_present in Ht, Hv.
    unfold formattedData. cbn [get].
    destruct (entries (assoc "client_train" fields)); [|congruence].
    destruct (entries (assoc "client_val" fields)); [discriminate | congruence].
Qed.

Section Decoding.

Variable JSON_parse : string -> option json.

(** X10. The run identifier of a line is taken before the line is found
    wanting: a stream whose only line is an object with a truthy [run_id]
    and no [client_train], under a response without the header, gives that
    [run_id] to [onComplete] although the line is reported on the console
    and no round is shown. *)
Theorem run_id_of_dropped_line
    (line : string) (fields : list (string * json)) (j : json)
    (values : list string) (r : Response) (now : nat) (s : State) :
  JsString.truthy (JsString.trim line) = true ->
  JsString.contains_char JsString.newline line = false ->
  JSON_parse line = Some (JObj fields) ->
  assoc "run_id" fields = Some j -> truthy j = true ->
  present fields "client_train" = false ->
  ok r = true -> body r = Some (mkBody values None) ->
  headers_get (headers r) "x-run-id" = None ->
  JsString.concat values = JsString.line line ->
  let s' := handleStartTraining JSON_parse true (Resolved r) now s in
  capturedRunId s' = Some j
  /\ onComplete_calls s' = (onComplete_calls s ++ [j])%list
  /\ globalLosses s' = []
  /\ console_errors s' = (console_errors s ++ [line])%list.
Proof.
  intros Hblank Hfree Hparse Hid Htruthy Hmissing Hok Hbody Hheader Hcut. cbv zeta.
  rewrite (handle_body JSON_parse true r values None now s Hok Hbody). cbv zeta.
  rewrite Hcut.
  assert (Hlines : JsString.complete_lines (JsString.line line) = [line]).
  { unfold JsString.complete_lines.
    rewrite <- (append_nil_r (JsString.line line)), (split_line line _ Hfree). reflexivity. }
  rewrite Hlines. cbn [fold_left].
  assert (Hfmt : formattedData (JObj fields) = None).
  { destruct (formattedData (JObj fields)) as [round|] eqn:H; [|reflexivity].
    destruct (formattedData_entries _ round H) as (fields' & train & val & Heq & Ht & _).
    injection Heq as <-.
    assert (Hp : present fields "client_train" = true) by (apply entries_present; congruence).
    congruence. }
  unfold line_step. rewrite Hblank, Hparse. cbn [negb get]. rewrite Hid, Hfmt.
  cbn [value_truthy streamRunId unset andb]. rewrite Htruthy. cbn [andb].
  unfold done_step. rewrite runIdFromHeader_get, Hheader.
  unfold finalRunId. cbn [JsString.or_else streamRunId]. rewrite Htruthy.
  repeat split.
Qed.

(** X11. [onComplete] is called at most once by a training request, and
    never with an identifier that is empty or otherwise falsy: so the
    guard of the page against an empty runId is never taken on this path. *)
Theorem onComplete_never_empty
    (onComplete : bool) (result : FetchResult) (now : nat) (s : State) :
  let s' := handleStartTraining JSON_parse onComplete result now s in
  exists added,
    onComplete_calls s' = (onComplete_calls s ++ added)%list
    /\ length added <= 1
    /\ Forall (fun runId => truthy runId = true) added.
Proof.
  cbv zeta.
  assert (Hon : forall m s0, onComplete_calls (on_error m s0) = onComplete_calls s0).
  { intros m s0. unfold on_error.
    destruct (JsString.includes "Failed to fetch" m);
      [|destruct (JsString.includes "Training endpoint not found" m)]; reflexivity. }
  assert (Hnone : forall s', onComplete_calls s' = onComplete_calls s ->
            exists added, onComplete_calls s' = (onComplete_calls s ++ added)%list
                          /\ length added <= 1
                          /\ Forall (fun runId => truthy runId = true) added).
  { intros s' ->. exists []. rewrite app_nil_r. repeat constructor. }
  assert (Hfinal : forall h r0, truthy (finalRunId h r0 now) = true).
  { intros h r0. unfold finalRunId.
    destruct h as [[|c h]|]; cbn [JsString.or_else JsString.truthy]; try reflexivity;
      (destruct r0 as [j|]; [destruct (truthy j) eqn:Hj; [exact Hj|]|]; reflexivity). }
  destruct result as [message | r].
  - apply Hnone. unfold handleStartTraining. cbn [onComplete_calls setTraining].
    now rewrite Hon.
  - destruct (ok r) eqn:Hok.
    + destruct (body r) as [[values failure]|] eqn:Hbody.
      * rewrite (handle_body JSON_parse onComplete r values failure now s Hok Hbody). cbv zeta.
        set (l := fold_left _ _ _).
        assert (Hcalls : onComplete_calls (component l) = onComplete_calls s).
        { subst l. now destruct (lines_frame JSON_parse
            (JsString.complete_lines (JsString.concat values))
            (mkLoop EmptyString None (setCapturedRunId None (setError None
               (setGlobalLosses (fun _ => []) (setTraining true s)))))) as [-> _]. }
        destruct failure as [message|].
        -- apply Hnone. cbn [onComplete_calls setTraining]. now rewrite Hon.
        -- unfold done_step. destruct onComplete.
           ++ exists [finalRunId (runIdFromHeader r) (streamRunId l) now].
              cbn [onComplete_calls setTraining call_onComplete setCapturedRunId].
              rewrite Hcalls. split; [reflexivity|]. split; [cbn; lia|].
              constructor; [apply Hfinal | constructor].
           ++ apply Hnone. cbn [onComplete_calls setTraining setError setCapturedRunId].
              exact Hcalls.
      * unfold handleStartTraining. rewrite Hok, Hbody. cbn [negb].
        destruct onComplete.
        -- exists [JStr (fallback now)]. split; [reflexivity|]. split; [cbn; lia|].
           constructor; [reflexivity | constructor].
        -- apply Hnone. reflexivity.
    + apply Hnone. unfold handleStartTraining. rewrite Hok. cbn [negb].
      destruct (status r =? 404); cbn [onComplete_calls setTraining]; now rewrite Hon.
Qed.

(** Lines act on what the page shows in the same way whatever the logs
    hold. *)
Lemma line_step_same_view (l1 l2 : Loop) (line : string) :
  streamRunId l1 = streamRunId l2 ->
  same_view (component l1) (component l2) ->
  streamRunId (line_step JSON_parse l1 line) = streamRunId (line_step JSON_parse l2 line)
  /\ same_view (component (line_step JSON_parse l1 line))
               (component (line_step JSON_parse l2 line)).
Proof.
  intros Hid (Hg & Ht & He & Hc). unfold line_step, same_view.
  destruct (negb (JsString.truthy (JsString.trim line))); [repeat split; assumption|].
  destruct (JSON_parse line) as [data|]; [|repeat split; assumption].
  destruct (get data "run_id") as [run_id|]; [|repeat split; assumption].
  destruct (formattedData data);
    cbn [streamRunId component globalLosses training error capturedRunId
         setGlobalLosses console_error];
    rewrite Hid, ?Hg; repeat split; assumption.
Qed.

Lemma lines_same_view (lines : list string) (l1 l2 : Loop) :
  streamRunId l1 = streamRunId l2 ->
  same_view (component l1) (component l2) ->
  streamRunId (fold_left (line_step JSON_parse) lines l1)
  = streamRunId (fold_left (line_step JSON_parse) lines l2)
  /\ same_view (component (fold_left (line_step JSON_parse) lines l1))
               (component (fold_left (line_step JSON_parse) lines l2)).
Proof.
  revert l1 l2. induction lines as [|line lines IH]; intros l1 l2 Hid Hview;
    cbn [fold_left]; [split; assumption|].
  destruct (line_step_same_view l1 l2 line Hid Hview) as [Hid' Hview'].
  now apply IH.
Qed.

(** X12. A training request starts from a clean slate: the rounds, the
    error, the run identifier and the progress flag it ends with are the
    same whatever the component showed before. *)
Theorem training_starts_clean
    (onComplete : bool) (result : FetchResult) (now : nat) (s1 s2 : State) :
  same_view (handleStartTraining JSON_parse onComplete result now s1)
            (handleStartTraining JSON_parse onComplete result now s2).
Proof.
  assert (Hon : forall m a b, same_view a b -> same_view (on_error m a) (on_error m b)).
  { intros m a b (Hg & Ht & He & Hc). unfold on_error, same_view.
    destruct (JsString.includes "Failed to fetch" m);
      [|destruct (JsString.includes "Training endpoint not found" m)];
      cbn [globalLosses training error capturedRunId setError]; repeat split; assumption. }
  assert (Hend : forall a b, same_view a b -> same_view (setTraining false a) (setTraining false b)).
  { intros a b (Hg & Ht & He & Hc). unfold same_view.
    cbn [globalLosses training error capturedRunId setTraining]. repeat split; assumption. }
  assert (Hstart : same_view
            (setCapturedRunId None (setError None
               (setGlobalLosses (fun _ => []) (setTraining true s1))))
            (setCapturedRunId None (setError None
               (setGlobalLosses (fun _ => []) (setTraining true s2)))))
    by (repeat split).
  destruct result as [message | r].
  - unfold handleStartTraining. apply Hend, Hon, Hstart.
  - destruct (ok r) eqn:Hok.
    + destruct (body r) as [[values failure]|] eqn:Hbody.
      * rewrite !(handle_body JSON_parse onComplete r values failure now _ Hok Hbody). cbv zeta.
        destruct (lines_same_view (JsString.complete_lines (JsString.concat values))
                    (mkLoop EmptyString None
                       (setCapturedRunId None (setError None
                          (setGlobalLosses (fun _ => []) (setTraining true s1)))))
                    (mkLoop EmptyString None
                       (setCapturedRunId None (setError None
                          (setGlobalLosses (fun _ => []) (setTraining true s2)))))
                    eq_refl Hstart)
          as [Hid Hview].
        apply Hend. destruct failure as [message|]; [now apply Hon|].
        unfold done_step. rewrite Hid.
        destruct Hview as (Hg & Ht & He & Hc). unfold same_view.
        destruct onComplete;
          cbn [globalLosses training error capturedRunId setError setCapturedRunId call_onComplete];
          repeat split; assumption.
      * unfold handleStartTraining. rewrite Hok, Hbody. cbn [negb].
        apply Hend. destruct onComplete; repeat split.
    + unfold handleStartTraining. rewrite Hok. cbn [negb].
      apply Hend. destruct (status r =? 404); apply Hon, Hstart.
Qed.

End Decoding.

Lemma formattedData_keys_witness :
  exists fields train val,
    Sample.round_json 1 (9 # 10) "abc" = JObj fields
    /\ entries (assoc "client_train" fields) = Some train
    /\ entries (assoc "client_val" fields) = Some val
    /\ map fst (Sample.formatted_round 1 (9 # 10))
       = ("round" :: "global_loss"
            :: map (key "client_train_") (seq 1 (length train))
            ++ map (key "client_") (seq 1 (length val)))%list
    /\ NoDup (map fst (Sample.formatted_round 1 (9 # 10))).
Proof.
  exact (formattedData_keys (Sample.round_json 1 (9 # 10) "abc")
           (Sample.formatted_round 1 (9 # 10)) eq_refl).
Defined.

Lemma formattedData_losses_witness :
  let data := JObj [("client_train", JObj [("c1", JNull); ("c2", JNum (Finite (1 # 2)))]);
                    ("client_val", JObj [("c1", JStr "")])] in
  formattedData data
  = Some [("round", None); ("global_loss", None);
          ("client_train_1", Some (JNum (Finite 0))); ("client_train_2", Some (JNum (Finite (1 # 2))));
          ("client_1", Some (JNum (Finite 0)))]
  /\ Forall (fun entry => exists j, snd entry = Some j /\ (truthy j = true \/ j = JNum (Finite 0)))
            [("client_train_1", Some (JNum (Finite 0))); ("client_train_2", Some (JNum (Finite (1 # 2))));
             ("client_1", Some (JNum (Finite 0)))].
Proof.
  intros data. split; [reflexivity|].
  exact (formattedData_losses data _ eq_refl).
Defined.

Lemma run_id_of_dropped_line_witness :
  let s' := handleStartTraining Round.parse_status true
              (Resolved (Sample.streamed [] [JsString.line Round.status_text])) 0 initial in
  capturedRunId s' = Some (JStr "abc")
  /\ onComplete_calls s' = [JStr "abc"]
  /\ globalLosses s' = []
  /\ console_errors s' = [Round.status_text].
Proof.
  exact (run_id_of_dropped_line Round.parse_status Round.status_text
           [("run_id", JStr "abc")] (JStr "abc") [JsString.line Round.status_text]
           (Sample.streamed [] [JsString.line Round.status_text]) 0 initial
           eq_refl eq_refl eq_refl eq_refl eq_refl eq_refl eq_refl eq_refl eq_refl eq_refl).
Defined.

End RoundFacts.
(** ** The poll after it started *)

Module PollFacts.
Import HomePage HomePageFacts.
Local Open Scope page_scope.

Lemma lookup_cleared (h : nat) (l : list (nat * Poll)) :
  lookup h (filter (fun p => negb (fst p =? h)) l) = None.
Proof.
  induction l as [|[k p] l IH]; cbn; [reflexivity|].
  destruct (k =? h) eqn:Hk; cbn; [exact IH|]. now rewrite Hk.
Qed.

Lemma lookup_filter_none (h i : nat) (l : list (nat * Poll)) :
  lookup h l = None -> lookup h (filter (fun p => negb (fst p =? i)) l) = None.
Proof.
  induction l as [|[k p] l IH]; cbn; [reflexivity|].
  destruct (k =? h) eqn:Hk; [discriminate|]. intros H.
  destruct (k =? i); cbn; [now apply IH|]. rewrite Hk. now apply IH.
Qed.

(** A tick of an interval that is not armed does nothing. *)
Lemma tick_of_cleared (w : World) (h : nat) (reply : Reply) :
  lookup h (intervals w) = None -> step w (Timer h reply) = w.
Proof.
  intros Hh. unfold step, exec, handle, bind. rewrite Hh.
  unfold unload_effect. now rewrite same_runId_refl.
Qed.

(** X13. The tick that finds the analysis ready ends the poll: the page
    shows the analysis, the interval that fired is cleared and
    [pollingInterval] is null, one query went out, and later ticks of that
    interval do nothing. *)
Theorem ready_tick_ends_polling (w : World) (h : nat) (p : Poll) :
  lookup h (intervals w) = Some p ->
  JsString.truthy (poll_runId p) = true ->
  let w' := step w (Timer h (Data true)) in
  showAnalysis w' = true
  /\ lookup h (intervals w') = None
  /\ pollingInterval w' = None
  /\ queries w' = (queries w ++ [poll_runId p])%list
  /\ pollingAttempts w' = pollingAttempts w + 1
  /\ error w' = error w
  /\ currentRunId w' = currentRunId w
  /\ forall reply, step w' (Timer h reply) = w'.
Proof.
  intros Hh Hid. cbv zeta.
  assert (Hstep : step w (Timer h (Data true))
                  = snd (interval_callback h p (Data true) w)).
  { unfold step, exec, handle, bind. rewrite Hh.
    destruct (interval_callback h p (Data true) w) as [[] w1] eqn:Hcb. cbn [snd].
    assert (Hsame : currentRunId w1 = currentRunId w).
    { replace w1 with (snd (interval_callback h p (Data true) w)) by now rewrite Hcb.
      destruct p as [runId [a [i|] r]]; cbn [poll_runId] in Hid;
        handlers; rewrite Hid; reflexivity. }
    unfold unload_effect. now rewrite Hsame, same_runId_refl. }
  rewrite Hstep. clear Hstep.
  assert (Hcleared : lookup h (intervals (snd (interval_callback h p (Data true) w))) = None).
  { destruct p as [runId [a [i|] r]]; cbn [poll_runId] in Hid;
      handlers; rewrite Hid; handlers; apply lookup_cleared. }
  unfold queries.
  destruct p as [runId [a [i|] r]]; cbn [poll_runId] in *;
    (repeat split;
     [handlers; rewrite Hid; reflexivity
     |exact Hcleared
     |handlers; rewrite Hid; reflexivity
     |handlers; rewrite Hid; handlers; rewrite ?fetched_app; cbn [fetched flat_map app];
      rewrite ?app_nil_r; reflexivity
     |handlers; rewrite Hid; reflexivity
     |handlers; rewrite Hid; reflexivity
     |handlers; rewrite Hid; reflexivity
     |intros reply; apply tick_of_cleared, Hcleared]).
Qed.

Lemma ready_tick_ends_polling_witness :
  let w := run mounted [TrainingComplete (render mounted) "run-1" (Data false)] in
  let w' := step w (Timer 1 (Data true)) in
  showAnalysis w' = true
  /\ intervals w' = []
  /\ pollingInterval w' = None
  /\ queries w' = ["run-1"; "run-1"]
  /\ step w' (Timer 1 (Data false)) = w'.
Proof.
  intros w.
  destruct (ready_tick_ends_polling w 1 (mkPoll "run-1" (render mounted)) eq_refl eq_refl)
    as (Hshow & _ & Hnull & Hq & _ & _ & _ & Hlater).
  split; [exact Hshow|]. split; [vm_compute; reflexivity|]. split; [exact Hnull|].
  split; [exact Hq | exact (Hlater (Data false))].
Defined.

(** X14. The debug button stops the poll of the current render: the page
    shows the analysis without a query, the interval held in
    [pollingInterval] is cleared, and its later ticks do nothing. *)
Theorem force_show_stops_polling (w : World) (h : nat) :
  force_shown w = true ->
  pollingInterval w = Some h ->
  let w' := step w ForceShowClick in
  showAnalysis w' = true
  /\ lookup h (intervals w') = None
  /\ pollingInterval w' = None
  /\ queries w' = queries w
  /\ currentRunId w' = currentRunId w
  /\ forall reply, step w' (Timer h reply) = w'.
Proof.
  intros Hshown Hh. cbv zeta.
  assert (Hstep : step w ForceShowClick
                  = mkWorld (error w) (trainingDone w) true (currentRunId w) None
                            (pollingAttempts w)
                            (filter (fun p => negb (fst p =? h)) (intervals w))
                            (next_handle w) (listeners w) (effects w ++ [ClearInterval h])).
  { unfold step, exec, handle, bind. rewrite Hshown.
    unfold handleForceShowAnalysis, render, bind. cbn [seen_pollingInterval]. rewrite Hh.
    handlers. unfold unload_effect. cbn [currentRunId]. now rewrite same_runId_refl. }
  rewrite Hstep. unfold queries. cbn [showAnalysis intervals pollingInterval effects currentRunId].
  rewrite fetched_app. cbn [fetched flat_map app]. rewrite app_nil_r.
  repeat split; try apply lookup_cleared.
  intros reply. apply tick_of_cleared. apply lookup_cleared.
Qed.

Lemma force_show_stops_polling_witness :
  let w := run mounted [TrainingComplete (render mounted) "run-1" (Data false)] in
  let w' := step w ForceShowClick in
  showAnalysis w' = true
  /\ intervals w' = []
  /\ queries w' = ["run-1"]
  /\ step w' (Timer 1 (Data false)) = w'.
Proof.
  intros w.
  destruct (force_show_stops_polling w 1 eq_refl eq_refl)
    as (Hshow & _ & _ & Hq & _ & Hlater).
  split; [exact Hshow|]. split; [vm_compute; reflexivity|].
  split; [exact Hq | exact (Hlater (Data false))].
Defined.

(** X15. Retry, on the page where the button shows: the error is cleared,
    the counter restarts (it stands at 1 after the immediate check), the
    same run is queried once at once, and, the analysis not being ready and
    the render having seen fewer than 23 attempts, a new interval is armed
    for that run and held in [pollingInterval]. *)
Theorem retry_restarts_polling (w : World) :
  retry_shown w = true ->
  pollingAttempts w + 1 < maxPollingAttempts ->
  let w' := step w (RetryClick (Data false)) in
  exists runId,
    currentRunId w = Some runId
    /\ currentRunId w' = Some runId
    /\ error w' = None
    /\ trainingDone w' = true
    /\ showAnalysis w' = false
    /\ pollingAttempts w' = 1
    /\ queries w' = (queries w ++ [runId])%list
    /\ armed w' = (armed w ++ [next_handle w])%list
    /\ pollingInterval w' = Some (next_handle w)
    /\ In (next_handle w, mkPoll runId (render w)) (intervals w').
Proof.
  intros Hshown Hseen. cbv zeta. apply Nat.leb_gt in Hseen.
  pose proof Hshown as Hr. unfold retry_shown in Hr.
  destruct (error w) as [msg|] eqn:He; [|discriminate].
  destruct (currentRunId w) as [runId|] eqn:Hc; [|discriminate].
  apply andb_prop in Hr as [_ Hid]. exists runId. split; [reflexivity|].
  assert (Hstep : step w (RetryClick (Data false))
                  = snd (handleRetryPolling (render w) (Data false) w)).
  { unfold step, exec, handle, bind. rewrite Hshown.
    destruct (handleRetryPolling (render w) (Data false) w) as [[] w1] eqn:Hcb. cbn [snd].
    assert (Hsame : currentRunId w1 = Some runId).
    { replace w1 with (snd (handleRetryPolling (render w) (Data false) w)) by now rewrite Hcb.
      handlers. rewrite Hc. cbn [or_empty]. rewrite Hid. handlers.
      rewrite Hseen. destruct (pollingInterval w); reflexivity. }
    unfold unload_effect. rewrite Hsame, Hc. cbn [same_runId]. now rewrite String.eqb_refl. }
  rewrite Hstep. clear Hstep. unfold queries, armed.
  handlers. rewrite Hc. cbn [or_empty]. rewrite Hid. handlers. rewrite Hseen.
  destruct (pollingInterval w) as [i|]; handlers;
    rewrite ?fetched_app, ?armed_by_app; cbn [fetched armed_by flat_map app];
    rewrite ?app_nil_r; repeat split; apply in_or_app; right; left; reflexivity.
Qed.

Lemma retry_restarts_polling_witness :
  let polled := run mounted (TrainingComplete (render mounted) "R1" (Data false)
                             :: repeat (Timer 1 (Data false)) 22) in
  let failed := step polled (TrainingComplete (render polled) "R1" (Data false)) in
  let w' := step failed (RetryClick (Data false)) in
  retry_shown failed = true
  /\ error w' = None
  /\ pollingAttempts w' = 1
  /\ pollingInterval w' = Some 2
  /\ length (queries w') = length (queries failed) + 1.
Proof.
  intros polled failed.
  destruct (retry_restarts_polling failed) as (runId & Hc & _ & He & _ & _ & Ha & Hq & _ & Hp & _).
  - vm_compute; reflexivity.
  - vm_compute. lia.
  - split; [vm_compute; reflexivity|]. split; [exact He|]. split; [exact Ha|].
    split; [exact Hp|]. rewrite Hq, length_app. reflexivity.
Defined.

(** X16. [handleRetryPolling] made by a render that knows no run hands the
    empty string on: the counter is reset to 0 and the error becomes
    [Training completed but no runId received]; no query goes out and no
    timer is armed or cleared. *)
Theorem retry_without_run (seen : Render) (reply : Reply) (w : World) :
  or_empty (seen_currentRunId seen) = EmptyString ->
  let w' := exec (handleRetryPolling seen reply) w in
  error w' = Some "Training completed but no runId received"
  /\ pollingAttempts w' = 0
  /\ effects w' = effects w
  /\ intervals w' = intervals w
  /\ currentRunId w' = currentRunId w
  /\ trainingDone w' = trainingDone w
  /\ showAnalysis w' = showAnalysis w.
Proof.
  intros Hempty. cbv zeta. handlers. rewrite Hempty. handlers. repeat split.
Qed.

Lemma retry_without_run_witness :
  let w' := exec (handleRetryPolling (render mounted) (Data true)) mounted in
  error w' = Some "Training completed but no runId received"
  /\ pollingAttempts w' = 0
  /\ effects w' = [].
Proof.
  destruct (retry_without_run (render mounted) (Data true) mounted eq_refl)
    as (He & Ha & Hf & _).
  split; [exact He|]. split; [exact Ha | exact Hf].
Defined.

End PollFacts.
(** ** What the page never does *)

Module PageFacts.
Import HomePage HomePageFacts PollFacts Prediction Text TextFacts.
Local Open Scope page_scope.

Lemma lookup_In (h : nat) (l : list (nat * Poll)) (p : Poll) :
  lookup h l = Some p -> exists k, In (k, p) l.
Proof.
  induction l as [|[k q] l IH]; cbn; [discriminate|].
  destruct (k =? h).
  - intros H. injection H as ->. exists k. now left.
  - intros H. destruct (IH H) as [k' Hin]. exists k'. now right.
Qed.

Lemma Forall_filter {A : Type} (P : A -> Prop) (f : A -> bool) (l : list A) :
  Forall P l -> Forall P (filter f l).
Proof.
  intros H. apply Forall_forall. intros x Hx. apply filter_In in Hx as [Hx _].
  revert x Hx. now apply Forall_forall.
Qed.

Ltac named_goal :=
  unfold queries in *; cbn [intervals effects currentRunId] in *;
  rewrite ?fetched_app; cbn [fetched flat_map app]; rewrite ?app_nil_r;
  repeat match goal with
         | |- _ /\ _ => split
         | |- Forall _ (_ ++ _) => apply Forall_app; split
         | |- Forall _ (filter _ _) => apply Forall_filter
         | |- Forall _ [_] => constructor; [|constructor]
         | |- Forall _ [] => constructor
         end; cbn [snd poll_runId]; try assumption.

Lemma named_handle (e : Event) (w : World) : named w -> named (snd (handle e w)).
Proof.
  intros (Hi & Hq & Hc). unfold named.
  destruct e as [seen runId reply|h reply|reply| |].
  - destruct (JsString.truthy runId) eqn:Hid.
    + destruct seen as [a [i|] r]; destruct reply as [| |[|]];
        handlers; rewrite Hid; handlers;
        try destruct (maxPollingAttempts <=? a + 1); handlers; named_goal;
        intros r0 Hr0; injection Hr0 as <-; exact Hid.
    + handlers. rewrite Hid. handlers. named_goal.
  - unfold handle. destruct (lookup h (intervals w)) as [p|] eqn:Hp; [|named_goal].
    destruct (lookup_In _ _ _ Hp) as [k Hin].
    assert (Hid : JsString.truthy (poll_runId p) = true).
    { rewrite Forall_forall in Hi. exact (Hi (k, p) Hin). }
    destruct p as [runId [a [i|] r]]; cbn [poll_runId] in Hid; destruct reply as [| |[|]];
      handlers; rewrite Hid; handlers;
      try destruct (maxPollingAttempts <=? a + 1); handlers; named_goal.
  - unfold handle. destruct (retry_shown w) eqn:Hshown; [|named_goal].
    unfold retry_shown in Hshown.
    destruct (error w) as [msg|]; [|discriminate].
    destruct (currentRunId w) as [runId|] eqn:Hr; [|discriminate].
    apply andb_prop in Hshown as [_ Hid].
    destruct reply as [| |[|]]; handlers; rewrite Hr; cbn [or_empty]; rewrite Hid; handlers;
      destruct (pollingInterval w) as [i|];
      try destruct (maxPollingAttempts <=? pollingAttempts w + 1); handlers; named_goal;
      intros r0 Hr0; injection Hr0 as <-; exact Hid.
  - unfold handle. destruct (force_shown w); [|named_goal].
    handlers. destruct (pollingInterval w); handlers; named_goal.
  - unfold handle. rewrite dispatch_sends. unfold queries. cbn [snd intervals effects currentRunId].
    rewrite fetched_app.
    assert (Hnone : fetched (map SendBeacon (deletions (listeners w))) = []).
    { induction (deletions (listeners w)) as [|b bs IH]; [reflexivity | exact IH]. }
    rewrite Hnone, app_nil_r. repeat split; assumption.
Qed.

Lemma named_step (w : World) (e : Event) : named w -> named (step w e).
Proof.
  intros Hw. rewrite step_unfold.
  destruct (unload_effect_frame (currentRunId w) (snd (handle e w))) as (He & Hc & _ & Hi & _).
  cbv zeta in He, Hc, Hi.
  destruct (named_handle e w Hw) as (H1 & H2 & H3).
  unfold named, queries. rewrite He, Hc, Hi. repeat split; assumption.
Qed.

(** X17. The page never asks for the readiness of a run without a name:
    whatever happened since the page was mounted, every readiness query
    that went out and every interval that is armed is for a runId that is
    not empty. *)
Theorem queries_are_named (es : list Event) :
  let w := run mounted es in
  Forall (fun r => JsString.truthy r = true) (queries w)
  /\ Forall (fun hp => JsString.truthy (poll_runId (snd hp)) = true) (intervals w).
Proof.
  cbv zeta.
  assert (H : named (run mounted es)).
  { assert (Hm : named mounted) by (repeat split; try constructor; discriminate).
    revert Hm. generalize mounted. induction es as [|e es IH]; intros w Hw; [exact Hw|].
    cbn [run fold_left]. apply IH, named_step, Hw. }
  destruct H as (Hi & Hq & _). split; assumption.
Qed.

(** *** The body of the deletion request *)

Lemma escape_plain (c : ascii) : plain c = true -> escape c = String c EmptyString.
Proof.
  destruct c as [[] [] [] [] [] [] [] []]; intros H;
    first [reflexivity | discriminate H].
Qed.

Lemma escaped_plain (s : string) : all_chars plain s = true -> escaped s = s.
Proof.
  induction s as [|c s IH]; cbn [all_chars escaped]; [reflexivity|]. intros H.
  apply andb_prop in H as [Hc Hs]. now rewrite (escape_plain c Hc), (IH Hs).
Qed.

Lemma prefix_app (a b : string) : String.prefix a (a ++ b) = true.
Proof.
  induction a as [|c a IH]; cbn; [now destruct b|].
  destruct (ascii_dec c c); [exact IH | contradiction].
Qed.

Lemma includes_app (needle a b : string) : JsString.includes needle (a ++ needle ++ b) = true.
Proof.
  induction a as [|c a IH]; cbn [append].
  - destruct (needle ++ b) eqn:Hs; cbn [JsString.includes];
      rewrite <- Hs, prefix_app; reflexivity.
  - cbn [JsString.includes]. rewrite IH. now destruct (String.prefix needle _).
Qed.

Lemma includes_cons (needle s : string) (c : ascii) :
  JsString.includes needle s = true -> JsString.includes needle (String c s) = true.
Proof. intros H. cbn [JsString.includes]. rewrite H. now destruct (String.prefix needle _). Qed.

(** X18. For a runId made of characters that need no escape (no control
    character, double quote or backslash), the body of the deletion request
    holds the runId as it is, under both keys. *)
Theorem plain_runId_body (runId : string) :
  all_chars plain runId = true ->
  delete_run_body runId
  = "{" ++ JsString.quoted "run_id" ++ ":" ++ JsString.quoted runId ++ ","
        ++ JsString.quoted "runId" ++ ":" ++ JsString.quoted runId ++ "}"
  /\ JsString.includes runId (delete_run_body runId) = true.
Proof.
  intros Hplain.
  assert (Hbody : delete_run_body runId
                  = "{" ++ JsString.quoted "run_id" ++ ":" ++ JsString.quoted runId ++ ","
                        ++ JsString.quoted "runId" ++ ":" ++ JsString.quoted runId ++ "}").
  { unfold delete_run_body, stringify, JsString.quoted.
    rewrite (escaped_plain runId Hplain). reflexivity. }
  split; [exact Hbody|]. rewrite Hbody.
  unfold JsString.quoted. cbn [append].
  rewrite JsStringFacts.append_assoc.
  repeat apply includes_cons.
  apply (includes_app runId EmptyString).
Qed.

Lemma plain_runId_body_witness :
  delete_run_body "fallback-1700000000000"
  = "{" ++ JsString.quoted "run_id" ++ ":" ++ JsString.quoted "fallback-1700000000000" ++ ","
        ++ JsString.quoted "runId" ++ ":" ++ JsString.quoted "fallback-1700000000000" ++ "}"
  /\ JsString.includes "fallback-1700000000000" (delete_run_body "fallback-1700000000000") = true.
Proof. exact (plain_runId_body "fallback-1700000000000" eq_refl). Defined.

(** One escaped character is read back, whatever follows. *)
Lemma unescape_escape (c : ascii) (rest : string) :
  unescape_head (escape c ++ rest) = Some (c, rest).
Proof. destruct c as [[] [] [] [] [] [] [] []]; reflexivity. Qed.

Lemma escaped_no_quote (s rest rest' : string) :
  String JsString.dquote rest = escaped s ++ String JsString.dquote rest' -> s = EmptyString.
Proof.
  destruct s as [|c s]; [reflexivity|]. cbn [escaped]. intros H. exfalso.
  assert (Hhead : unescape_head (String JsString.dquote rest)
                  = Some (c, escaped s ++ String JsString.dquote rest')).
  { rewrite H, JsStringFacts.append_assoc. apply unescape_escape. }
  change (unescape_head (String JsString.dquote rest)) with (Some (JsString.dquote, rest)) in Hhead.
  injection Hhead as Hc _. subst c.
  change (escape JsString.dquote) with (String JsString.backslash (String JsString.dquote "")) in H.
  cbn [append] in H. injection H as H _.
  unfold JsString.dquote, JsString.backslash in H. cbn in H. discriminate H.
Qed.

(** An escaped text followed by a double quote tells the text. *)
Lemma escaped_inj (a b ra rb : string) :
  escaped a ++ String JsString.dquote ra = escaped b ++ String JsString.dquote rb ->
  a = b /\ ra = rb.
Proof.
  revert b. induction a as [|c a IH]; intros b H.
  - change (escaped "" ++ String JsString.dquote ra) with (String JsString.dquote ra) in H.
    pose proof (escaped_no_quote b ra rb H) as Hb. subst b.
    cbn in H. injection H as ->. split; reflexivity.
  - destruct b as [|d b].
    + change (escaped "" ++ String JsString.dquote rb) with (String JsString.dquote rb) in H.
      symmetry in H. apply escaped_no_quote in H. discriminate.
    + cbn [escaped] in H. rewrite !JsStringFacts.append_assoc in H.
      assert (Hhead : Some (c, escaped a ++ String JsString.dquote ra)
                      = Some (d, escaped b ++ String JsString.dquote rb))
        by now rewrite <- !unescape_escape, H.
      injection Hhead as -> Hrest.
      destruct (IH b Hrest) as [-> ->]. split; reflexivity.
Qed.

Lemma delete_run_body_eq (a b : string) :
  delete_run_body a = delete_run_body b -> a = b.
Proof.
  assert (Hshape : forall x, exists rest,
            delete_run_body x
            = ("{" ++ stringify "run_id" ++ ":" ++ String JsString.dquote "")
                ++ (escaped x ++ String JsString.dquote rest)).
  { intros x. eexists. unfold delete_run_body, stringify at 2.
    repeat (progress (rewrite ?JsStringFacts.append_assoc; cbn [append])). reflexivity. }
  destruct (Hshape a) as [ra ->]. destruct (Hshape b) as [rb ->].
  intros H. apply append_inj_l in H. now destruct (escaped_inj a b ra rb H).
Qed.

(** X19. The body of the deletion request tells the run: two different
    runIds never give the same body, whatever characters they hold. *)
Theorem delete_run_body_distinct (a b : string) :
  a <> b -> delete_run_body a <> delete_run_body b.
Proof. intros Hne Heq. apply Hne. now apply delete_run_body_eq. Qed.

Lemma delete_run_body_distinct_witness :
  let quote := String JsString.dquote "" in
  delete_run_body ("R" ++ quote) <> delete_run_body ("R" ++ String JsString.backslash quote).
Proof. intros quote. apply delete_run_body_distinct. discriminate. Defined.

(** *** The prediction panel *)

(** X20. The error of the page is shared: a prediction request with a
    patient selected takes the retry button of a failed poll away,
    whatever the prediction comes back with, and leaves the poll as it
    was (no query, no timer touched, the run kept). *)
Theorem handlePredict_hides_retry (answer : Answer) (s : Screen) (index : nat) :
  selectedIndex s = Some index ->
  let s' := handlePredict answer s in
  retry_shown (world s') = false
  /\ effects (world s') = effects (world s)
  /\ intervals (world s') = intervals (world s)
  /\ currentRunId (world s') = currentRunId (world s)
  /\ trainingDone (world s') = trainingDone (world s)
  /\ pollingAttempts (world s') = pollingAttempts (world s).
Proof.
  intros Hsel. cbv zeta. unfold handlePredict. rewrite Hsel.
  destruct answer; unfold retry_shown;
    cbn [world in_world setLoading setResult fetch_predict exec snd setError error currentRunId
         effects intervals trainingDone pollingAttempts];
    repeat split; destruct (currentRunId (world s)); reflexivity.
Qed.

Lemma handlePredict_hides_retry_witness :
  let polled := run mounted (TrainingComplete (render mounted) "R1" (Data false)
                             :: repeat (Timer 1 (Data false)) 22) in
  let failed := step polled (TrainingComplete (render polled) "R1" (Data false)) in
  let s := mkScreen failed ["TCGA-A1"] (Some 0) None false [] in
  retry_shown failed = true
  /\ retry_shown (world (handlePredict (Predicted Json.JNull) s)) = false.
Proof.
  intros polled failed s.
  split; [vm_compute; reflexivity|].
  exact (proj1 (handlePredict_hides_retry (Predicted Json.JNull) s 0 eq_refl)).
Defined.

End PageFacts.
(** ** The loss axis *)

Module ChartFacts.
Import Json Chart.

Lemma le_refl (a : number) : le a a.
Proof.
  unfold le. destruct a as [x|[|]]; cbn; try reflexivity.
  apply Bool.negb_false_iff, Qle_bool_iff, Qle_refl.
Qed.

Lemma le_trans (a b c : number) : le a b -> le b c -> le a c.
Proof.
  unfold le. destruct a as [x|[|]], b as [y|[|]], c as [z|[|]]; cbn;
    try reflexivity; try discriminate.
  intros H1 H2. apply Bool.negb_false_iff in H1, H2. apply Bool.negb_false_iff.
  apply Qle_bool_iff in H1, H2. apply Qle_bool_iff. now apply Qle_trans with y.
Qed.

Lemma gt_le (a b : number) : gt a b = true -> le b a.
Proof.
  unfold le. destruct a as [x|[|]], b as [y|[|]]; cbn; try reflexivity; try discriminate.
  intros H. apply Bool.negb_true_iff in H. apply Bool.negb_false_iff, Qle_bool_iff.
  destruct (Qlt_le_dec y x) as [Hlt|Hle]; [now apply Qlt_le_weak|].
  apply Qle_bool_iff in Hle. congruence.
Qed.

Lemma falsy_le (n max : number) : number_truthy n = false -> le (Finite 0) max -> le n max.
Proof.
  unfold le. destruct n as [q|[|]]; cbn [number_truthy]; try discriminate.
  intros Hz. apply Bool.negb_false_iff in Hz. apply Qeq_bool_iff in Hz.
  destruct max as [m|[|]]; cbn; try reflexivity; try discriminate.
  intros H. apply Bool.negb_false_iff in H. apply Bool.negb_false_iff.
  apply Qle_bool_iff in H. apply Qle_bool_iff. now rewrite Hz.
Qed.

Lemma raise_grows (v : option number) (max : number) : le max (raise v max).
Proof.
  unfold raise. destruct v as [n|]; [|apply le_refl].
  destruct (gt n max) eqn:H; [now apply gt_le | apply le_refl].
Qed.

Lemma raise_covers (n max : number) : le n (raise (Some n) max).
Proof. unfold raise. destruct (gt n max) eqn:H; [apply le_refl | exact H]. Qed.

Lemma raise_truthy_grows (v : option number) (max : number) : le max (raise_truthy v max).
Proof.
  unfold raise_truthy. destruct v as [n|]; [|apply le_refl].
  destruct (number_truthy n); cbn [andb]; [|apply le_refl].
  destruct (gt n max) eqn:H; [now apply gt_le | apply le_refl].
Qed.

Lemma raise_truthy_covers (n max : number) :
  le (Finite 0) max -> le n (raise_truthy (Some n) max).
Proof.
  intros H0. unfold raise_truthy. destruct (number_truthy n) eqn:Ht; cbn [andb].
  - destruct (gt n max) eqn:H; [apply le_refl | exact H].
  - now apply falsy_le.
Qed.

(** A bound that holds of the values holds of what they raise. *)
Lemma raise_below (v : option number) (max bound : number) :
  le max bound -> (forall n, v = Some n -> le n bound) -> le (raise v max) bound.
Proof.
  intros Hm Hv. unfold raise. destruct v as [n|]; [|exact Hm].
  destruct (gt n max); [now apply Hv | exact Hm].
Qed.

Lemma raise_truthy_below (v : option number) (max bound : number) :
  le max bound -> (forall n, v = Some n -> le n bound) -> le (raise_truthy v max) bound.
Proof.
  intros Hm Hv. unfold raise_truthy. destruct v as [n|]; [|exact Hm].
  destruct (number_truthy n && gt n max); [now apply Hv | exact Hm].
Qed.

(** The clients' part of a round, from client [from] on. *)
Lemma clients_max (data : Losses) (count from : nat) (max : number) :
  le (Finite 0) max ->
  let max' := fold_left
                (fun max i =>
                   raise_truthy (read (Round.key "client_" i) data)
                     (raise_truthy (read (Round.key "client_train_" i) data) max))
                (seq from count) max in
  le max max'
  /\ forall i n, from <= i < from + count ->
       (read (Round.key "client_train_" i) data = Some n -> le n max')
       /\ (read (Round.key "client_" i) data = Some n -> le n max').
Proof.
  revert from max. induction count as [|count IH]; intros from max H0; cbn [seq fold_left].
  - split; [apply le_refl | intros i n Hi; lia].
  - set (m1 := raise_truthy (read (Round.key "client_train_" from) data) max).
    set (m2 := raise_truthy (read (Round.key "client_" from) data) m1).
    assert (H1 : le max m1) by apply raise_truthy_grows.
    assert (H2 : le m1 m2) by apply raise_truthy_grows.
    assert (H01 : le (Finite 0) m1) by now apply le_trans with max.
    assert (H02 : le (Finite 0) m2) by now apply le_trans with m1.
    destruct (IH (S from) m2 H02) as [Hgrow Hcover]. cbv zeta in Hgrow, Hcover.
    split; [apply le_trans with m2; [now apply le_trans with m1 | exact Hgrow]|].
    intros i n Hi. destruct (Nat.eq_dec i from) as [->|Hne].
    + split; intros Hn.
      * apply le_trans with m2; [|exact Hgrow]. apply le_trans with m1; [|exact H2].
        subst m1. rewrite Hn. now apply raise_truthy_covers.
      * apply le_trans with m2; [|exact Hgrow].
        subst m2. rewrite Hn. now apply raise_truthy_covers.
    + apply Hcover. lia.
Qed.

Lemma round_max_spec (numClients : nat) (max : number) (data : Losses) :
  le (Finite 0) max ->
  le max (round_max numClients max data)
  /\ Forall (fun n => le n (round_max numClients max data)) (plotted numClients data).
Proof.
  intros H0. unfold round_max.
  set (m0 := raise (read "global_loss" data) max).
  assert (Hm0 : le max m0) by apply raise_grows.
  assert (H00 : le (Finite 0) m0) by now apply le_trans with max.
  destruct (clients_max data numClients 1 m0 H00) as [Hgrow Hcover]. cbv zeta in Hgrow, Hcover.
  split; [now apply le_trans with m0|].
  unfold plotted. apply Forall_app. split.
  - destruct (read "global_loss" data) as [n|] eqn:Hn; [|constructor].
    constructor; [|constructor]. apply le_trans with m0; [|exact Hgrow].
    subst m0. apply raise_covers.
  - apply Forall_forall. intros n Hin. apply in_flat_map in Hin as (i & Hi & Hn).
    apply in_seq in Hi. destruct (Hcover i n ltac:(lia)) as [Ht Hv].
    apply in_app_or in Hn as [Hn|Hn].
    + destruct (read (Round.key "client_train_" i) data) as [x|]; [|contradiction].
      destruct Hn as [->|[]]. now apply Ht.
    + destruct (read (Round.key "client_" i) data) as [x|]; [|contradiction].
      destruct Hn as [->|[]]. now apply Hv.
Qed.

Lemma rounds_max_spec (numClients : nat) (globalLosses : list Losses) (max : number) :
  le (Finite 0) max ->
  let max' := fold_left (round_max numClients) globalLosses max in
  le max max'
  /\ forall data, In data globalLosses -> Forall (fun n => le n max') (plotted numClients data).
Proof.
  revert max. induction globalLosses as [|d rest IH]; intros max H0; cbn [fold_left].
  - split; [apply le_refl | intros data []].
  - destruct (round_max_spec numClients max d H0) as [Hgrow Hcover].
    assert (H0' : le (Finite 0) (round_max numClients max d)) by now apply le_trans with max.
    destruct (IH _ H0') as [Hgrow' Hcover']. cbv zeta in Hgrow', Hcover'.
    split; [now apply le_trans with (round_max numClients max d)|].
    intros data [<-|Hin]; [|now apply Hcover'].
    eapply Forall_impl; [|exact Hcover].
    intros n Hn. now apply le_trans with (round_max numClients max d).
Qed.

Lemma le_ceil (n : number) : le n (ceil n).
Proof.
  unfold le. destruct n as [q|[|]]; cbn; try reflexivity.
  apply Bool.negb_false_iff, Qle_bool_iff, Qround.Qle_ceiling.
Qed.

Lemma le_at_least_one (n : number) : le n (at_least_one n) /\ le (Finite 1) (at_least_one n).
Proof.
  unfold at_least_one. destruct (gt n (Finite 1)) eqn:H.
  - split; [apply le_refl | now apply gt_le].
  - split; [exact H | apply le_refl].
Qed.

Lemma getMaxLoss_covers (numClients : nat) (globalLosses : list Losses) :
  let domain := getMaxLoss numClients globalLosses in
  fst domain = Finite 0
  /\ le (Finite 1) (snd domain)
  /\ forall data, In data globalLosses ->
       Forall (fun n => le n (snd domain)) (plotted numClients data).
Proof.
  cbv zeta. unfold getMaxLoss. cbn [fst snd].
  destruct (rounds_max_spec numClients globalLosses (Finite 0) (le_refl _)) as [_ Hcover].
  cbv zeta in Hcover.
  set (max := fold_left (round_max numClients) globalLosses (Finite 0)) in *.
  destruct (le_at_least_one max) as [Hmax Hone].
  split; [reflexivity|]. split.
  - apply le_trans with (at_least_one max); [exact Hone | apply le_ceil].
  - intros data Hin. eapply Forall_impl; [|exact (Hcover data Hin)].
    intros n Hn. apply le_trans with max; [exact Hn|].
    apply le_trans with (at_least_one max); [exact Hmax | apply le_ceil].
Qed.

(** The lines are those of the clients 1 to [numClients]. *)
Lemma line_keys_seq (prefix : string) (numClients : nat) :
  line_keys prefix numClients = map (Round.key prefix) (seq 1 numClients).
Proof.
  unfold line_keys. rewrite <- seq_shift, map_map.
  apply map_ext. intros i. now rewrite Nat.add_1_r.
Qed.

(** What the charts draw is what the data keys of their lines read. *)
Lemma plotted_drawn (numClients : nat) (data : Losses) (n : number) :
  In n (plotted numClients data)
  <-> exists key, In key (drawn_keys numClients) /\ read key data = Some n.
Proof.
  unfold plotted, drawn_keys. rewrite !line_keys_seq. split.
  - intros Hin. apply in_app_or in Hin as [Hin|Hin].
    + exists "global_loss". split; [now left|].
      destruct (read "global_loss" data) as [x|]; [|contradiction].
      destruct Hin as [->|[]]. reflexivity.
    + apply in_flat_map in Hin as (i & Hi & Hin).
      apply in_app_or in Hin as [Hin|Hin].
      * exists (Round.key "client_train_" i). split.
        { right. apply in_or_app. right. now apply in_map. }
        destruct (read (Round.key "client_train_" i) data) as [x|]; [|contradiction].
        destruct Hin as [->|[]]. reflexivity.
      * exists (Round.key "client_" i). split.
        { right. apply in_or_app. left. now apply in_map. }
        destruct (read (Round.key "client_" i) data) as [x|]; [|contradiction].
        destruct Hin as [->|[]]. reflexivity.
  - intros (key & [<-|Hkey] & Hread); apply in_or_app.
    + left. rewrite Hread. now left.
    + right. apply in_flat_map.
      apply in_app_or in Hkey as [Hkey|Hkey]; apply in_map_iff in Hkey as (i & <- & Hi);
        exists i; (split; [exact Hi|]); rewrite Hread; apply in_or_app; [right | left]; now left.
Qed.

(** X21. The loss axis covers the curves: the domain the three charts
    share starts at 0, its upper end is at least 1, and every loss a line
    of the charts draws (the data keys [global_loss], [client_i] and
    [client_train_i] of the lines, in every round) is at most the upper
    end. *)
Theorem axis_covers_lines (numClients : nat) (globalLosses : list Losses) :
  let domain := getMaxLoss numClients globalLosses in
  fst domain = Finite 0
  /\ le (Finite 1) (snd domain)
  /\ forall data key n,
       In data globalLosses -> In key (drawn_keys numClients) -> read key data = Some n ->
       le n (snd domain).
Proof.
  cbv zeta. destruct (getMaxLoss_covers numClients globalLosses) as (H0 & H1 & Hcover).
  cbv zeta in Hcover. split; [exact H0|]. split; [exact H1|].
  intros data key n Hdata Hkey Hread.
  pose proof (Hcover data Hdata) as Hall. rewrite Forall_forall in Hall.
  apply Hall, plotted_drawn. now exists key.
Qed.

Lemma rounds_max_below (numClients : nat) (globalLosses : list Losses) (max bound : number) :
  le max bound ->
  (forall data, In data globalLosses -> Forall (fun n => le n bound) (plotted numClients data)) ->
  le (fold_left (round_max numClients) globalLosses max) bound.
Proof.
  revert max. induction globalLosses as [|d rest IH]; intros max Hm Hall; cbn [fold_left];
    [exact Hm|].
  apply IH; [|intros data Hin; apply Hall; now right].
  pose proof (Hall d (or_introl eq_refl)) as Hd. unfold plotted in Hd.
  apply Forall_app in Hd as [Hg Hc]. rewrite Forall_forall in Hg, Hc.
  unfold round_max.
  assert (Hclients : forall count from m, le m bound ->
            (forall i, In i (seq from count) ->
               (forall n, read (Round.key "client_train_" i) d = Some n -> le n bound)
               /\ (forall n, read (Round.key "client_" i) d = Some n -> le n bound)) ->
            le (fold_left
                  (fun max i =>
                     raise_truthy (read (Round.key "client_" i) d)
                       (raise_truthy (read (Round.key "client_train_" i) d) max))
                  (seq from count) m) bound).
  { induction count as [|count IHc]; intros from m Hmb Hi; cbn [seq fold_left]; [exact Hmb|].
    apply IHc; [|intros i Hin; apply Hi; now right].
    destruct (Hi from (or_introl eq_refl)) as [Ht Hv].
    apply raise_truthy_below; [|exact Hv]. now apply raise_truthy_below. }
  apply Hclients.
  - apply raise_below; [exact Hm|]. intros n Hn. apply Hg. rewrite Hn. now left.
  - intros i Hi. split; intros n Hn; apply Hc; apply in_flat_map; exists i;
      (split; [exact Hi|]); rewrite Hn; apply in_or_app; [left | right]; now left.
Qed.

Lemma getMaxLoss_below (numClients : nat) (globalLosses : list Losses) (k : Z) :
  (1 <= k)%Z ->
  (forall data, In data globalLosses ->
     Forall (fun n => le n (Finite (inject_Z k))) (plotted numClients data)) ->
  exists z, snd (getMaxLoss numClients globalLosses) = Finite (inject_Z z) /\ (1 <= z <= k)%Z.
Proof.
  intros Hk Hall. unfold getMaxLoss. cbn [snd].
  assert (H0 : le (Finite 0) (Finite (inject_Z k))).
  { unfold le. cbn. apply Bool.negb_false_iff, Qle_bool_iff.
    change 0%Q with (inject_Z 0). rewrite <- Zle_Qle. lia. }
  pose proof (rounds_max_below numClients globalLosses (Finite 0) _ H0 Hall) as Hmax.
  set (max := fold_left (round_max numClients) globalLosses (Finite 0)) in *.
  assert (Hone : le (at_least_one max) (Finite (inject_Z k))
                 /\ le (Finite 1) (at_least_one max)).
  { split; [|apply le_at_least_one].
    unfold at_least_one. destruct (gt max (Finite 1)); [exact Hmax|].
    unfold le. cbn. apply Bool.negb_false_iff, Qle_bool_iff.
    change 1%Q with (inject_Z 1). rewrite <- Zle_Qle. lia. }
  destruct Hone as [Hle Hge].
  destruct (at_least_one max) as [q|[|]]; cbn [ceil];
    try (unfold le in Hle; cbn in Hle; discriminate).
  unfold le in Hle, Hge. cbn in Hle, Hge.
  apply Bool.negb_false_iff, Qle_bool_iff in Hle. apply Bool.negb_false_iff, Qle_bool_iff in Hge.
  exists (Qround.Qceiling q). split; [reflexivity|]. split.
  - rewrite <- (Qround.Qceiling_Z 1). now apply Qround.Qceiling_resp_le.
  - rewrite <- (Qround.Qceiling_Z k). now apply Qround.Qceiling_resp_le.
Qed.

(** X22. The loss axis is tight and whole: when a whole number [k] from 1
    on bounds every loss a line of the charts draws, the upper end of the
    domain is a whole number between 1 and [k].  So the axis ends at the
    least whole number that covers the curves, and at 1 when no curve
    rises above 1. *)
Theorem axis_is_tight (numClients : nat) (globalLosses : list Losses) (k : Z) :
  (1 <= k)%Z ->
  (forall data key n,
     In data globalLosses -> In key (drawn_keys numClients) -> read key data = Some n ->
     le n (Finite (inject_Z k))) ->
  exists z, snd (getMaxLoss numClients globalLosses) = Finite (inject_Z z) /\ (1 <= z <= k)%Z.
Proof.
  intros Hk Hall. apply getMaxLoss_below; [exact Hk|].
  intros data Hdata. apply Forall_forall. intros n Hn.
  apply plotted_drawn in Hn as (key & Hkey & Hread). now apply (Hall data key n).
Qed.

Lemma axis_is_tight_witness :
  let data := [("round", Finite 2); ("global_loss", Finite (5 # 2));
               ("client_train_1", Finite 1); ("client_train_2", Finite 1);
               ("client_train_3", Finite 1);
               ("client_1", Finite 1); ("client_2", Finite 1); ("client_3", Finite 1)] in
  of_round (Sample.formatted_round 2 (5 # 2)) = Some data
  /\ getMaxLoss 3 [data] = (Finite 0, Finite 3)
  /\ exists z, snd (getMaxLoss 3 [data]) = Finite (inject_Z z) /\ (1 <= z <= 3)%Z.
Proof.
  intros data. split; [reflexivity|]. split; [vm_compute; reflexivity|].
  apply (axis_is_tight 3 [data] 3); [lia|].
  intros d key n Hdata Hkey Hread.
  assert (Hall : Forall (fun n => le n (Finite (inject_Z 3))) (plotted 3 d)).
  { destruct Hdata as [<-|[]]; vm_compute; repeat constructor. }
  rewrite Forall_forall in Hall. apply Hall, plotted_drawn. now exists key.
Defined.

End ChartFacts.
(** ** Playback of the divergence viewer *)

Module PlaybackFacts.
Import DivergenceViewer.

#[local] Open Scope Z_scope.

Ltac player :=
  unfold step, rerender, playEffect, clearPlayInterval, advance, onPlayClick,
         setIsPlaying, setSelectedRoundIndex in *;
  cbn [selectedRoundIndex isPlaying playIntervalRef next_interval cleared Bool.eqb] in *.

Lemma in_range_step (length : nat) (s : State) (e : Event) :
  (0 < length)%nat -> offered length e -> in_range length s -> in_range length (step length s e).
Proof.
  unfold in_range. intros Hlen He Hs. destruct s as [sel playing ref next cl].
  destruct e as [|h|i]; player.
  - destruct playing; cbn; [destruct ref; cbn; lia|].
    destruct (Z.leb_spec (Z.of_nat length - 1) sel); cbn; destruct ref; cbn; lia.
  - destruct ref as [live|]; [|cbn; lia].
    destruct (h =? live)%nat; [|cbn; lia].
    destruct (Z.leb_spec (Z.of_nat length) (sel + 1)); cbn.
    + destruct playing; cbn; lia.
    + destruct playing; cbn; lia.
  - cbn in He. cbn. lia.
Qed.

Lemma synced_step (length : nat) (s : State) (e : Event) :
  synced s -> synced (step length s e).
Proof.
  unfold synced. intros Hs. destruct s as [sel playing ref next cl].
  destruct e as [|h|i]; player.
  - destruct playing; cbn in *.
    + destruct ref; cbn; split; intros H; congruence.
    + destruct (Z.of_nat length - 1 <=? sel); cbn; destruct ref; cbn;
        split; intros H; congruence.
  - destruct ref as [live|]; [|exact Hs].
    destruct (h =? live)%nat; [|exact Hs].
    destruct (Z.of_nat length <=? sel + 1), playing; cbn in *;
      split; intros H; try congruence; now apply Hs.
  - exact Hs.
Qed.

(** X23. The round on show always exists: with a history that is not
    empty, whatever is clicked, picked among the rounds offered or played,
    [divergenceHistory[roundIndex]] is a round of the history, so the
    render never reads [undefined]. *)
Theorem round_shown_exists {A : Type} (divergenceHistory : list A) (es : list Event) :
  divergenceHistory <> [] ->
  Forall (offered (length divergenceHistory)) es ->
  exists data,
    roundData divergenceHistory (run (length divergenceHistory) initial es) = Some data
    /\ In data divergenceHistory.
Proof.
  intros Hne Hes.
  assert (Hlen : (0 < length divergenceHistory)%nat).
  { destruct divergenceHistory; [congruence | cbn; lia]. }
  assert (Hrange : in_range (length divergenceHistory)
                     (run (length divergenceHistory) initial es)).
  { unfold run. assert (H0 : in_range (length divergenceHistory) initial)
      by (unfold in_range; cbn; lia).
    revert H0. generalize initial.
    induction Hes as [|e es He Hes IH]; intros s Hs; cbn [fold_left]; [exact Hs|].
    apply IH. now apply in_range_step. }
  unfold in_range in Hrange. unfold roundData, roundIndex, latestIndex.
  set (s := run _ _ _) in *.
  destruct (Z.leb_spec 0 (selectedRoundIndex s)) as [Hsel|Hsel].
  - destruct (Z.ltb_spec (selectedRoundIndex s) 0); [lia|].
    destruct (nth_error divergenceHistory (Z.to_nat (selectedRoundIndex s))) as [data|] eqn:Hn.
    + exists data. split; [reflexivity|]. now apply nth_error_In in Hn.
    + apply nth_error_None in Hn. lia.
  - destruct (Z.ltb_spec (Z.of_nat (length divergenceHistory) - 1) 0); [lia|].
    destruct (nth_error divergenceHistory (Z.to_nat (Z.of_nat (length divergenceHistory) - 1)))
      as [data|] eqn:Hn.
    + exists data. split; [reflexivity|]. now apply nth_error_In in Hn.
    + apply nth_error_None in Hn. lia.
Qed.

Lemma round_shown_exists_witness :
  let es := [PlayClick; Tick 1; Tick 1; Select 2; PlayClick; PlayClick; Tick 2] in
  run 3 initial es = mkState 1 true (Some 2%nat) 3%nat [1%nat]
  /\ exists data,
       roundData ["r1"; "r2"; "r3"]%string (run 3 initial es) = Some data
       /\ In data ["r1"; "r2"; "r3"]%string.
Proof.
  intros es. split; [reflexivity|].
  apply (round_shown_exists ["r1"; "r2"; "r3"]%string es); [discriminate|].
  repeat constructor.
Defined.

(** While it plays before the last round, a second moves one round on. *)
Lemma second_advances (length : nat) (s : State) :
  synced s -> isPlaying s = true -> selectedRoundIndex s + 1 < Z.of_nat length ->
  second length s = setSelectedRoundIndex (selectedRoundIndex s + 1) s.
Proof.
  unfold synced, second. intros Hs Hp Hsel. destruct s as [sel playing ref next cl].
  cbn in *. subst playing. destruct ref as [h|]; [|exfalso; destruct Hs as [_ Hs]; now apply Hs].
  player. rewrite Nat.eqb_refl.
  destruct (Z.leb_spec (Z.of_nat length) (sel + 1)); [lia | reflexivity].
Qed.

Lemma seconds_advance (length : nat) (j : nat) (s : State) :
  synced s -> isPlaying s = true -> selectedRoundIndex s + Z.of_nat j < Z.of_nat length ->
  Nat.iter j (second length) s
  = setSelectedRoundIndex (selectedRoundIndex s + Z.of_nat j) s.
Proof.
  intros Hs Hp. induction j as [|j IH]; intros Hsel.
  - cbn. destruct s; unfold setSelectedRoundIndex; cbn. f_equal. lia.
  - rewrite Nat.iter_succ, IH by lia.
    rewrite second_advances.
    + destruct s; unfold setSelectedRoundIndex; cbn. f_equal. lia.
    + destruct s; exact Hs.
    + destruct s; exact Hp.
    + destruct s; cbn in *. lia.
Qed.

Lemma play_starts (length : nat) (s : State) :
  isPlaying s = false -> playIntervalRef s = None ->
  step length s PlayClick
  = mkState (start length s) true (Some (next_interval s)) (S (next_interval s)) (cleared s).
Proof.
  intros Hp Href. destruct s as [sel playing ref next cl]. cbn in *. subst playing ref.
  unfold start. player. destruct (Z.of_nat length - 1 <=? sel); reflexivity.
Qed.

(** X24. Playback shows every round in turn: after Play on a stopped
    viewer, the round selected [j] seconds later is the [j]-th after the
    starting one (the first round when the last was selected), as long as
    that is a round of the history; none is skipped, and the viewer is
    still playing. *)
Theorem playback_shows_each_round (length : nat) (s : State) (j : nat) :
  isPlaying s = false -> playIntervalRef s = None ->
  start length s + Z.of_nat j < Z.of_nat length ->
  let s' := Nat.iter j (second length) (step length s PlayClick) in
  selectedRoundIndex s' = start length s + Z.of_nat j
  /\ isPlaying s' = true
  /\ playIntervalRef s' = Some (next_interval s).
Proof.
  intros Hp Href Hj. cbv zeta. rewrite (play_starts length s Hp Href).
  rewrite seconds_advance.
  - repeat split.
  - unfold synced. cbn. split; [reflexivity | congruence].
  - reflexivity.
  - exact Hj.
Qed.

Lemma playback_shows_each_round_witness :
  let s' := Nat.iter 2 (second 4) (step 4 (setSelectedRoundIndex 3 initial) PlayClick) in
  selectedRoundIndex s' = 2 /\ isPlaying s' = true /\ playIntervalRef s' = Some 1%nat.
Proof.
  exact (playback_shows_each_round 4 (setSelectedRoundIndex 3 initial) 2
           eq_refl eq_refl eq_refl).
Defined.

Lemma second_stops (length : nat) (s : State) (h : nat) :
  isPlaying s = true -> playIntervalRef s = Some h ->
  selectedRoundIndex s + 1 = Z.of_nat length ->
  second length s
  = mkState (selectedRoundIndex s) false None (next_interval s) (cleared s ++ [h]).
Proof.
  intros Hp Href Hsel. destruct s as [sel playing ref next cl]. cbn in *. subst playing ref.
  unfold second. player. rewrite Nat.eqb_refl.
  destruct (Z.leb_spec (Z.of_nat length) (sel + 1)); [reflexivity | lia].
Qed.

Lemma seconds_stopped (length : nat) (k : nat) (s : State) :
  playIntervalRef s = None -> Nat.iter k (second length) s = s.
Proof.
  intros Href. induction k as [|k IH]; [reflexivity|].
  rewrite Nat.iter_succ, IH. unfold second. now rewrite Href.
Qed.

Lemma iter_add {A : Type} (f : A -> A) (a b : nat) (x : A) :
  Nat.iter (a + b) f x = Nat.iter b f (Nat.iter a f x).
Proof.
  induction b as [|b IH].
  - now rewrite Nat.add_0_r.
  - rewrite Nat.add_succ_r, !Nat.iter_succ. now rewrite IH.
Qed.

(** X25. Playback stops at the last round by itself: after Play on a
    stopped viewer of a history that is not empty, once the seconds that
    lead from the starting round to the last one and one more have passed,
    the last round is selected, the viewer no longer plays, its one
    interval is cleared and none is left; more seconds change nothing. *)
Theorem playback_stops_at_last_round (length : nat) (s : State) (k : nat) :
  (0 < length)%nat ->
  isPlaying s = false -> playIntervalRef s = None ->
  Z.of_nat length - start length s <= Z.of_nat k ->
  Nat.iter k (second length) (step length s PlayClick)
  = mkState (Z.of_nat length - 1) false None (S (next_interval s))
      (cleared s ++ [next_interval s]).
Proof.
  intros Hlen Hp Href Hk.
  assert (Hstart : start length s < Z.of_nat length).
  { unfold start. destruct (Z.leb_spec (Z.of_nat length - 1) (selectedRoundIndex s)); lia. }
  set (j := Z.to_nat (Z.of_nat length - 1 - start length s)).
  assert (Hsplit : k = (j + 1 + (k - j - 1))%nat) by lia.
  rewrite Hsplit, !iter_add.
  rewrite (play_starts length s Hp Href).
  set (playing := mkState (start length s) true (Some (next_interval s))
                    (S (next_interval s)) (cleared s)).
  rewrite (seconds_advance length j playing);
    [|unfold synced; cbn; split; [reflexivity | congruence] | reflexivity | cbn; lia].
  change (Nat.iter 1 (second length) ?x) with (second length x).
  rewrite (second_stops length _ (next_interval s)); [|reflexivity | reflexivity | cbn; lia].
  rewrite seconds_stopped by reflexivity.
  cbn [selectedRoundIndex setSelectedRoundIndex isPlaying playIntervalRef next_interval cleared
       playing].
  f_equal. lia.
Qed.

Lemma playback_stops_at_last_round_witness :
  Nat.iter 5 (second 4) (step 4 initial PlayClick) = mkState 3 false None 2 [1%nat]
  /\ Nat.iter 4 (second 4) (step 4 initial PlayClick) = mkState 3 true (Some 1%nat) 2 [].
Proof.
  split; [|reflexivity].
  apply (playback_stops_at_last_round 4 initial 5); cbn; try reflexivity; lia.
Defined.

End PlaybackFacts.
(** ** The feature importance viewer *)

Module FeatureFacts.
Import JsString Text TextFacts FeatureImportanceViewer.

Lemma digit_not_underscore (s : string) :
  all_chars is_digit s = true -> contains_char "_" s = false.
Proof.
  induction s as [|c s IH]; [reflexivity|].
  cbn [all_chars contains_char]. intros H. apply andb_prop in H as [Hc Hs].
  rewrite (IH Hs), Bool.orb_false_r.
  destruct (Ascii.eqb_spec c "_") as [->|]; [discriminate Hc | reflexivity].
Qed.

(** The number of a client is read back from the key made of it. *)
Lemma client_number_key (i : nat) : client_number (Round.key "client_" i) = of_nat i.
Proof.
  unfold client_number, Round.key.
  pose proof (digit_not_underscore _ (of_nat_digits i)) as Hfree.
  generalize dependent (of_nat i). intros d Hfree.
  cbn [append split Ascii.eqb Bool.eqb]. rewrite (split_free "_" d Hfree). reflexivity.
Qed.

Lemma key_not_global (i : nat) : String.eqb (Round.key "client_" i) "global" = false.
Proof. reflexivity. Qed.

(** X26. The title of the chart names the model picked in the selector:
    an item of the selector is the global model, titled [Global Model], or
    the [i]-th client for [i] from 1 to [numClients], with the label
    [Client i] and titled [Client i Model]; and no two items have the same
    value. *)
Theorem title_matches_selector (numClients : option nat) (m : Model) :
  In m (availableModels numClients) ->
  NoDup (map value (availableModels numClients))
  /\ ((m = mkModel "global" "Global Model" /\ model_title (value m) = "Global Model")
      \/ exists i n,
           numClients = Some n /\ 1 <= i <= n
           /\ m = mkModel (Round.key "client_" i) (Round.key "Client " i)
           /\ model_title (value m) = label m ++ " Model").
Proof.
  intros Hin. split.
  - unfold availableModels. cbn [map value]. constructor.
    + destruct numClients as [[|n]|]; [cbn; tauto | | cbn; tauto].
      rewrite map_map. cbn [value]. intros H. apply in_map_iff in H as (i & Hi & _).
      discriminate Hi.
    + destruct numClients as [[|n]|]; [constructor | | constructor].
      rewrite map_map. cbn [value].
      apply RoundFacts.NoDup_map_inj; [|apply seq_NoDup].
      intros i j Hij. unfold Round.key in Hij. apply append_inj_l, of_nat_inj in Hij. lia.
  - destruct Hin as [<-|Hin]; [left; split; reflexivity|]. right.
    destruct numClients as [[|n]|]; try contradiction.
    apply in_map_iff in Hin as (i & <- & Hi). apply in_seq in Hi.
    exists (i + 1), (S n). split; [reflexivity|]. split; [lia|]. split; [reflexivity|].
    cbn [value label]. unfold model_title.
    rewrite key_not_global, client_number_key. unfold Round.key.
    now rewrite JsStringFacts.append_assoc.
Qed.

Lemma title_matches_selector_witness :
  availableModels (Some 2)
  = [mkModel "global" "Global Model"; mkModel "client_1" "Client 1";
     mkModel "client_2" "Client 2"]
  /\ model_title "client_2" = "Client 2 Model"
  /\ NoDup (map value (availableModels (Some 2))).
Proof.
  split; [reflexivity|]. split; [reflexivity|].
  apply (title_matches_selector (Some 2) (mkModel "client_2" "Client 2")).
  right. right. now left.
Defined.

Lemma length_append (a b : string) :
  String.length (a ++ b) = String.length a + String.length b.
Proof. induction a as [|c a IH]; cbn; [reflexivity | now rewrite IH]. Qed.

Lemma substring_prefix (n : nat) (s : string) :
  n <= String.length s ->
  String.length (substring 0 n s) = n /\ String.prefix (substring 0 n s) s = true.
Proof.
  revert s. induction n as [|n IH]; intros s Hn.
  - destruct s; split; reflexivity.
  - destruct s as [|c s]; [cbn in Hn; lia|].
    cbn in Hn. destruct (IH s ltac:(lia)) as [Hlen Hpre].
    cbn [substring String.length String.prefix]. rewrite Hlen, Hpre.
    split; [reflexivity|]. now destruct (Ascii.ascii_dec c c).
Qed.

(** X27. A tick of the feature axis is at most 15 characters long: a name
    of up to 15 characters is shown as it is, a longer one as its first 12
    characters and three dots. *)
Theorem tick_fits (tickItem : string) :
  String.length (formatFeatureNameTick tickItem) <= 15
  /\ (formatFeatureNameTick tickItem = tickItem
      \/ exists kept,
           String.length kept = 12 /\ String.prefix kept tickItem = true
           /\ 15 < String.length tickItem
           /\ formatFeatureNameTick tickItem = kept ++ "...").
Proof.
  unfold formatFeatureNameTick.
  destruct (Nat.ltb_spec 15 (String.length tickItem)) as [Hlong|Hshort].
  - destruct (substring_prefix 12 tickItem ltac:(lia)) as [Hlen Hpre].
    split; [rewrite length_append, Hlen; cbn; lia|].
    right. exists (substring 0 12 tickItem). repeat split; assumption.
  - split; [exact Hshort | now left].
Qed.

End FeatureFacts.
(** ** The embedding viewer *)

Module UMAPFacts.
Import Json UMAPViewer.




(** *** The traces of the plot *)

Lemma Set_add_In (members : list string) (v x : string) :
  In x (Set_add members v) <-> In x members \/ x = v.
Proof.
  unfold Set_add. destruct (existsb (String.eqb v) members) eqn:Hv.
  - apply existsb_exists in Hv as (y & Hy & Heq). apply String.eqb_eq in Heq. subst y.
    split; [now left | intros [H| ->]; assumption].
  - rewrite in_app_iff. cbn. split.
    + intros [H|[H|[]]]; [now left | right; now symmetry].
    + intros [H| ->]; [now left | right; now left].
Qed.

Lemma Set_add_NoDup (members : list string) (v : string) :
  NoDup members -> NoDup (Set_add members v).
Proof.
  intros Hm. unfold Set_add. destruct (existsb (String.eqb v) members) eqn:Hv; [exact Hm|].
  apply NoDup_app; [exact Hm | repeat constructor; intros [] |].
  intros m Hm' [<-|[]].
  assert (Htrue : existsb (String.eqb v) members = true)
    by (apply existsb_exists; exists v; split; [exact Hm' | apply String.eqb_refl]).
  congruence.
Qed.

Lemma Set_of_spec (l : list string) :
  NoDup (Set_of l) /\ forall x, In x (Set_of l) <-> In x l.
Proof.
  unfold Set_of.
  assert (H : forall acc, NoDup acc ->
            NoDup (fold_left Set_add l acc)
            /\ forall x, In x (fold_left Set_add l acc) <-> In x acc \/ In x l).
  { induction l as [|v l IH]; intros acc Hacc; cbn [fold_left].
    - split; [exact Hacc | intros x; cbn; tauto].
    - destruct (IH (Set_add acc v) (Set_add_NoDup acc v Hacc)) as [Hnd Hin].
      split; [exact Hnd|]. intros x. rewrite Hin, Set_add_In. cbn. intuition auto. }
  destruct (H [] (NoDup_nil _)) as [Hnd Hin]. split; [exact Hnd|].
  intros x. rewrite Hin. cbn. tauto.
Qed.

Lemma filter_split (f : EmbeddingPoint -> bool) (points : list EmbeddingPoint) :
  Permutation.Permutation (filter f points ++ filter (fun p => negb (f p)) points) points.
Proof.
  induction points as [|p points IH]; [constructor|].
  cbn [filter]. destruct (f p); cbn [negb app].
  - now constructor.
  - apply Permutation.Permutation_sym, Permutation.Permutation_cons_app.
    now apply Permutation.Permutation_sym.
Qed.

Lemma filter_other (l l' : string) (points : list EmbeddingPoint) :
  l' <> l ->
  filter (has_label l') (filter (fun p => negb (has_label l p)) points)
  = filter (has_label l') points.
Proof.
  intros Hne. induction points as [|p points IH]; [reflexivity|].
  cbn [filter]. destruct (has_label l p) eqn:Hlp; cbn [negb].
  - assert (Hother : has_label l' p = false).
    { unfold has_label in *. apply String.eqb_eq in Hlp. apply String.eqb_neq. congruence. }
    rewrite Hother. exact IH.
  - cbn [filter]. destruct (has_label l' p); [now rewrite IH | exact IH].
Qed.

(** The groups of the labels of the points hold every point once. *)
Lemma groups_permutation (labels : list string) (points : list EmbeddingPoint) :
  NoDup labels ->
  (forall p, In p points -> In (label p) labels) ->
  Permutation.Permutation (flat_map (fun l => filter (has_label l) points) labels) points.
Proof.
  intros Hnd. revert points. induction Hnd as [|l labels Hl Hnd IH]; intros points Hall.
  - destruct points as [|p points]; [constructor|]. destruct (Hall p (or_introl eq_refl)).
  - cbn [flat_map].
    set (others := filter (fun p => negb (has_label l p)) points).
    assert (Hsame : flat_map (fun l' => filter (has_label l') points) labels
                    = flat_map (fun l' => filter (has_label l') others) labels).
    { clear IH Hnd Hall. induction labels as [|l' labels IHl]; [reflexivity|].
      cbn [flat_map]. rewrite IHl by (intros H; apply Hl; now right).
      unfold others. rewrite filter_other; [reflexivity|].
      intros ->. apply Hl. now left. }
    rewrite Hsame.
    apply Permutation.Permutation_trans
      with (filter (has_label l) points ++ others)%list; [|apply filter_split].
    apply Permutation.Permutation_app_head, IH.
    intros p Hp. unfold others in Hp. apply filter_In in Hp as [Hp Hnot].
    destruct (Hall p Hp) as [Heq|Hin]; [|exact Hin].
    unfold has_label in Hnot. rewrite <- Heq, String.eqb_refl in Hnot. discriminate.
Qed.

Lemma markers_trace (idx : nat) (l : string) (group : list EmbeddingPoint) :
  markers (trace idx l group) = map marker group.
Proof.
  unfold markers, trace. cbn [trace_x trace_y text].
  induction group as [|p group IH]; [reflexivity|]. cbn [map combine]. now rewrite IH.
Qed.

Lemma pushed_names {A : Type} (named : A -> string) (group : A -> list EmbeddingPoint)
    (idx : nat) (l : list A) :
  map name (pushed (fun i a => trace i (named a) (group a)) idx l) = map named l.
Proof.
  revert idx. induction l as [|a l IH]; intros idx; [reflexivity|].
  cbn [pushed map]. now rewrite IH.
Qed.

Lemma pushed_markers {A : Type} (named : A -> string) (group : A -> list EmbeddingPoint)
    (idx : nat) (l : list A) :
  flat_map markers (pushed (fun i a => trace i (named a) (group a)) idx l)
  = map marker (flat_map group l).
Proof.
  revert idx. induction l as [|a l IH]; intros idx; [reflexivity|].
  cbn [pushed flat_map]. now rewrite IH, markers_trace, map_app.
Qed.

Lemma pushed_Forall {A B : Type} (P : B -> Prop) (f : nat -> A -> B) (idx : nat) (l : list A) :
  (forall i a, In a l -> P (f i a)) -> Forall P (pushed f idx l).
Proof.
  revert idx. induction l as [|a l IH]; intros idx H; cbn [pushed]; constructor.
  - apply H. now left.
  - apply IH. intros i b Hb. apply H. now right.
Qed.

(** X29. Coloured by class, the plot shows every point of the selected
    model once: the traces are named by the labels of the points, each
    label once, no trace is empty, and the markers of all the traces
    together are the markers of the points, each as often as it comes
    among the points. *)
Theorem class_traces_partition (allEmbeddingsData : EmbeddingsDataMap) (selectedModel : string) :
  let points := match lookup selectedModel allEmbeddingsData with
                | Some points => points
                | None => []
                end in
  let traces := generatePlotlyTraces class allEmbeddingsData selectedModel in
  NoDup (map name traces)
  /\ (forall l, In l (map name traces) <-> exists p, In p points /\ label p = l)
  /\ Forall (fun t => markers t <> []) traces
  /\ Permutation.Permutation (flat_map markers traces) (map marker points).
Proof.
  cbv zeta. unfold generatePlotlyTraces.
  set (points := match lookup selectedModel allEmbeddingsData with
                 | Some points => points
                 | None => []
                 end).
  destruct (Set_of_spec (map label points)) as [Hnd Hin].
  rewrite (pushed_names (fun l => l) (fun l => filter (has_label l) points)), map_id.
  split; [exact Hnd|]. split; [|split].
  - intros l. rewrite Hin, in_map_iff. split; intros (p & H1 & H2); exists p; tauto.
  - apply pushed_Forall. intros i l Hl. rewrite markers_trace.
    apply Hin, in_map_iff in Hl as (p & Hp & Hpin).
    assert (Hf : In p (filter (has_label l) points)).
    { apply filter_In. split; [exact Hpin|]. unfold has_label. rewrite Hp. apply String.eqb_refl. }
    destruct (filter (has_label l) points); [destruct Hf | discriminate].
  - rewrite (pushed_markers (fun l => l) (fun l => filter (has_label l) points)).
    apply Permutation.Permutation_map, groups_permutation; [exact Hnd|].
    intros p Hp. apply Hin, in_map. exact Hp.
Qed.

End UMAPFacts.
